(** * spacemap: the design-space mapping engine, embedded in Rocq

    A shallow embedding of the bookkeeping core of the [spacemap] package:
    the sample store ([utilities/data_collection.py]), the mesh generator of
    the PCA reduction ([dimensionality/pca.py]), the random-restart sampler
    loop ([samplers/random_lumopt.py]) and the orchestrator ([mapping.py]).

    Conventions.
    - A Python float that is stored, compared or handed over is the
      rational it denotes ([Q]).  Where the code computes with floats (the
      mesh generator), the arithmetic is IEEE 754 binary64 ([Float64]):
      every operation is rounded, division by zero does not raise but
      yields inf or nan.  In a returned grid such values are the single
      token [NonFinite] of [xq].
    - Python exceptions are values of [exn]; a computation that may raise
      returns [res A].
    - The simulator, the local optimiser and the random generator are
      external: the record [External] gives their calls as functions on an
      abstract [World].  The fitted scaler and PCA of scikit-learn appear
      as the inversion function of [PCA.Fitted]. *)

From Stdlib Require Import String Ascii List Bool Arith ZArith QArith Qabs Qround Lia.
From Stdlib Require DecimalString SpecFloat.
Import ListNotations.
Open Scope string_scope.
Open Scope Z_scope.
Open Scope Q_scope.
Open Scope list_scope.

Set Implicit Arguments.

(** ** Exceptions and the error monad *)

Inductive exn : Type :=
| TypeError
| IndexError
| ValueError
| OverflowError
| AttributeError
| Failure (msg : string).

Inductive res (A : Type) : Type :=
| Ok (a : A)
| Raise (e : exn).

Arguments Ok {A} a.
Arguments Raise {A} e.

Definition bind {A B : Type} (m : res A) (k : A -> res B) : res B :=
  match m with
  | Ok a => k a
  | Raise e => Raise e
  end.

Notation "x <- m ;; k" := (bind m (fun x => k))
  (at level 61, m at next level, right associativity).

(** ** Python and numpy values *)

Module Py.

(** A value that is not a Python list: the sentinel [False], a float, or a
    one-dimensional ndarray of floats. *)
Inductive atom : Type :=
| AFalse
| ANum (q : Q)
| AArr (a : list Q).

(** What an evaluation hands back: one such value, or a Python list. *)
Inductive value : Type :=
| Atom (a : atom)
| PyList (l : list atom).

Definition Qltb (a b : Q) : bool := negb (Qle_bool b a).
Definition Qgtb (a b : Q) : bool := Qltb b a.

(** Truth value of a boolean ndarray: ambiguous (ValueError) with two or
    more elements; an empty array is falsy (numpy 1.x warns and answers
    [False]). *)
Definition array_truth (bs : list bool) : res bool :=
  match bs with
  | [] => Ok false
  | [b] => Ok b
  | _ => Raise ValueError
  end.

(** [l[i]] on a Python list, negative indices counting from the end. *)
Definition index {A : Type} (l : list A) (i : Z) : res A :=
  let n := Z.of_nat (length l) in
  let j := if (i <? 0)%Z then (n + i)%Z else i in
  if ((0 <=? j) && (j <? n))%Z
  then match nth_error l (Z.to_nat j) with
       | Some x => Ok x
       | None => Raise IndexError
       end
  else Raise IndexError.

(** [x in s] for two strings: substring test. *)
Fixpoint is_substring (s t : string) : bool :=
  prefix s t ||
  match t with
  | EmptyString => false
  | String _ t' => is_substring s t'
  end.

(** [if res != False]. *)
Definition ne_False (v : value) : res bool :=
  match v with
  | Atom AFalse => Ok false
  | Atom (ANum q) => Ok (negb (Qeq_bool q 0))
  | Atom (AArr a) => array_truth (map (fun x => negb (Qeq_bool x 0)) a)
  | PyList _ => Ok true
  end.

(** [if res == False]. *)
Definition eq_False (v : value) : res bool :=
  match v with
  | Atom AFalse => Ok true
  | Atom (ANum q) => Ok (Qeq_bool q 0)
  | Atom (AArr a) => array_truth (map (fun x => Qeq_bool x 0) a)
  | PyList _ => Ok false
  end.

(** [res is not False]. *)
Definition is_not_False (v : value) : bool :=
  match v with
  | Atom AFalse => false
  | _ => true
  end.

End Py.
Import Py.

(** ** The sample store ([utilities/data_collection.py]) *)

Module DataCollection.

(** [Sample]: [parameters_size] and [result_size] are the lengths. *)
Record Sample : Type := mkSample {
  parameters : list Q;
  simulation_name : string;
  result : list atom;
  result_name : string
}.

Definition parameters_size (s : Sample) : nat := length (parameters s).
Definition result_size (s : Sample) : nat := length (result s).

(** [Sample.__init__]: a result that is not a list is wrapped in one. *)
Definition Sample_init (params : list Q) (sim_name : string)
           (r : value) (r_name : string) : Sample :=
  let result_to_store :=
    match r with
    | PyList l => l
    | Atom a => [a]
    end in
  mkSample params sim_name result_to_store r_name.

(** The store is its list [sample]; [sample_num] is its length. *)
Definition t : Type := list Sample.

Definition sample_num (dc : t) : nat := length dc.

Definition add_sample (dc : t) (params : list Q) (sim_name : string)
           (r : value) (r_name : string) : t * nat :=
  let dc' := dc ++ [Sample_init params sim_name r r_name] in
  (dc', (sample_num dc' - 1)%nat).

(** *** is_sample *)

Fixpoint all_eq (xs ys : list Q) : bool :=
  match xs, ys with
  | x :: xs', y :: ys' => Qeq_bool x y && all_eq xs' ys'
  | _, _ => true
  end.

(** The scan of [is_sample] from index [i] on.  The source compares the
    names with [is]; the orchestrator always passes the study's own
    [fom_name] object, and names are compared here by their characters.
    The lookup on the objects themselves is [Identity.is_sample]; the two
    agree when equal names are one object. *)
Fixpoint is_sample_from (i : nat) (l : list Sample) (params : list Q)
         (r_name : string) : bool * option nat :=
  match l with
  | [] => (false, None)
  | s :: l' =>
      if (length params =? parameters_size s)%nat
         && all_eq (parameters s) params
         && String.eqb (result_name s) r_name
      then (true, Some i)
      else is_sample_from (S i) l' params r_name
  end.

Definition is_sample (dc : t) (params : list Q) (r_name : string)
  : bool * option nat :=
  is_sample_from 0 dc params r_name.

(** *** filter_simulation *)

Inductive index_arg : Type :=
| IdxInt (i : Z)
| IdxList (l : list Z).

Inductive stage_arg : Type :=
| StageNone
| StageStr (s : string)
| StageList (l : list string).

Inductive bound_arg : Type :=
| BoundNone
| BoundScalar (q : Q)
| BoundList (l : list (option Q)).

(** [name in simulation_name]: substring of a string, member of a list. *)
Definition stage_ok (sel : stage_arg) (name : string) : bool :=
  match sel with
  | StageNone => true
  | StageStr s => is_substring name s
  | StageList l => existsb (String.eqb name) l
  end.

(** [lb == None] used as a condition, [lb] being [None] or
    [np.array(lower_bound)]. *)
Definition bound_is_None (b : bound_arg) : res bool :=
  match b with
  | BoundNone => Ok true
  | BoundScalar _ => Ok false
  | BoundList l =>
      array_truth (map (fun o => match o with None => true | Some _ => false end) l)
  end.

(** Comparing a float with an entry of an object array. *)
Definition cmp_entry (cmp : Q -> Q -> bool) (x : Q) (o : option Q) : res bool :=
  match o with
  | Some b => Ok (cmp x b)
  | None => Raise TypeError
  end.

Fixpoint all_res (l : list (res bool)) : res bool :=
  match l with
  | [] => Ok true
  | r :: l' => b <- r ;; c <- all_res l' ;; Ok (b && c)
  end.

Fixpoint zip_with {A B C : Type} (f : A -> B -> C) (xs : list A) (ys : list B)
  : list C :=
  match xs, ys with
  | x :: xs', y :: ys' => f x y :: zip_with f xs' ys'
  | _, _ => []
  end.

(** [np.array(v)]: its elements (a 0-d array broadcasts like a
    one-element one). *)
Definition as_array (a : atom) : list Q :=
  match a with
  | AFalse => [0]
  | ANum q => [q]
  | AArr xs => xs
  end.

(** [(res > lb).all()] and [(res < ub).all()], with numpy broadcasting. *)
Definition all_cmp (cmp : Q -> Q -> bool) (a : atom) (b : bound_arg) : res bool :=
  let xs := as_array a in
  match b with
  | BoundNone => Raise TypeError
  | BoundScalar q => Ok (forallb (fun x => cmp x q) xs)
  | BoundList l =>
      match xs, l with
      | [x], _ => all_res (map (cmp_entry cmp x) l)
      | _, [o] => all_res (map (fun x => cmp_entry cmp x o) xs)
      | _, _ =>
          if (length xs =? length l)%nat
          then all_res (zip_with (cmp_entry cmp) xs l)
          else Raise ValueError
      end
  end.

(** [lb == None or (res > lb).all()]. *)
Definition side_ok (cmp : Q -> Q -> bool) (a : atom) (b : bound_arg) : res bool :=
  none <- bound_is_None b ;;
  if none then Ok true else all_cmp cmp a b.

Definition filtered : Type := list (list Q) * list (list atom) * list nat.

(** One turn of the loop over the store.  Line 132 indexes the result list
    with [result_index] before testing its type: with a list as index that
    is a TypeError, so the per-component branch of lines 141-155 is never
    entered. *)
Definition filter_step (r_name : string) (r_index : index_arg)
           (sel : stage_arg) (lb ub : bound_arg)
           (i : nat) (s : Sample) (acc : filtered) : res filtered :=
  if String.eqb (result_name s) r_name && stage_ok sel (simulation_name s)
  then
    match r_index with
    | IdxList _ => Raise TypeError
    | IdxInt k =>
        a <- index (result s) k ;;
        lo <- side_ok Qgtb a lb ;;
        if lo
        then hi <- side_ok Qltb a ub ;;
             if hi
             then let '(ps, rs, ids) := acc in
                  Ok (ps ++ [parameters s], rs ++ [result s], ids ++ [i])
             else Ok acc
        else Ok acc
    end
  else Ok acc.

Fixpoint filter_from (r_name : string) (r_index : index_arg)
         (sel : stage_arg) (lb ub : bound_arg)
         (i : nat) (l : list Sample) (acc : filtered) : res filtered :=
  match l with
  | [] => Ok acc
  | s :: l' =>
      acc' <- filter_step r_name r_index sel lb ub i s acc ;;
      filter_from r_name r_index sel lb ub (S i) l' acc'
  end.

Definition filter_simulation (dc : t) (r_name : string) (r_index : index_arg)
           (sel : stage_arg) (lb ub : bound_arg) : res filtered :=
  filter_from r_name r_index sel lb ub 0 dc ([], [], []).

(** *** Tabular export and import

    A csv file is the list of its rows, a row the list of its cells (the
    quoting done by Python's [csv] module is below this level).  How a
    float is printed and read back, how an ndarray is printed, and what
    [str([s])[2:-2]] leaves of a cell are Python's business. *)

Section Csv.

Variable float_repr : Q -> string.
Variable float_parse : string -> option Q.
Variable array_str : list Q -> string.
Variable repr_body : string -> string.

Definition cell_of_atom (a : atom) : string :=
  match a with
  | AFalse => "False"
  | ANum q => float_repr q
  | AArr xs => array_str xs
  end.

Definition export_row (s : Sample) : list string :=
  simulation_name s :: result_name s ::
    map float_repr (parameters s) ++ map cell_of_atom (result s).

Definition export_to_csv (dc : t) : list (list string) :=
  map export_row dc.

(** [np.float64(cells)]: an ndarray, or ValueError. *)
Fixpoint float64 (cells : list string) : res (list Q) :=
  match cells with
  | [] => Ok []
  | c :: cells' =>
      match float_parse c with
      | Some q => qs <- float64 cells' ;; Ok (q :: qs)
      | None => Raise ValueError
      end
  end.

(** [str(cells)[2:-2]] for a slice of at most one cell. *)
Definition tag_of (cells : list string) : string :=
  match cells with
  | [] => ""
  | c :: _ => repr_body c
  end.

(** One row of [load_from_csv]: the result columns reach [add_sample]
    as one ndarray. *)
Definition load_row (dc : t) (row : list string) (n : nat) : res t :=
  let sim_name := tag_of (firstn 1 row) in
  let r_name := tag_of (firstn 1 (skipn 1 row)) in
  params <- float64 (firstn n (skipn 2 row)) ;;
  r <- float64 (skipn (n + 2) row) ;;
  Ok (fst (add_sample dc params sim_name (Atom (AArr r)) r_name)).

(** The store after the call, and the exception that ended it, if any:
    rows read before a bad one stay in the store. *)
Fixpoint load_from_csv (dc : t) (rows : list (list string)) (n : nat)
  : t * option exn :=
  match rows with
  | [] => (dc, None)
  | row :: rows' =>
      match load_row dc row n with
      | Ok dc' => load_from_csv dc' rows' n
      | Raise e => (dc, Some e)
      end
  end.

End Csv.

End DataCollection.

(** ** IEEE 754 binary64

    The arithmetic of Python floats and of numpy's [float64], taken from
    the specification of the standard library ([SpecFloat]) at precision 53
    and maximal exponent 1024: every operation returns the double nearest
    to the exact result, ties to even, with infinities, NaN and signed
    zeros. *)

Module Float64.

Definition prec : Z := 53.
Definition emax : Z := 1024.

Definition float : Type := SpecFloat.spec_float.

Definition zero : float := SpecFloat.S754_zero false.

Definition add : float -> float -> float := SpecFloat.SFadd prec emax.
Definition sub : float -> float -> float := SpecFloat.SFsub prec emax.
Definition mul : float -> float -> float := SpecFloat.SFmul prec emax.
Definition div : float -> float -> float := SpecFloat.SFdiv prec emax.
Definition abs : float -> float := SpecFloat.SFabs.
Definition eqb : float -> float -> bool := SpecFloat.SFeqb.

(** The double nearest to an integer. *)
Definition of_Z (z : Z) : float := SpecFloat.binary_normalize prec emax z 0 false.

(** The double nearest to a rational: the one a decimal literal or a
    conversion to [float64] denotes.  A rational that is a double is
    unchanged. *)
Definition of_Q (q : Q) : float :=
  match Qnum q with
  | Z0 => zero
  | Zpos n =>
      let '(m, e, l) :=
        SpecFloat.SFdiv_core_binary prec emax (Zpos n) 0 (Zpos (Qden q)) 0 in
      SpecFloat.binary_round_aux prec emax false m e l
  | Zneg n =>
      let '(m, e, l) :=
        SpecFloat.SFdiv_core_binary prec emax (Zpos n) 0 (Zpos (Qden q)) 0 in
      SpecFloat.binary_round_aux prec emax true m e l
  end.

(** The rational a finite double denotes, in lowest terms. *)
Definition to_Q (f : float) : option Q :=
  match f with
  | SpecFloat.S754_zero _ => Some 0
  | SpecFloat.S754_finite s m e =>
      let n := if s then Zneg m else Zpos m in
      Some (if (0 <=? e)%Z then inject_Z (n * 2 ^ e)
            else Qred (Qmake n (Z.to_pos (2 ^ (- e)))))
  | _ => None
  end.

(** [np.ceil]. *)
Definition ceil (f : float) : float :=
  match f with
  | SpecFloat.S754_finite s m e =>
      if (0 <=? e)%Z then f
      else
        let d := (2 ^ (- e))%Z in
        if s then SpecFloat.binary_normalize prec emax (- (Zpos m / d)) 0 true
        else SpecFloat.binary_normalize prec emax ((Zpos m + d - 1) / d) 0 false
  | _ => f
  end.

(** [int(x)]: truncation; an infinity or a NaN cannot be converted. *)
Definition to_int (f : float) : res Z :=
  match f with
  | SpecFloat.S754_zero _ => Ok 0%Z
  | SpecFloat.S754_finite s m e =>
      let a := if (0 <=? e)%Z then (Zpos m * 2 ^ e)%Z else (Zpos m / 2 ^ (- e))%Z in
      Ok (if s then (- a)%Z else a)
  | SpecFloat.S754_infinity _ => Raise OverflowError
  | SpecFloat.S754_nan => Raise ValueError
  end.

(** [((r0 + r1) + (r2 + r3)) + ((r4 + r5) + (r6 + r7))]. *)
Definition sum8 (r : list float) : float :=
  match r with
  | [r0; r1; r2; r3; r4; r5; r6; r7] =>
      add (add (add r0 r1) (add r2 r3)) (add (add r4 r5) (add r6 r7))
  | _ => fold_left add r zero
  end.

Fixpoint zip_add (r l : list float) : list float :=
  match r, l with
  | x :: r', y :: l' => add x y :: zip_add r' l'
  | _, _ => r
  end.

(** The eight running sums after [blocks] further blocks of eight, and
    what is left of the list. *)
Fixpoint add_blocks (blocks : nat) (r l : list float) : list float * list float :=
  match blocks with
  | O => (r, l)
  | S b => add_blocks b (zip_add r (firstn 8 l)) (skipn 8 l)
  end.

(** numpy's pairwise summation of a contiguous array: a plain loop below
    eight elements, eight running sums up to 128 elements, and two halves
    above.  [fuel] bounds the depth of the halving; the length of the list
    is more than enough. *)
Fixpoint pairwise_sum (fuel : nat) (l : list float) : float :=
  let n := length l in
  if (n <? 8)%nat then fold_left add l zero
  else if (n <=? 128)%nat then
    let '(r, rest) := add_blocks (n / 8 - 1) (firstn 8 l) (skipn 8 l) in
    fold_left add rest (sum8 r)
  else
    match fuel with
    | O => fold_left add l zero
    | S fuel' =>
        let n2 := (n / 2 - (n / 2) mod 8)%nat in
        add (pairwise_sum fuel' (firstn n2 l)) (pairwise_sum fuel' (skipn n2 l))
    end.

(** [np.sum] of a one-dimensional [float64] array: the reduction starts
    from the identity of the addition. *)
Definition np_sum (l : list float) : float :=
  add zero (pairwise_sum (length l) l).

End Float64.

(** ** The mesh generator of the PCA reduction ([dimensionality/pca.py]) *)

Module PCA.

(** A float of a returned grid: the rational it denotes, or inf/nan. *)
Inductive xq : Type :=
| Finite (q : Q)
| NonFinite.

Definition to_xq (f : Float64.float) : xq :=
  match Float64.to_Q f with
  | Some q => Finite q
  | None => NonFinite
  end.

(** The fitted scaler and PCA: the inversion of one reduced point
    ([_invert_pca]) and the per-axis standard deviation and mean of
    [projected_training_data]. *)
Record Fitted : Type := mkFitted {
  invert : list Q -> list Q;
  projected_std : list Q;
  projected_mean : list Q
}.

Record t : Type := mkPCA {
  n_components : nat;
  init_n_components : nat;
  fitted : option Fitted
}.

(** The coordinates of a point, if all are finite. *)
Fixpoint finite_point (p : list Float64.float) : option (list Q) :=
  match p with
  | [] => Some []
  | x :: p' =>
      match Float64.to_Q x, finite_point p' with
      | Some q, Some qs => Some (q :: qs)
      | _, _ => None
      end
  end.

Fixpoint finite_grid (g : list (list Float64.float)) : option (list (list Q)) :=
  match g with
  | [] => Some []
  | p :: g' =>
      match finite_point p, finite_grid g' with
      | Some q, Some qs => Some (q :: qs)
      | _, _ => None
      end
  end.

(** [invert_model] on one reduced point.  Before training the attributes
    do not exist.  The fitted model is given finite points only: the
    validation of scikit-learn rejects an infinite coordinate with
    ValueError, and a NaN would come back as NaN, which the points of this
    model cannot hold; both end the call here. *)
Definition invert_model (self : t) (data : list Float64.float) : res (list Q) :=
  match fitted self with
  | Some f =>
      match finite_point data with
      | Some p => Ok (invert f p)
      | None => Raise ValueError
      end
  | None => Raise AttributeError
  end.

(** [invert_model] on the list of grid points; an empty list has no
    columns to multiply and is refused. *)
Definition invert_grid (self : t) (grid : list (list Float64.float))
  : res (list (list Q) * list (list Q)) :=
  match fitted self with
  | Some f =>
      match grid with
      | [] => Raise ValueError
      | _ :: _ =>
          match finite_grid grid with
          | Some pts => Ok (map (invert f) pts, pts)
          | None => Raise ValueError
          end
      end
  | None => Raise AttributeError
  end.

Definition reset_model (self : t) : res t :=
  match fitted self with
  | Some _ => Ok (mkPCA (init_n_components self) (init_n_components self) None)
  | None => Raise AttributeError
  end.

(** How [distance] and [n_points] may be passed. *)
Inductive arg (A : Type) : Type :=
| ArgNone
| ArgScalar (x : A)
| ArgList (l : list A)
| ArgArray (l : list A).

Arguments ArgNone {A}.
Arguments ArgScalar {A} x.
Arguments ArgList {A} l.
Arguments ArgArray {A} l.

(** [boundaries]: [None], a pair of Python lists, or a (2,n) ndarray. *)
Inductive bounds_arg : Type :=
| BndNone
| BndList (lo hi : list Q)
| BndArray (lo hi : list Q).

(** [x == None] as a condition: elementwise on an ndarray. *)
Definition arg_is_None {A : Type} (x : arg A) : res bool :=
  match x with
  | ArgNone => Ok true
  | ArgScalar _ => Ok false
  | ArgList _ => Ok false
  | ArgArray l => array_truth (map (fun _ => false) l)
  end.

(** [np.ones(n) * l] for a sequence [l]: numpy broadcasting of the shapes
    (n,) and (len l,). *)
Definition broadcast {A : Type} (n : nat) (l : list A) : res (list A) :=
  if (length l =? n)%nat then Ok l
  else if (n =? 1)%nat then Ok l
  else match l with
       | [x] => Ok (repeat x n)
       | _ => Raise ValueError
       end.

(** Lines 161-168 and 176-184: the vector built from the argument. *)
Definition arg_vector {A : Type} (n : nat) (x : arg A) : res (list A) :=
  match x with
  | ArgNone => Raise TypeError
  | ArgScalar v => Ok (repeat v n)
  | ArgList l => broadcast n l
  | ArgArray l => if (length l =? 1)%nat then broadcast n l else Ok l
  end.

(** The mode chosen by lines 155-188, with the vector that was given. *)
Inductive mode : Type :=
| FindNPoints (dist_vector : list Q)
| FindDist (n_points_vector : list Z).

Definition mesh_mode (self : t) (distance : arg Q) (n_points : arg Z) : res mode :=
  nn <- arg_is_None n_points ;;
  if nn
  then dn <- arg_is_None distance ;;
       if dn then Raise ValueError
       else dv <- arg_vector (n_components self) distance ;; Ok (FindNPoints dv)
  else nv <- arg_vector (n_components self) n_points ;; Ok (FindDist nv).

(** Lines 196-200: [samples_mean - 5*samples_std] and
    [samples_mean + 5*samples_std]. *)
Definition default_bounds (self : t)
  : res (list Float64.float * list Float64.float) :=
  match fitted self with
  | None => Raise AttributeError
  | Some f =>
      let five_std s := Float64.mul (Float64.of_Z 5) (Float64.of_Q s) in
      Ok (DataCollection.zip_with
            (fun m s => Float64.sub (Float64.of_Q m) (five_std s))
            (projected_mean f) (projected_std f),
          DataCollection.zip_with
            (fun m s => Float64.add (Float64.of_Q m) (five_std s))
            (projected_mean f) (projected_std f))
  end.

Definition mesh_bounds (self : t) (boundaries : bounds_arg)
  : res (list Float64.float * list Float64.float) :=
  match boundaries with
  | BndNone => default_bounds self
  | BndList lo hi => Ok (map Float64.of_Q lo, map Float64.of_Q hi)
  | BndArray lo hi =>
      given <- array_truth (map (fun _ => true) (lo ++ hi)) ;;
      if given then Ok (map Float64.of_Q lo, map Float64.of_Q hi)
      else default_bounds self
  end.

(** [v[i]] for [i] in [range]. *)
Definition get {A : Type} (l : list A) (i : nat) : res A :=
  match nth_error l i with
  | Some x => Ok x
  | None => Raise IndexError
  end.

(** [np.zeros(n)] with entry [i] set to [x]. *)
Definition axis_point (n i : nat) (x : Float64.float) : list Float64.float :=
  map (fun j => if (j =? i)%nat then x else Float64.zero) (seq 0 n).

(** [np.sum(np.abs(a - b))]. *)
Definition manhattan (a b : list Q) : Float64.float :=
  Float64.np_sum
    (DataCollection.zip_with
       (fun x y => Float64.abs (Float64.sub (Float64.of_Q x) (Float64.of_Q y))) a b).

(** What fits the entry of an array of dtype ["int"] (64 bits). *)
Definition int64 (k : Z) : res Z :=
  if ((- 2 ^ 63 <=? k) && (k <? 2 ^ 63))%Z then Ok k else Raise OverflowError.

(** [int(np.ceil(ab_dist / d) + 1)], stored in [n_points_vector]: a
    division by zero gives inf or nan, whose conversion raises. *)
Definition count_for (ab_dist d : Float64.float) : res Z :=
  k <- Float64.to_int
         (Float64.add (Float64.ceil (Float64.div ab_dist d)) (Float64.of_Z 1)) ;;
  int64 k.

(** [y[-1] = stop]. *)
Definition set_last {A : Type} (y : list A) (stop : A) : list A :=
  match y with
  | [] => []
  | _ :: _ => removelast y ++ [stop]
  end.

(** [np.linspace(start, stop, num)]: the integers below [num], scaled by
    the step (or, when the step underflows to zero, divided by [num - 1]
    and scaled by the range), shifted by [start]; the last sample is
    [stop] itself. *)
Definition linspace (start stop : Float64.float) (num : Z)
  : res (list Float64.float) :=
  if (num <? 0)%Z then Raise ValueError
  else
    let div := (num - 1)%Z in
    let y := map (fun k => Float64.of_Z (Z.of_nat k)) (seq 0 (Z.to_nat num)) in
    let delta := Float64.sub stop start in
    let y :=
      if (0 <? div)%Z
      then
        let step := Float64.div delta (Float64.of_Z div) in
        if Float64.eqb step Float64.zero
        then map (fun v => Float64.mul (Float64.div v (Float64.of_Z div)) delta) y
        else map (fun v => Float64.mul v step) y
      else map (fun v => Float64.mul v delta) y in
    let y := map (fun v => Float64.add v start) y in
    Ok (if (1 <? num)%Z then set_last y stop else y).

(** What one turn of the loop of lines 204-225 computes for axis [i]:
    [ab_dist], the entries [n_points_vector[i]] and [dist_vector[i]], and
    the two lists it appends. *)
Record axis : Type := mkAxis {
  ab_dist : Float64.float;
  count : Z;
  step : Float64.float;
  samp : list Float64.float;
  normalized : list Float64.float
}.

Definition mesh_axis (self : t) (m : mode) (lower upper : list Float64.float) (i : nat)
  : res axis :=
  let n := n_components self in
  lo <- get lower i ;;
  point_a <- invert_model self (axis_point n i lo) ;;
  hi <- get upper i ;;
  point_b <- invert_model self (axis_point n i hi) ;;
  let d_ab := manhattan point_a point_b in
  nd <- match m with
        | FindNPoints dist_vector =>
            d <- get dist_vector i ;;
            k <- count_for d_ab (Float64.of_Q d) ;;
            Ok (k, Float64.of_Q d)
        | FindDist n_points_vector =>
            k <- get n_points_vector i ;;
            Ok (k, Float64.div d_ab (Float64.of_Z (k - 1)))
        end ;;
  let '(k, d) := nd in
  s <- linspace lo hi k ;;
  if (0 <? length s)%nat
  then s1 <- get s 1 ;;
       s0 <- get s 0 ;;
       let projected_dist := Float64.sub s1 s0 in
       Ok (mkAxis d_ab k d s
                  (map (fun x => Float64.mul (Float64.div x projected_dist) d) s))
  else Ok (mkAxis d_ab k d s s).

Fixpoint mesh_axes (self : t) (m : mode) (lower upper : list Float64.float)
         (range : list nat) : res (list axis) :=
  match range with
  | [] => Ok []
  | i :: range' =>
      a <- mesh_axis self m lower upper i ;;
      rest <- mesh_axes self m lower upper range' ;;
      Ok (a :: rest)
  end.

(** [itertools.product] of the lists: the first list varies slowest. *)
Fixpoint product {A : Type} (lists : list (list A)) : list (list A) :=
  match lists with
  | [] => [[]]
  | l :: lists' => flat_map (fun x => map (cons x) (product lists')) l
  end.

(** The three grids returned: the points in the original space, in the
    reduced space, and in the normalized reduced space. *)
Definition grids : Type := list (list Q) * list (list Q) * list (list xq).

Definition subspace_mesh (self : t) (distance : arg Q) (n_points : arg Z)
           (boundaries : bounds_arg) : res grids :=
  m <- mesh_mode self distance n_points ;;
  lu <- mesh_bounds self boundaries ;;
  axes <- mesh_axes self m (fst lu) (snd lu) (seq 0 (n_components self)) ;;
  let mapping_projected_grid := product (map samp axes) in
  let mapping_normalized_projected_grid := product (map normalized axes) in
  inv <- invert_grid self mapping_projected_grid ;;
  Ok (fst inv, snd inv, map (map to_xq) mapping_normalized_projected_grid).

End PCA.

(** ** Stateful code: state, exceptions and fuel *)

(** How a call ends: it returns, it raises, or the model ran out of fuel
    (the loop was still running). *)
Inductive outcome (A : Type) : Type :=
| Return (a : A)
| Throw (e : exn)
| Diverge.

Arguments Return {A} a.
Arguments Throw {A} e.
Arguments Diverge {A}.

Definition M (S A : Type) : Type := S -> S * outcome A.

Definition ret {S A : Type} (a : A) : M S A := fun s => (s, Return a).

Definition bindM {S A B : Type} (m : M S A) (k : A -> M S B) : M S B :=
  fun s =>
    match m s with
    | (s', Return a) => k a s'
    | (s', Throw e) => (s', Throw e)
    | (s', Diverge) => (s', Diverge)
    end.

Notation "x <~ m ;; k" := (bindM m (fun x => k))
  (at level 61, m at next level, right associativity).
Notation "m ;;; k" := (bindM m (fun _ => k))
  (at level 61, right associativity).

Definition lift {S A : Type} (r : res A) : M S A :=
  fun s => match r with
           | Ok a => (s, Return a)
           | Raise e => (s, Throw e)
           end.

Definition gets {S A : Type} (f : S -> A) : M S A := fun s => (s, Return (f s)).
Definition modify {S : Type} (f : S -> S) : M S unit := fun s => (f s, Return tt).

(** [try: body except Exception as e: handler]: the handler starts from the
    state the body had reached when it raised. *)
Definition try_except {S A : Type} (body : M S A) (handler : exn -> M S A) : M S A :=
  fun s =>
    match body s with
    | (s', Throw e) => handler e s'
    | r => r
    end.

(** ** The external collaborators

    The simulator session, the geometry, the local optimiser and the random
    generator live in an abstract [World].  [sampler_run] is the [run] of
    the sampler as [SpaceMapping.run_sampling] calls it, without argument
    and with four results: sampled results, their parameters, whether the
    refined result is acceptable, and an error flag.  ([RandomLumopt.run]
    below needs [max_results] and returns three.) *)

Record External (World : Type) : Type := mkExternal {
  study_run : option (list Q) -> World -> World * res (value * list Q);
  study_update_geometry : option (list Q) -> World -> World * res bool;
  study_close_simulation : World -> World;
  inverse_design_run : World -> World * res (value * list Q);
  global_sample_function : World -> World * res (list Q);
  sampler_run : World -> World * (list value * list (list Q) * bool * bool)
}.

(** [max_iter]: a count, or [np.Inf]. *)
Definition below (n : nat) (max_iter : option nat) : bool :=
  match max_iter with
  | Some m => (n <? m)%nat
  | None => true
  end.

(** ** The random-restart sampler ([samplers/random_lumopt.py]) *)

Module RandomLumopt.

Inductive bounds : Type :=
| NoBounds
| BoundsArray (l : list (Q * Q))
| BoundsList (l : list (Q * Q)).

Record settings : Type := mkSettings {
  global_parameters_bounds : bounds;
  global_result_constraint : option (value -> res bool);
  local_result_constraint : option (value -> res bool)
}.

(** The sampler's counters and records, the local [new_param] of [run],
    and the world the study lives in. *)
Record state (World : Type) : Type := mkState {
  iteration : nat;
  results_num : nat;
  sampling_param : list (list Q);
  sampling_res : list value;
  new_param : option (list Q);
  world : World
}.

Arguments mkState {World}.
Arguments iteration {World}.
Arguments results_num {World}.
Arguments sampling_param {World}.
Arguments sampling_res {World}.
Arguments new_param {World}.
Arguments world {World}.

Section Run.

Variable World : Type.
Variable ext : External World.
Variable set : settings.

Local Abbreviation St := (state World).

(** A call into the world. *)
Definition call {A : Type} (f : World -> World * res A) : M St A :=
  fun s =>
    let '(w, r) := f (world s) in
    let s' := mkState (iteration s) (results_num s) (sampling_param s)
                      (sampling_res s) (new_param s) w in
    lift r s'.

Definition record (p : list Q) (r : value) : M St unit :=
  modify (fun s => mkState (iteration s) (results_num s)
                           (sampling_param s ++ [p]) (sampling_res s ++ [r])
                           (new_param s) (world s)).

Definition count_result : M St unit :=
  modify (fun s => mkState (iteration s) (S (results_num s))
                           (sampling_param s) (sampling_res s)
                           (new_param s) (world s)).

Definition count_iteration : M St unit :=
  modify (fun s => mkState (S (iteration s)) (results_num s)
                           (sampling_param s) (sampling_res s)
                           (new_param s) (world s)).

Definition set_new_param (p : list Q) : M St unit :=
  modify (fun s => mkState (iteration s) (results_num s)
                           (sampling_param s) (sampling_res s)
                           (Some p) (world s)).

(** [all(a op b)] on two 1-d arrays. *)
Definition all_pairs (cmp : Q -> Q -> bool) (xs ys : list Q) : res bool :=
  match xs, ys with
  | [x], _ => Ok (forallb (fun y => cmp x y) ys)
  | _, [y] => Ok (forallb (fun x => cmp x y) xs)
  | _, _ =>
      if (length xs =? length ys)%nat
      then Ok (forallb (fun b => b) (DataCollection.zip_with cmp xs ys))
      else Raise ValueError
  end.

(** Lines 194-198: is the drawn point accepted? *)
Definition within_bounds (p : list Q) : res bool :=
  match global_parameters_bounds set with
  | NoBounds => Ok true
  | BoundsList _ => Raise TypeError
  | BoundsArray [] => Ok true
  | BoundsArray l =>
      lo <- all_pairs Qgtb p (map fst l) ;;
      if lo then all_pairs Qltb p (map snd l) else Ok false
  end.

(** Lines 190-198: draw until a point is accepted. *)
Fixpoint draw (fuel : nat) : M St unit :=
  match fuel with
  | O => fun s => (s, Diverge)
  | S fuel' =>
      p <~ call (global_sample_function ext) ;;
      set_new_param p ;;;
      ok <~ lift (within_bounds p) ;;
      if ok then ret tt else draw fuel'
  end.

Definition holds (c : option (value -> res bool)) (v : value) : M St bool :=
  match c with
  | None => ret true
  | Some f => lift (f v)
  end.

(** The body of the [try] of lines 140-203.  With a global constraint
    the candidate is simulated, recorded and screened; without one the
    geometry is only updated and the refinement always follows. *)
Definition attempt (fuel : nat) : M St unit :=
  p <~ gets new_param ;;
  go <~ match global_result_constraint set with
        | Some g =>
            r <~ call (study_run ext p) ;;
            record (snd r) (fst r) ;;;
            lift (g (fst r))
        | None =>
            call (study_update_geometry ext p) ;;;
            ret true
        end ;;
  (if go
   then r <~ call (inverse_design_run ext) ;;
        record (snd r) (fst r) ;;;
        good <~ holds (local_result_constraint set) (fst r) ;;
        if good then count_result else ret tt
   else ret tt) ;;;
  draw fuel ;;;
  count_iteration.

(** The [while] of line 139.  [error_flag] counts consecutive failures,
    [turns] how often the body was entered. *)
Fixpoint loop (fuel : nat) (max_results : nat) (max_iter : option nat)
         (error_flag turns : nat) : M St nat :=
  match fuel with
  | O => fun s => (s, Diverge)
  | S fuel' =>
      fun s =>
        if below (iteration s) max_iter
           && (results_num s <? max_results)%nat
           && (error_flag <? 6)%nat
        then
          match attempt fuel' s with
          | (s', Return _) => loop fuel' max_results max_iter 0 (S turns) s'
          | (s', Throw _) => loop fuel' max_results max_iter (S error_flag) (S turns) s'
          | (s', Diverge) => (s', Diverge)
          end
        else (s, Return turns)
  end.

(** [run]: what it returns, and the number of turns of its loop. *)
Definition run (fuel : nat) (max_results : nat) (reset_counter : bool)
           (max_iter : option nat)
  : M St (list value * list (list Q) * nat * nat) :=
  (if reset_counter
   then modify (fun s => mkState O O [] [] (new_param s) (world s))
   else ret tt) ;;;
  modify (fun s => mkState (iteration s) (results_num s) (sampling_param s)
                           (sampling_res s) None (world s)) ;;;
  turns <~ loop fuel max_results max_iter 0 0 ;;
  call (fun w => (study_close_simulation ext w, Ok tt)) ;;;
  s <~ gets (fun s => s) ;;
  ret (sampling_res s, sampling_param s, results_num s, turns).

End Run.

End RandomLumopt.

(** ** The orchestrator ([mapping.py]) *)

Module SpaceMapping.

(** [Map.model] is a reference to the orchestrator's one reduction object,
    not a copy of it. *)
Inductive model_ref : Type :=
| SelfDr.

(** [utilities/map.py]. *)
Record Map : Type := mkMap {
  model : model_ref;
  training_data_idx : list nat;
  projected_grid : list (list Q);
  normalized_projected_grid : list (list PCA.xq);
  sim_idx : list (option nat)
}.

(** The orchestrator.  [evaluations] and [saves] are ghost counters: how
    often [study.run] was called and how often [save_data] wrote the
    project file. *)
Record t (World : Type) : Type := mkT {
  autosave : bool;
  data : DataCollection.t;
  fom_name : string;
  dr : PCA.t;
  maps : list Map;
  sampler_iteration : nat;
  sampler_results_num : nat;
  dr_training_index : list nat;
  world : World;
  evaluations : nat;
  saves : nat
}.

Arguments mkT {World}.
Arguments autosave {World}.
Arguments data {World}.
Arguments fom_name {World}.
Arguments dr {World}.
Arguments maps {World}.
Arguments sampler_iteration {World}.
Arguments sampler_results_num {World}.
Arguments dr_training_index {World}.
Arguments world {World}.
Arguments evaluations {World}.
Arguments saves {World}.

(** One entry of the list the [maps] property builds on every read. *)
Record MapView : Type := mkMapView {
  view_training_parameters : list (list Q);
  view_grid : list (list Q);
  view_result : list (list atom)
}.

Section Orchestrator.

Variable World : Type.
Variable ext : External World.

Local Abbreviation St := (t World).

Definition set_data (d : DataCollection.t) (s : St) : St :=
  mkT (autosave s) d (fom_name s) (dr s) (maps s) (sampler_iteration s)
      (sampler_results_num s) (dr_training_index s) (world s)
      (evaluations s) (saves s).

Definition set_maps (m : list Map) (s : St) : St :=
  mkT (autosave s) (data s) (fom_name s) (dr s) m (sampler_iteration s)
      (sampler_results_num s) (dr_training_index s) (world s)
      (evaluations s) (saves s).

Definition set_counters (it num : nat) (s : St) : St :=
  mkT (autosave s) (data s) (fom_name s) (dr s) (maps s) it num
      (dr_training_index s) (world s) (evaluations s) (saves s).

Definition set_world (w : World) (s : St) : St :=
  mkT (autosave s) (data s) (fom_name s) (dr s) (maps s) (sampler_iteration s)
      (sampler_results_num s) (dr_training_index s) w
      (evaluations s) (saves s).

Definition count_evaluation (s : St) : St :=
  mkT (autosave s) (data s) (fom_name s) (dr s) (maps s) (sampler_iteration s)
      (sampler_results_num s) (dr_training_index s) (world s)
      (S (evaluations s)) (saves s).

(** [save_data(override = True)]: the project file is written. *)
Definition save_data : M St unit :=
  modify (fun s =>
    mkT (autosave s) (data s) (fom_name s) (dr s) (maps s) (sampler_iteration s)
        (sampler_results_num s) (dr_training_index s) (world s)
        (evaluations s) (S (saves s))).

(** [self.study.run(param)]. *)
Definition evaluate (param : option (list Q)) : M St (value * list Q) :=
  fun s =>
    let '(w, r) := study_run ext param (world s) in
    lift r (count_evaluation (set_world w s)).

(** [self.data.add_sample(...)]. *)
Definition add_sample (params : list Q) (name : string) (r : value) : M St nat :=
  fun s =>
    let '(d, i) := DataCollection.add_sample (data s) params name r (fom_name s) in
    (set_data d s, Return i).

(** [self.data.sample[i]]. *)
Definition sample_at (i : option nat) : M St DataCollection.Sample :=
  fun s =>
    match i with
    | Some k => lift (PCA.get (data s) k) s
    | None => (s, Throw TypeError)
    end.

(** [run_study], lines 121-169. *)
Definition run_study (param : option (list Q)) (name : string) (force_run : bool)
  : M St (value * option nat) :=
  found <~ gets (fun s =>
             match param with
             | None => (false, Some O)
             | Some p => DataCollection.is_sample (data s) p (fom_name s)
             end) ;;
  let '(already_simulated, sample_idx) := found in
  out <~ (if negb already_simulated || force_run
          then
            r <~ evaluate param ;;
            let '(v, used_param) := r in
            ok <~ lift (ne_False v) ;;
            if ok
            then i <~ add_sample used_param name v ;; ret (v, Some i)
            else ret (v, sample_idx)
          else
            s <~ sample_at sample_idx ;;
            ret (PyList (DataCollection.result s), sample_idx)) ;;
  save <~ gets autosave ;;
  (if save && is_not_False (fst out) then save_data else ret tt) ;;;
  ret out.

(** The [for] of lines 207-211: [res != False] compares the whole list. *)
Fixpoint store_results (i : nat) (rs : list value) (used_param : list (list Q))
  : M St unit :=
  match rs with
  | [] => ret tt
  | r :: rs' =>
      p <~ lift (PCA.get used_param i) ;;
      add_sample p "sampling" r ;;;
      store_results (S i) rs' used_param
  end.

(** The [while] of lines 187-219.  Line 198 reads [error_num =+ 1]: it
    assigns plus one. *)
Fixpoint sampling_loop (fuel : nat) (max_results : nat) (max_iter : option nat)
         (error_num : nat) : M St unit :=
  match fuel with
  | O => fun s => (s, Diverge)
  | S fuel' =>
      fun s =>
        if below (sampler_iteration s) max_iter
           && (sampler_results_num s <? max_results)%nat
           && (error_num <? 6)%nat
        then
          let '(w, (rs, used_param, good_result, error_flag)) :=
            sampler_run ext (world s) in
          (error_num' <~ (if error_flag
                          then ret 1%nat
                          else
                            modify (fun s => set_counters (S (sampler_iteration s))
                                                          (sampler_results_num s) s) ;;;
                            store_results 0 rs used_param ;;;
                            (if good_result
                             then modify (fun s => set_counters (sampler_iteration s)
                                                     (S (sampler_results_num s)) s)
                             else ret tt) ;;;
                            ret 0%nat) ;;
           save <~ gets autosave ;;
           (if save then save_data else ret tt) ;;;
           sampling_loop fuel' max_results max_iter error_num')
            (set_world w s)
        else (s, Return tt)
  end.

(** [run_sampling], lines 177-226. *)
Definition run_sampling (fuel : nat) (max_results : nat) (reset : bool)
           (max_iter : option nat) : M St bool :=
  (if reset then modify (set_counters 0 0) else ret tt) ;;;
  sampling_loop fuel max_results max_iter 0 ;;;
  num <~ gets sampler_results_num ;;
  ret (negb (num <? max_results)%nat).

(** The [maps] property, lines 89-108: every index is looked up in the
    store, and the model must have its projected training data. *)
Fixpoint lookup_all {A : Type} (f : DataCollection.Sample -> A)
         (d : DataCollection.t) (idx : list (option nat)) : res (list A) :=
  match idx with
  | [] => Ok []
  | None :: _ => Raise TypeError
  | Some i :: idx' =>
      s <- PCA.get d i ;;
      rest <- lookup_all f d idx' ;;
      Ok (f s :: rest)
  end.

Definition view_of (s : St) (m : Map) : res MapView :=
  tp <- lookup_all DataCollection.parameters (data s) (map Some (training_data_idx m)) ;;
  _ <- match PCA.fitted (dr s) with
       | Some _ => Ok tt
       | None => Raise AttributeError
       end ;;
  g <- lookup_all DataCollection.parameters (data s) (sim_idx m) ;;
  r <- lookup_all DataCollection.result (data s) (sim_idx m) ;;
  Ok (mkMapView tp g r).

Fixpoint maps_view (s : St) (ms : list Map) : res (list MapView) :=
  match ms with
  | [] => Ok []
  | m :: ms' =>
      v <- view_of s m ;;
      rest <- maps_view s ms' ;;
      Ok (v :: rest)
  end.

(** The [for] of lines 273-278. *)
Fixpoint sweep_loop (grid : list (list Q)) (mapping_idx : list (option nat))
  : M St (list (option nat)) :=
  match grid with
  | [] => ret mapping_idx
  | param :: grid' =>
      r <~ run_study (Some param) "sweeping" false ;;
      failed <~ lift (eq_False (fst r)) ;;
      if failed
      then lift (Raise (Failure "Simulation failed and returned False value."))
      else sweep_loop grid' (mapping_idx ++ [snd r])
  end.

(** The [try] block of lines 270-296: the index is returned inside the
    [if self.set.autosave]. *)
Definition sweep_body (g : PCA.grids) : M St (option nat) :=
  let '(grid, projected, normalized) := g in
  mapping_idx <~ sweep_loop grid [] ;;
  training <~ gets dr_training_index ;;
  let map_obj := mkMap SelfDr training projected normalized mapping_idx in
  modify (fun s => set_maps (maps s ++ [map_obj]) s) ;;;
  save <~ gets autosave ;;
  if save
  then save_data ;;;
       views <~ (fun s => lift (maps_view s (maps s)) s) ;;
       ret (Some (length views - 1)%nat)
  else ret None.

(** [subspace_sweep], lines 256-299.  [response] is what the user types at
    the prompt, asked only when [go] is false. *)
Definition subspace_sweep (distance : PCA.arg Q) (n_points : PCA.arg Z)
           (boundaries : PCA.bounds_arg) (grid : option PCA.grids) (go : bool)
           (response : string) : M St (option nat) :=
  g <~ match grid with
       | None => fun s => lift (PCA.subspace_mesh (dr s) distance n_points boundaries) s
       | Some g => ret g
       end ;;
  if negb go && negb (String.eqb response "y")
  then ret None
  else try_except (sweep_body g) (fun _ => ret None).

(** [save_data] seen as a function on states, and the conditional save
    that ends [run_study]. *)
Definition saved (s : St) : St := fst (save_data s).

Definition autosaved (v : value) (s : St) : St :=
  if autosave s && is_not_False v then saved s else s.

(** [s'] is [s] after some evaluations: samples were appended, the world
    and the ghost counters moved on, and nothing else changed. *)
Definition extends (s s' : St) : Prop :=
  maps s' = maps s /\ autosave s' = autosave s /\ fom_name s' = fom_name s
  /\ dr s' = dr s /\ dr_training_index s' = dr_training_index s
  /\ (evaluations s <= evaluations s')%nat
  /\ exists added, data s' = data s ++ added.

End Orchestrator.

End SpaceMapping.

(** ** Concrete instances used to run the definitions *)

Module Demo.

(** A float written as a fraction, [-3/10] for -0.3: a stand-in for
    Python's [repr] and [np.float64] that reads back what it wrote. *)
Definition frac_repr (q : Q) : string :=
  (DecimalString.NilZero.string_of_int (Z.to_int (Qnum q)) ++ "/" ++
   DecimalString.NilZero.string_of_uint (Pos.to_uint (Qden q)))%string.

Fixpoint split_slash (s : string) : option (string * string) :=
  match s with
  | EmptyString => None
  | String c s' =>
      if Ascii.eqb c "/"%char then Some (EmptyString, s')
      else match split_slash s' with
           | Some (a, b) => Some (String c a, b)
           | None => None
           end
  end.

Definition frac_parse (s : string) : option Q :=
  match split_slash s with
  | Some (a, b) =>
      match DecimalString.NilZero.int_of_string a,
            DecimalString.NilZero.uint_of_string b with
      | Some n, Some d =>
          match Pos.of_uint d with
          | Npos p => Some (Qmake (Z.of_int n) p)
          | N0 => None
          end
      | _, _ => None
      end
  | None => None
  end.

Definition array_str (xs : list Q) : string :=
  ("[" ++ String.concat " " (map frac_repr xs) ++ "]")%string.

(** A store with one sample whose result has two components. *)
Definition two_component_store : DataCollection.t :=
  [DataCollection.mkSample [1] "sampling" [ANum 0.5; ANum 0.5] "fom"].

(** The store of the spec's scenario. *)
Definition scenario_store : DataCollection.t :=
  [DataCollection.mkSample [1] "sampling" [ANum 0.2] "fom";
   DataCollection.mkSample [2] "sampling" [ANum 0.8] "fom";
   DataCollection.mkSample [3] "sweeping" [ANum 0.95] "fom"].

(** A trained model on one axis whose inversion doubles the coordinate. *)
Definition doubling : PCA.t :=
  PCA.mkPCA 1 1 (Some (PCA.mkFitted (map (fun x => 2 * x)) [1] [0])).

(** A trained model on two axes whose inversion is the identity. *)
Definition plane : PCA.t :=
  PCA.mkPCA 2 2 (Some (PCA.mkFitted (fun p => p) [1; 1] [0; 0])).

(** An evaluator on a world without state: the figure of merit of a point
    is its first coordinate, and a negative first coordinate makes the
    simulation fail with the sentinel.  Its refiner and the sampler of
    [run_sampling] always fail. *)
Definition fom (p : list Q) : value :=
  match p with
  | x :: _ => if Qle_bool 0 x then Atom (ANum x) else Atom AFalse
  | [] => Atom AFalse
  end.

Definition geometry (p : option (list Q)) : list Q :=
  match p with
  | Some x => x
  | None => []
  end.

Definition evaluator : External unit :=
  mkExternal
    (fun p w => (w, Ok (fom (geometry p), geometry p)))
    (fun p w => (w, Ok (match p with Some _ => true | None => false end)))
    (fun w => w)
    (fun w => (w, Raise (Failure "optimisation failed")))
    (fun w => (w, Ok []))
    (fun w => (w, ([], [], false, true))).

(** A world in which every simulation and every refinement raises. *)
Definition broken : External unit :=
  mkExternal
    (fun _ w => (w, Raise (Failure "simulation failed")))
    (fun p w => (w, Ok (match p with Some _ => true | None => false end)))
    (fun w => w)
    (fun w => (w, Raise (Failure "optimisation failed")))
    (fun w => (w, Ok []))
    (fun w => (w, ([], [], false, true))).

Definition sampler_settings : RandomLumopt.settings :=
  RandomLumopt.mkSettings RandomLumopt.NoBounds None None.

Definition sampler_start : RandomLumopt.state unit :=
  RandomLumopt.mkState 0 0 [] [] None tt.

(** A fresh orchestrator around the doubling model. *)
Definition start (autosave : bool) : SpaceMapping.t unit :=
  SpaceMapping.mkT autosave [] "fom" doubling [] 0 0 [] tt 0 0.

(** A precomputed grid of three points, the second of which fails. *)
Definition grid_with_failure : PCA.grids :=
  ([[1]; [-1]; [3]], [[0.5]; [-0.5]; [1.5]],
   [[PCA.Finite 1]; [PCA.Finite (-1)]; [PCA.Finite 3]]).

(** A precomputed grid of two points that both evaluate. *)
Definition grid_of_two : PCA.grids :=
  ([[1]; [3]], [[0.5]; [1.5]], [[PCA.Finite 1]; [PCA.Finite 3]]).


(** The mesh of the doubling model for five points between -1 and 1. *)
Definition five_point_mesh : PCA.grids :=
  Eval vm_compute in
    match PCA.subspace_mesh doubling PCA.ArgNone (PCA.ArgScalar 5%Z)
                            (PCA.BndList [-1] [1]) with
    | Ok g => g
    | Raise _ => ([], [], [])
    end.

End Demo.

From Stdlib Require Sorted FinFun DecimalNat.

(** ** Reference functions for the sample store

    What the store's operations are compared with in the properties below:
    a plain list filter for [filter_simulation], and the sample that a
    re-import builds. *)

Module StoreSpec.
Import DataCollection.

(** A bound that is a single float, or absent. *)
Definition scalar_bound (o : option Q) : bound_arg :=
  match o with
  | Some q => BoundScalar q
  | None => BoundNone
  end.

(** The float at component [k] of the result, if there is one. *)
Definition component (k : nat) (s : Sample) : option Q :=
  match nth_error (result s) k with
  | Some (ANum q) => Some q
  | _ => None
  end.

Definition strictly_within (lb ub : option Q) (q : Q) : bool :=
  match lb with Some b => Qgtb q b | None => true end
  && match ub with Some b => Qltb q b | None => true end.

(** Name, stage and component [k] strictly within the bounds. *)
Definition selected (r_name : string) (k : nat) (sel : stage_arg)
           (lb ub : option Q) (s : Sample) : bool :=
  String.eqb (result_name s) r_name
  && stage_ok sel (simulation_name s)
  && match component k s with
     | Some q => strictly_within lb ub q
     | None => false
     end.

(** The samples from index [i] on, each with its index. *)
Definition numbered (i : nat) (l : list Sample) : list (nat * Sample) :=
  combine (seq i (length l)) l.

(** The floats among the result items. *)
Definition floats (l : list atom) : list Q :=
  flat_map (fun a => match a with ANum q => [q] | _ => [] end) l.

(** What [load_from_csv] builds from the exported row of a sample whose
    result items are floats. *)
Definition reimported (s : Sample) : Sample :=
  mkSample (parameters s) (simulation_name s) [AArr (floats (result s))] (result_name s).

Section Codec.

Variable float_repr : Q -> string.
Variable float_parse : string -> option Q.
Variable repr_body : string -> string.

(** A sample the csv file can carry: [n] parameters, float results, numbers
    that are read back as written, tags that [repr] leaves alone. *)
Definition portable (n : nat) (s : Sample) : Prop :=
  parameters_size s = n
  /\ Forall (fun q => float_parse (float_repr q) = Some q) (parameters s)
  /\ Forall (fun a => exists q, a = ANum q /\ float_parse (float_repr q) = Some q) (result s)
  /\ repr_body (simulation_name s) = simulation_name s
  /\ repr_body (result_name s) = result_name s.

End Codec.

End StoreSpec.


(** ** The store with the objects of its result names

    [is_sample] compares result names with [is], the identity of the two
    [str] objects, not their characters.  Here every stored sample carries
    the identity of the object that is its [result_name], and the lookup
    is given the object asked for. *)

Module Identity.
Import DataCollection.

(** A [str] object: its characters and its identity. *)
Record str : Type := mkStr {
  chars : string;
  ident : nat
}.

(** A stored sample, with the identity of its [result_name]. *)
Definition entry : Type := (Sample * nat)%type.

Definition name_object (e : entry) : str := mkStr (result_name (fst e)) (snd e).

(** [a is b]. *)
Definition is_ (a b : str) : bool := (ident a =? ident b)%nat.

Definition t : Type := list entry.

(** The store as [DataCollection] has it, without the identities. *)
Definition contents (dc : t) : DataCollection.t := map fst dc.

Definition sample_num (dc : t) : nat := length dc.

Definition add_sample (dc : t) (params : list Q) (sim_name : string)
           (r : value) (r_name : str) : t * nat :=
  let dc' := dc ++ [(Sample_init params sim_name r (chars r_name), ident r_name)] in
  (dc', (sample_num dc' - 1)%nat).

(** The scan of [is_sample] from index [i] on. *)
Fixpoint is_sample_from (i : nat) (l : t) (params : list Q) (r_name : str)
  : bool * option nat :=
  match l with
  | [] => (false, None)
  | e :: l' =>
      if (length params =? parameters_size (fst e))%nat
         && all_eq (parameters (fst e)) params
         && is_ (name_object e) r_name
      then (true, Some i)
      else is_sample_from (S i) l' params r_name
  end.

Definition is_sample (dc : t) (params : list Q) (r_name : str) : bool * option nat :=
  is_sample_from 0 dc params r_name.

(** The test of [is_sample] on one entry: as many parameters, all equal,
    and the very object as result name. *)
Definition same_point (p : list Q) (r_name : str) (e : entry) : Prop :=
  length p = parameters_size (fst e)
  /\ Forall2 Qeq (parameters (fst e)) p
  /\ snd e = ident r_name.

(** Equal names are one object: every entry of the store whose result
    name has the characters of [r_name] holds [r_name] itself, and no
    other has its identity. *)
Definition interned (dc : t) (r_name : str) : Prop :=
  forall e, In e dc -> (result_name (fst e) = chars r_name <-> snd e = ident r_name).

End Identity.

(** ** The sampler's constructor ([RandomLumopt.__init__], lines 32-43)

    Which bounds the sampler keeps: none when a sampling function is given,
    the array of the configured bounds when there are some, and otherwise
    the Python list [[(0, 1)] * parameters_size]. *)

Module SamplerInit.

Definition init_bounds (has_sample_function : bool)
           (configured : option (list (Q * Q))) (parameters_size : nat)
  : RandomLumopt.bounds :=
  if has_sample_function then RandomLumopt.NoBounds
  else match configured with
       | Some l => RandomLumopt.BoundsArray l
       | None => RandomLumopt.BoundsList (repeat (0, 1) parameters_size)
       end.

(** The records and counters of [s'] are those of [s]. *)
Definition same_records {World : Type} (s s' : RandomLumopt.state World) : Prop :=
  RandomLumopt.iteration s' = RandomLumopt.iteration s
  /\ RandomLumopt.results_num s' = RandomLumopt.results_num s
  /\ RandomLumopt.sampling_param s' = RandomLumopt.sampling_param s
  /\ RandomLumopt.sampling_res s' = RandomLumopt.sampling_res s.

End SamplerInit.

(** ** Training the reduction from the store ([mapping.py], lines 232-249)

    [train_model] hands the filtered parameter vectors to scikit-learn; it
    is a parameter here, a function from the reduction object and the
    training data to the object afterwards and to the exception, if any. *)

Module Reduction.
Import SpaceMapping.

Section Training.

Variable World : Type.
Variable train_model : PCA.t -> list (list Q) -> PCA.t * res unit.

Definition set_training (idx : list nat) (m : PCA.t) (s : t World) : t World :=
  mkT (autosave s) (data s) (fom_name s) m (maps s) (sampler_iteration s)
      (sampler_results_num s) idx (world s) (evaluations s) (saves s).

(** [dimensionality_reduction]: the store is filtered on the stage string
    'sampling', the indices are kept in [dr_training_index] before the
    model is trained. *)
Definition dimensionality_reduction (result_name : option string)
           (result_index : DataCollection.index_arg)
           (lower_bound upper_bound : DataCollection.bound_arg)
  : M (t World) unit :=
  fun s =>
    let name := match result_name with
                | Some n => n
                | None => fom_name s
                end in
    match DataCollection.filter_simulation (data s) name result_index
            (DataCollection.StageStr "sampling") lower_bound upper_bound with
    | Raise e => (s, Throw e)
    | Ok (training_samples, _, idx) =>
        let '(m, r) := train_model (dr s) training_samples in
        lift r (set_training idx m s)
    end.

End Training.

End Reduction.

(** ** Choosing the file to save to ([mapping.py], lines 304-336)

    The part of [save_data] that decides where to write.  The file system
    is the list of the paths that are files; what is written (the pickled
    sections, or the csv export) is not modelled. *)

Module Persistence.

(** The private service variables that [save_data] reads and updates, with
    the configured suffix. *)
Record service : Type := mkService {
  suffix : string;
  current_file_name : string;
  new_name_generated : bool;
  current_folder : string
}.

(** [os.path.isfile]. *)
Definition isfile (files : list string) (path : string) : bool :=
  existsb (String.eqb path) files.

(** [str(n)]. *)
Definition str (n : nat) : string :=
  DecimalString.NilZero.string_of_uint (Nat.to_uint n).

Definition extension (csv : bool) : string := if csv then ".csv" else ".pkl".

(** [self.set.suffix + '_' + str(n)]. *)
Definition numbered_name (sv : service) (n : nat) : string :=
  (suffix sv ++ "_" ++ str n)%string.

(** The [while] of lines 314-319, entered with counter [n] and candidate
    [file_name]. *)
Fixpoint search (fuel : nat) (files : list string) (sv : service) (csv : bool)
         (n : nat) (file_name : string) : option (nat * string) :=
  match fuel with
  | O => None
  | S fuel' =>
      if isfile files (current_folder sv ++ file_name)%string
      then search fuel' files sv csv (S n)
                  (numbered_name sv (S n) ++ extension csv)%string
      else Some (n, file_name)
  end.

(** What a call decides: the service variables afterwards, the path, and
    whether the file is written. *)
Record decision : Type := mkDecision {
  service_after : service;
  target : string;
  flag_write : bool
}.

(** [save_data(file_name, override, csv)]; [response] is the answer to the
    prompt of line 329, asked only for an existing explicit file without
    [override]. *)
Definition save_data (fuel : nat) (file_name : option string) (override csv : bool)
           (response : string) (sv : service) (files : list string)
  : outcome decision :=
  match file_name with
  | None =>
      let file_name := (current_file_name sv ++ extension csv)%string in
      if isfile files (current_folder sv ++ file_name)%string
         && (negb override || negb (new_name_generated sv))
      then
        match search fuel files sv csv 0 file_name with
        | None => Diverge
        | Some (n, file_name') =>
            let sv' := mkService (suffix sv) (numbered_name sv n) true (current_folder sv) in
            Return (mkDecision sv' (current_folder sv ++ file_name')%string true)
        end
      else
        let sv' := mkService (suffix sv) (current_file_name sv) true (current_folder sv) in
        Return (mkDecision sv' (current_folder sv ++ file_name)%string true)
  | Some path =>
      if negb override && isfile files path
      then Return (mkDecision sv path (String.eqb response "y"))
      else Return (mkDecision sv path true)
  end.

(** The files after the call. *)
Definition written (d : decision) (files : list string) : list string :=
  if flag_write d then target d :: files else files.

End Persistence.

(** ** The Lumerical study ([studies/lumerical_study/])

    [LumericalFDTDStudy] with the geometry and the figure of merit given
    as functions (the ['function'] type of [LumericalGeometryObject] and of
    [LumericalFomObject]).  The simulator and the user's functions live in
    an abstract [World]; every call to the simulator interface may raise.
    The calls made are recorded, in order, in a ghost trace. *)

Module Study.

(** The calls to [LumericalFDTD] that the study makes. *)
Inductive call : Type :=
| Initialize                          (* sim.initialize(simulation_builder) *)
| Geometry (param : option (list Q))  (* sim.execute(geometry), the closure over [param] *)
| Run                                 (* sim.run(file_name) *)
| Fom                                 (* sim.execute(fom) *)
| Close.                              (* sim.close() *)

Definition is_Initialize (c : call) : bool :=
  match c with Initialize => true | _ => false end.

Definition is_Close (c : call) : bool :=
  match c with Close => true | _ => false end.

Section Session.

Variable World : Type.

Record Simulator : Type := mkSimulator {
  sim_initialize : World -> World * res unit;
  sim_execute_geometry : option (list Q) -> World -> World * res unit;
  sim_run : World -> World * res unit;
  sim_execute_fom : World -> World * res value;
  sim_close : World -> World * res unit
}.

Variable sim : Simulator.

(** The attributes of the study that its methods read and write.
    [parameters] is [geometry.parameters]; [None] stands for
    [np.array(None)], the value it has when no initial parameters were
    configured.  The closure [geometry.geometry] is always the one over
    [parameters]: the two are assigned together (lines 54-55 and 95-96 of
    [lumerical_geometry.py]). *)
Record t : Type := mkStudy {
  world : World;
  sim_initialized : bool;
  simulator_restart : bool;
  parameters : option (list Q);
  calls : list call
}.

Definition set_initialized (b : bool) (s : t) : t :=
  mkStudy (world s) b (simulator_restart s) (parameters s) (calls s).

Definition set_parameters (p : option (list Q)) (s : t) : t :=
  mkStudy (world s) (sim_initialized s) (simulator_restart s) p (calls s).

(** One call to the simulator interface. *)
Definition invoke {A : Type} (c : call) (f : World -> World * res A) : M t A :=
  fun s =>
    let '(w, r) := f (world s) in
    (mkStudy w (sim_initialized s) (simulator_restart s) (parameters s) (calls s ++ [c]),
     match r with
     | Ok a => Return a
     | Raise e => Throw e
     end).

(** [LumericalGeometryObject.update(param, update, push_change)] for a
    function geometry.  [param_flag] is false only for [np.array(None)]. *)
Definition geometry_update (param : option (list Q)) (push_change : bool) : M t unit :=
  match param with
  | Some p => modify (set_parameters (Some p))
  | None => ret tt
  end ;;;
  if push_change
  then p <~ gets parameters ;; invoke (Geometry p) (sim_execute_geometry sim p)
  else ret tt.

(** [LumericalGeometryObject.initialize()]. *)
Definition geometry_initialize : M t unit :=
  p <~ gets parameters ;; geometry_update p true.

(** [_initialize_simulation()]; [fom.initialize()] does nothing for a
    function. *)
Definition _initialize_simulation : M t unit :=
  b <~ gets sim_initialized ;;
  if b then ret tt
  else
    invoke Initialize (sim_initialize sim) ;;;
    geometry_initialize ;;;
    modify (set_initialized true).

(** [close_simulation()]. *)
Definition close_simulation : M t unit :=
  b <~ gets sim_initialized ;;
  if b
  then invoke Close (sim_close sim) ;;; modify (set_initialized false)
  else ret tt.

(** [run(param)]. *)
Definition run (param : option (list Q)) : M t (value * option (list Q)) :=
  _initialize_simulation ;;;
  match param with
  | Some p => geometry_update (Some p) true
  | None => ret tt
  end ;;;
  invoke Run (sim_run sim) ;;;
  res <~ invoke Fom (sim_execute_fom sim) ;;
  restart <~ gets simulator_restart ;;
  (if restart then close_simulation else ret tt) ;;;
  used <~ gets parameters ;;
  ret (res, used).

(** [update_geometry(param)]. *)
Definition update_geometry (param : option (list Q)) : M t bool :=
  match param with
  | Some p => geometry_update (Some p) false ;;; ret true
  | None => ret false
  end.

(** A series of runs, one per entry of [params], stopping at the first
    that raises. *)
Fixpoint runs (params : list (option (list Q))) : M t (list (value * option (list Q))) :=
  match params with
  | [] => ret []
  | p :: rest =>
      r <~ run p ;;
      rs <~ runs rest ;;
      ret (r :: rs)
  end.

End Session.

End Study.

(** ** More concrete instances *)

Module Samples.

(** The mesh of the plane model for two and three points per axis. *)
Definition plane_mesh : PCA.grids :=
  Eval vm_compute in
    match PCA.subspace_mesh Demo.plane PCA.ArgNone (PCA.ArgList [2; 3]%Z)
                            (PCA.BndList [-1; -1] [1; 1]) with
    | Ok g => g
    | Raise _ => ([], [], [])
    end.

(** A sampler whose every run is accepted: one result per run. *)
Definition reliable : External unit :=
  mkExternal
    (fun p w => (w, Ok (Demo.fom (Demo.geometry p), Demo.geometry p)))
    (fun p w => (w, Ok (match p with Some _ => true | None => false end)))
    (fun w => w)
    (fun w => (w, Ok (Atom (ANum 1), [1])))
    (fun w => (w, Ok [1]))
    (fun w => (w, ([Atom (ANum 1)], [[1]], true, false))).


(** An orchestrator whose reduction was never trained. *)
Definition untrained_start : SpaceMapping.t unit :=
  SpaceMapping.mkT true [] "fom" (PCA.mkPCA 1 1 None) [] 0 0 [] tt 0 0.

(** An orchestrator holding the store of the scenario. *)
Definition sampled : SpaceMapping.t unit :=
  SpaceMapping.mkT false Demo.scenario_store "fom" (PCA.mkPCA 1 1 None) [] 2 2 [] tt 3 0.

(** A stand-in for the fit of scikit-learn: the identity on one axis. *)
Definition train (m : PCA.t) (training_data : list (list Q)) : PCA.t * res unit :=
  (PCA.mkPCA 1 (PCA.init_n_components m)
             (Some (PCA.mkFitted (fun p => p) [1] [0])), Ok tt).

(** A grid of three points whose second evaluates to zero. *)
Definition grid_with_zero : PCA.grids :=
  ([[1]; [0]; [3]], [[0.5]; [0]; [1.5]],
   [[PCA.Finite 1]; [PCA.Finite 0]; [PCA.Finite 3]]).

(** A simulator that never fails: its world counts the simulations run,
    and the figure of merit is that count. *)
Definition bench : Study.Simulator nat :=
  Study.mkSimulator
    (fun w => (w, Ok tt))
    (fun _ w => (w, Ok tt))
    (fun w => (S w, Ok tt))
    (fun w => (w, Ok (Atom (ANum (inject_Z (Z.of_nat w))))))
    (fun w => (w, Ok tt)).

(** A study on it, with parameters [[1]] and no session open. *)
Definition bench_study (restart : bool) : Study.t nat :=
  Study.mkStudy 0%nat false restart (Some [1]) [].

(** A store that holds the point [[1]] twice under the characters 'fom':
    first with the name object 3, then with the name object 7 (as after an
    import, or after unpickling the store and the study apart). *)
Definition two_objects : Identity.t :=
  [(DataCollection.mkSample [1] "sampling" [ANum 0.2] "fom", 3%nat);
   (DataCollection.mkSample [1] "sampling" [ANum 0.2] "fom", 7%nat);
   (DataCollection.mkSample [2] "sampling" [ANum 0.8] "fom", 7%nat)].

End Samples.

(** * Properties *)

(** ** The sample store *)

Module DataCollectionFacts.
Import DataCollection.

Lemma filter_from_component_list (r_name : string) (l : list Z) (sel : stage_arg)
      (lb ub : bound_arg) (dc : t) :
  forall (i : nat) (acc : filtered),
    existsb (fun s => String.eqb (result_name s) r_name
                      && stage_ok sel (simulation_name s)) dc = true ->
    filter_from r_name (IdxList l) sel lb ub i dc acc = Raise TypeError.
Proof.
  induction dc as [|s dc IH]; intros i acc H; simpl in H.
  - discriminate.
  - simpl. unfold filter_step.
    destruct (String.eqb (result_name s) r_name && stage_ok sel (simulation_name s)).
    + reflexivity.
    + simpl in *. apply IH. exact H.
Qed.

(** C2. Selecting several result components: as soon as one sample has the
    requested result name and an allowed stage, [filter_simulation] raises
    TypeError instead of returning the samples whose components lie within
    their bounds. *)
Theorem filter_simulation_component_list_raises
        (dc : t) (r_name : string) (l : list Z) (sel : stage_arg) (lb ub : bound_arg) :
  existsb (fun s => String.eqb (result_name s) r_name
                    && stage_ok sel (simulation_name s)) dc = true ->
  filter_simulation dc r_name (IdxList l) sel lb ub = Raise TypeError.
Proof.
  intro H. unfold filter_simulation. now apply filter_from_component_list.
Qed.

Lemma filter_simulation_component_list_raises_witness :
  filter_simulation Demo.two_component_store "fom" (IdxList [0; 1]%Z)
                    (StageList ["sampling"])
                    (BoundList [Some 0.1; None]) (BoundList [None; Some 0.9])
  = Raise TypeError.
Proof.
  apply filter_simulation_component_list_raises. reflexivity.
Defined.

(** The spec's scenario for one component: only index 1 passes. *)
Example filter_simulation_scenario :
  filter_simulation Demo.scenario_store "fom" (IdxInt 0) (StageList ["sampling"])
                    (BoundList [Some 0.5]) BoundNone
  = Ok ([[2]], [[ANum 0.8]], [1%nat]).
Proof. reflexivity. Qed.

Section CsvFacts.

Variable float_repr : Q -> string.
Variable float_parse : string -> option Q.
Variable array_str : list Q -> string.
Variable repr_body : string -> string.

Local Abbreviation load := (load_from_csv float_parse repr_body).
Local Abbreviation export := (export_to_csv float_repr array_str).

Lemma load_row_appends (dc dc' : t) (row : list string) (n : nat) :
  load_row float_parse repr_body dc row n = Ok dc' ->
  exists s, dc' = dc ++ [s] /\ result_size s = 1%nat.
Proof.
  unfold load_row.
  destruct (float64 float_parse (firstn n (skipn 2 row))) as [ps|e]; simpl; [|discriminate].
  destruct (float64 float_parse (skipn (n + 2) row)) as [rs|e]; simpl; [|discriminate].
  intro H. injection H as <-. eexists. split; reflexivity.
Qed.

Lemma load_from_csv_result_size (rows : list (list string)) (n : nat) :
  forall dc : t,
    Forall (fun s => result_size s = 1%nat) dc ->
    Forall (fun s => result_size s = 1%nat) (fst (load dc rows n)).
Proof.
  induction rows as [|row rows IH]; intros dc Hdc; simpl.
  - exact Hdc.
  - destruct (load_row float_parse repr_body dc row n) as [dc'|e] eqn:E; simpl.
    + apply IH. destruct (load_row_appends _ _ _ E) as (s & -> & Hs).
      apply Forall_app. split; [exact Hdc|]. constructor; [exact Hs|constructor].
    + exact Hdc.
Qed.

End CsvFacts.

(** C7. Export followed by import does not give the result sequence back:
    however floats are printed and read, every imported sample has a result
    sequence of length one (the result columns arrive as one array), so a
    sample exported with two result values comes back with one; shown on
    the two-component store, whose sample returns with the single result
    item [array([0.5, 0.5])] (its tags have no character that [repr]
    escapes, so [str([s])[2:-2]] is [s]). *)
Theorem csv_round_trip_wraps_result :
  (forall float_repr float_parse array_str repr_body (dc : t) (n : nat),
      Forall (fun s => result_size s = 1%nat)
             (fst (load_from_csv float_parse repr_body []
                     (export_to_csv float_repr array_str dc) n)))
  /\ load_from_csv Demo.frac_parse (fun s => s) []
       (export_to_csv Demo.frac_repr Demo.array_str Demo.two_component_store) 1
     = ([mkSample [1] "sampling" [AArr [0.5; 0.5]] "fom"], None)
  /\ map result_size Demo.two_component_store = [2%nat].
Proof.
  split; [|split].
  - intros. apply load_from_csv_result_size. constructor.
  - vm_compute. reflexivity.
  - reflexivity.
Qed.

End DataCollectionFacts.

(** ** The mesh of the reduced space *)

(** ** Binary64 arithmetic on examples *)

Module Float64Facts.
Import Float64.

(** The double of the literal [0.1]. *)
Example tenth : to_Q (of_Q 0.1) = Some (3602879701896397 # 36028797018963968).
Proof. vm_compute. reflexivity. Qed.

(** [0.1 + 0.2] is [0.30000000000000004], and [1.1 / 0.1] is [11.0]
    although the quotient of the two doubles exceeds 11. *)
Example rounded_sum :
  to_Q (add (of_Q 0.1) (of_Q 0.2)) = Some (1351079888211149 # 4503599627370496).
Proof. vm_compute. reflexivity. Qed.

Example rounded_quotient :
  div (of_Q 1.1) (of_Q 0.1) = of_Z 11
  /\ to_Q (of_Q 1.1) = Some (2476979795053773 # 2251799813685248)
  /\ 11 < (2476979795053773 # 2251799813685248) / (3602879701896397 # 36028797018963968).
Proof. split; [vm_compute; reflexivity|]. split; [vm_compute; reflexivity|]. reflexivity. Qed.

(** Division by zero does not raise; [int] of the result does. *)
Example division_by_zero :
  to_int (div (of_Z 1) zero) = Raise OverflowError
  /\ to_int (div zero zero) = Raise ValueError.
Proof. vm_compute. split; reflexivity. Qed.

(** [np.ceil] and [int]. *)
Example ceil_and_int :
  to_int (ceil (of_Q 10.5)) = Ok 11%Z
  /\ to_int (ceil (of_Q (-10.5))) = Ok (-10)%Z
  /\ to_int (of_Q (-2.7)) = Ok (-2)%Z
  /\ ceil (of_Z 11) = of_Z 11.
Proof. vm_compute. repeat split; reflexivity. Qed.

(** Numbers beyond the largest double are infinite. *)
Example overflow : to_Q (mul (of_Q 1e200) (of_Q 1e200)) = None.
Proof. vm_compute. reflexivity. Qed.

End Float64Facts.

Module PCAFacts.
Import PCA.

(** Case analysis on the next step of a computation in [res]. *)
Ltac step_res H x E :=
  match type of H with
  | bind ?m _ = _ =>
      destruct m as [x|] eqn:E; simpl in H; [|discriminate H]
  end.

Lemma get_Some {A : Type} (l : list A) (i : nat) (x : A) :
  get l i = Ok x -> nth_error l i = Some x.
Proof.
  unfold get. destruct (nth_error l i); intro H; [injection H as ->; reflexivity|discriminate].
Qed.

Lemma set_last_length {A : Type} (y : list A) (stop : A) :
  length (set_last y stop) = length y.
Proof.
  destruct y as [|a y]; [reflexivity|].
  unfold set_last. rewrite length_app.
  assert (H : length (removelast (a :: y)) = length y).
  { generalize a. induction y as [|b y IH]; intro c; [reflexivity|].
    change (removelast (c :: b :: y)) with (c :: removelast (b :: y)).
    cbn [length]. now rewrite IH. }
  rewrite H. cbn [length]. lia.
Qed.

Lemma linspace_length (lo hi : Float64.float) (n : Z) (s : list Float64.float) :
  linspace lo hi n = Ok s -> Z.of_nat (length s) = n.
Proof.
  unfold linspace.
  destruct (n <? 0)%Z eqn:Hneg; [discriminate|].
  apply Z.ltb_ge in Hneg. intro H. injection H as <-.
  assert (Hlen : forall y : list Float64.float,
             length y = Z.to_nat n ->
             length (if (1 <? n)%Z then set_last y hi else y) = Z.to_nat n).
  { intros y Hy. destruct (1 <? n)%Z; [rewrite set_last_length|]; exact Hy. }
  rewrite Hlen; [lia|].
  rewrite length_map.
  destruct (0 <? n - 1)%Z; [destruct (Float64.eqb _ _)|];
    rewrite !length_map, length_seq; reflexivity.
Qed.

(** What one turn of the loop has computed when it returns. *)
Lemma mesh_axis_inv (self : t) (m : mode) (lower upper : list Float64.float) (i : nat)
      (ax : axis) :
  mesh_axis self m lower upper i = Ok ax ->
  exists lo hi a b,
    nth_error lower i = Some lo
    /\ nth_error upper i = Some hi
    /\ invert_model self (axis_point (n_components self) i lo) = Ok a
    /\ invert_model self (axis_point (n_components self) i hi) = Ok b
    /\ ab_dist ax = manhattan a b
    /\ linspace lo hi (count ax) = Ok (samp ax)
    /\ normalized ax
       = match samp ax with
         | s0 :: s1 :: _ =>
             map (fun x => Float64.mul (Float64.div x (Float64.sub s1 s0)) (step ax))
                 (samp ax)
         | _ => samp ax
         end
    /\ match m with
       | FindNPoints dist_vector =>
           exists d, nth_error dist_vector i = Some d
                     /\ count_for (ab_dist ax) (Float64.of_Q d) = Ok (count ax)
                     /\ step ax = Float64.of_Q d
       | FindDist n_points_vector =>
           exists k, nth_error n_points_vector i = Some k
                     /\ count ax = k
                     /\ step ax = Float64.div (ab_dist ax) (Float64.of_Z (k - 1))
       end.
Proof.
  unfold mesh_axis. intro H.
  step_res H lo Elo. apply get_Some in Elo.
  step_res H a Ea.
  step_res H hi Ehi. apply get_Some in Ehi.
  step_res H b Eb.
  set (D := manhattan a b) in H.
  step_res H nd End. destruct nd as [k d]. step_res H s Es.
  assert (Hm : match m with
               | FindNPoints dist_vector =>
                   exists d', nth_error dist_vector i = Some d'
                              /\ count_for D (Float64.of_Q d') = Ok k
                              /\ d = Float64.of_Q d'
               | FindDist n_points_vector =>
                   exists k', nth_error n_points_vector i = Some k'
                              /\ k = k'
                              /\ d = Float64.div D (Float64.of_Z (k' - 1))
               end).
  { destruct m as [dv|nv].
    - step_res End d' Ed. apply get_Some in Ed. step_res End k' Ek.
      injection End as <- <-. exists d'. auto.
    - step_res End k' Ek. apply get_Some in Ek. injection End as <- <-.
      exists k'. auto. }
  exists lo, hi, a, b.
  destruct s as [|s0 [|s1 s]].
  - cbn in H. injection H as <-. cbn [ab_dist count step samp normalized].
    repeat (split; [assumption || reflexivity|]). exact Hm.
  - cbn in H. discriminate H.
  - cbn in H. injection H as <-. cbn [ab_dist count step samp normalized].
    repeat (split; [assumption || reflexivity|]). exact Hm.
Qed.

Lemma mesh_axes_each (self : t) (m : mode) (lower upper : list Float64.float) :
  forall (range : list nat) (axes : list axis),
    mesh_axes self m lower upper range = Ok axes ->
    Forall2 (fun i ax => mesh_axis self m lower upper i = Ok ax) range axes.
Proof.
  induction range as [|i range IH]; intros axes H; simpl in H.
  - injection H as <-. constructor.
  - step_res H a Ea. step_res H rest Er. injection H as <-.
    constructor; [exact Ea|now apply IH].
Qed.

Lemma mesh_axes_nth (self : t) (m : mode) (lower upper : list Float64.float) :
  forall (len start : nat) (axes : list axis),
    mesh_axes self m lower upper (seq start len) = Ok axes ->
    length axes = len
    /\ forall i ax, nth_error axes i = Some ax ->
                    mesh_axis self m lower upper (start + i) = Ok ax.
Proof.
  induction len as [|len IH]; intros start axes H; simpl in H.
  - injection H as <-. split; [reflexivity|]. intros [|i] ax Hn; discriminate Hn.
  - step_res H a Ea. step_res H rest Er. injection H as <-.
    destruct (IH _ _ Er) as [Hlen Hnth]. split; [simpl; now rewrite Hlen|].
    intros [|i] ax Hn; simpl in Hn.
    + injection Hn as <-. now rewrite Nat.add_0_r.
    + replace (start + S i)%nat with (S start + i)%nat by lia. now apply Hnth.
Qed.

Lemma finite_grid_length :
  forall (g : list (list Float64.float)) (pts : list (list Q)),
    finite_grid g = Some pts -> length pts = length g.
Proof.
  induction g as [|p g IH]; intros pts H; simpl in H.
  - injection H as <-. reflexivity.
  - destruct (finite_point p); [|discriminate].
    destruct (finite_grid g) as [qs|]; [|discriminate].
    injection H as <-. simpl. now rewrite (IH qs).
Qed.

Lemma product_length {A : Type} :
  forall lists : list (list A),
    Z.of_nat (length (product lists))
    = fold_right Z.mul 1%Z (map (fun l => Z.of_nat (length l)) lists).
Proof.
  induction lists as [|l lists IH]; [reflexivity|].
  cbn [product map fold_right]. rewrite <- IH. clear IH.
  induction l as [|x l IHl]; [reflexivity|].
  cbn [flat_map length]. rewrite length_app, length_map. lia.
Qed.

(** The axes behind a mesh that was returned. *)
Lemma subspace_mesh_axes (self : t) (distance : arg Q) (n_points : arg Z)
      (boundaries : bounds_arg) (g : grids) :
  subspace_mesh self distance n_points boundaries = Ok g ->
  exists m lower upper axes f,
    mesh_mode self distance n_points = Ok m
    /\ mesh_bounds self boundaries = Ok (lower, upper)
    /\ mesh_axes self m lower upper (seq 0 (n_components self)) = Ok axes
    /\ fitted self = Some f
    /\ finite_grid (product (map samp axes)) = Some (snd (fst g))
    /\ fst (fst g) = map (invert f) (snd (fst g))
    /\ snd (fst g) <> []
    /\ snd g = map (map to_xq) (product (map normalized axes)).
Proof.
  unfold subspace_mesh. intro H.
  step_res H m Em. step_res H lu Elu. step_res H axes Eaxes.
  step_res H inv Einv. injection H as <-. destruct lu as [lower upper].
  unfold invert_grid in Einv.
  destruct (fitted self) as [f|]; [|discriminate].
  destruct (product (map samp axes)) as [|p ps] eqn:Ep; [discriminate|].
  destruct (finite_grid (p :: ps)) as [pts|] eqn:Epts; [|discriminate].
  injection Einv as <-. cbn [fst snd].
  exists m, lower, upper, axes, f.
  do 4 (split; [assumption || reflexivity|]).
  split; [rewrite Ep; exact Epts|]. split; [reflexivity|].
  split; [|reflexivity].
  intros ->. apply finite_grid_length in Epts. discriminate Epts.
Qed.



(** The quotient is the rounded one: over an extent of [2 * 0.55] a step
    of [0.1] gives twelve samples, the quotient of the two doubles being
    the double 11; in point-count mode five samples over an extent of 4
    are one apart. *)
Example mesh_axis_sizing_by_distance :
  option_map (fun ax => (Float64.to_Q (ab_dist ax), count ax))
             (match mesh_axis Demo.doubling (FindNPoints [0.1])
                              [Float64.of_Q 0] [Float64.of_Q 0.55] 0 with
              | Ok ax => Some ax | Raise _ => None end)
  = Some (Some (2476979795053773 # 2251799813685248), 12%Z).
Proof. vm_compute. reflexivity. Qed.

Example mesh_axis_sizing_by_points :
  option_map (fun ax => Float64.to_Q (step ax))
             (match mesh_axis Demo.doubling (FindDist [5%Z])
                              [Float64.of_Q (-1)] [Float64.of_Q 1] 0 with
              | Ok ax => Some ax | Raise _ => None end)
  = Some (Some 1).
Proof. vm_compute. reflexivity. Qed.

(** In both modes a positive step over a positive distance gives a mesh. *)
Example mesh_by_distance :
  option_map (fun g => length (snd (fst g)))
             (match subspace_mesh Demo.doubling (ArgScalar 0.5) ArgNone (BndList [-1] [1]) with
              | Ok g => Some g | Raise _ => None end) = Some 9%nat.
Proof. vm_compute. reflexivity. Qed.

Example mesh_by_points_list :
  option_map (fun g => length (snd (fst g)))
             (match subspace_mesh Demo.plane ArgNone (ArgList [2; 3]%Z)
                                  (BndList [-1; -1] [1; 1]) with
              | Ok g => Some g | Raise _ => None end) = Some 6%nat.
Proof. vm_compute. reflexivity. Qed.

(** Five samples between -1 and 1 under the doubling model: the extent is
    4, the step 1, and the normalized axis runs from -2 to 2. *)
Example mesh_by_points_normalized :
  subspace_mesh Demo.doubling ArgNone (ArgScalar 5%Z) (BndList [-1] [1])
  = Ok Demo.five_point_mesh
  /\ snd Demo.five_point_mesh
     = [[Finite (-2)]; [Finite (-1)]; [Finite 0]; [Finite 1]; [Finite 2]].
Proof. vm_compute. split; reflexivity. Qed.

(** A point count of zero leaves nothing to invert. *)
Example mesh_by_zero_points :
  subspace_mesh Demo.doubling ArgNone (ArgScalar 0%Z) (BndList [-1] [1]) = Raise ValueError.
Proof. vm_compute. reflexivity. Qed.

Lemma mesh_axis_one_point (self : t) (nv : list Z) (lower upper : list Float64.float)
      (i : nat) :
  nth_error nv i = Some 1%Z ->
  exists e, mesh_axis self (FindDist nv) lower upper i = Raise e.
Proof.
  intro Hnv. unfold mesh_axis.
  destruct (get lower i) as [lo|e]; cbn [bind]; [|eauto].
  destruct (invert_model self _) as [a|e]; cbn [bind]; [|eauto].
  destruct (get upper i) as [hi|e]; cbn [bind]; [|eauto].
  destruct (invert_model self _) as [b|e]; cbn [bind]; [|eauto].
  unfold get at 1. rewrite Hnv. cbn [bind].
  destruct (linspace lo hi 1) as [s|e] eqn:Es; cbn [bind]; [|eauto].
  apply linspace_length in Es.
  destruct s as [|s0 [|s1 s]]; cbn [length] in Es; try lia.
  cbn. eauto.
Qed.

Lemma mesh_axes_raises (self : t) (m : mode) (lower upper : list Float64.float) (i : nat) :
  (exists e, mesh_axis self m lower upper i = Raise e) ->
  forall range, In i range -> exists e, mesh_axes self m lower upper range = Raise e.
Proof.
  intros [e He] range. induction range as [|j range IH]; intro Hin; [destruct Hin|].
  simpl. destruct (Nat.eq_dec j i) as [->|Hne].
  - rewrite He. simpl. eauto.
  - destruct Hin as [->|Hin]; [congruence|].
    destruct (mesh_axis self m lower upper j); simpl; [|eauto].
    destruct (IH Hin) as [e' ->]. simpl. eauto.
Qed.

(** C8. A point count of one on an axis: [subspace_mesh] does not return.
    The guard before [samp[1]] is [len(samp) > 0], so the one-sample branch
    is only taken by an empty axis and a single sample ends in an
    exception. *)
Theorem subspace_mesh_one_point_raises (self : t) (distance : arg Q) (n_points : arg Z)
        (boundaries : bounds_arg) (nv : list Z) (i : nat) :
  mesh_mode self distance n_points = Ok (FindDist nv) ->
  (i < n_components self)%nat ->
  nth_error nv i = Some 1%Z ->
  exists e, subspace_mesh self distance n_points boundaries = Raise e.
Proof.
  intros Hm Hi Hnv. unfold subspace_mesh. rewrite Hm. simpl.
  destruct (mesh_bounds self boundaries) as [[lo hi]|e]; simpl; [|eauto].
  destruct (@mesh_axes_raises self (FindDist nv) lo hi i
              (mesh_axis_one_point self nv lo hi i Hnv)
              (seq 0 (n_components self))) as [e ->].
  - apply in_seq. lia.
  - simpl. eauto.
Qed.

Lemma subspace_mesh_one_point_raises_witness :
  subspace_mesh Demo.doubling ArgNone (ArgScalar 1%Z) (BndList [-1] [1]) = Raise IndexError
  /\ exists e, subspace_mesh Demo.doubling ArgNone (ArgScalar 1%Z) (BndList [-1] [1]) = Raise e.
Proof.
  split; [vm_compute; reflexivity|].
  apply (@subspace_mesh_one_point_raises Demo.doubling ArgNone (ArgScalar 1%Z)
           (BndList [-1] [1]) [1%Z] 0%nat); [reflexivity|simpl; lia|reflexivity].
Defined.

(** C9. A vector argument given as an ndarray with two or more entries:
    the test [n_points == None] (and [distance == None]) is elementwise on
    an array and has no truth value, so [subspace_mesh] raises ValueError
    before it reaches the branch written for arrays. *)
Theorem subspace_mesh_array_argument_raises (self : t) (boundaries : bounds_arg) :
  (forall (x y : Z) (l : list Z) (distance : arg Q),
      subspace_mesh self distance (ArgArray (x :: y :: l)) boundaries = Raise ValueError)
  /\ (forall (x y : Q) (l : list Q),
      subspace_mesh self (ArgArray (x :: y :: l)) ArgNone boundaries = Raise ValueError).
Proof.
  split; intros; reflexivity.
Qed.

(** The scalar forms and the Python-list form do reach the mesh. *)
Example mesh_by_points_scalar :
  option_map (fun g => length (snd (fst g)))
             (match subspace_mesh Demo.plane ArgNone (ArgScalar 3%Z) BndNone with
              | Ok g => Some g | Raise _ => None end) = Some 9%nat.
Proof. vm_compute. reflexivity. Qed.

End PCAFacts.

(** ** The sampler's loop *)

Module RandomLumoptFacts.
Import RandomLumopt.

Section AlwaysRaising.

Variable World : Type.
Variable ext : External World.
Variable set : settings.

Hypothesis run_raises :
  forall p w, exists w' e, study_run ext p w = (w', Raise e).
Hypothesis refine_raises :
  forall w, exists w' e, inverse_design_run ext w = (w', Raise e).

Lemma attempt_raises (fuel : nat) (s : state World) :
  exists s' e, attempt ext set fuel s = (s', Throw e)
               /\ iteration s' = iteration s /\ results_num s' = results_num s.
Proof.
  unfold attempt, bindM, gets, call. simpl.
  destruct (global_result_constraint set) as [g|].
  - destruct (run_raises (new_param s) (world s)) as (w' & e & ->). simpl.
    do 2 eexists. split; [reflexivity|split; reflexivity].
  - destruct (study_update_geometry ext (new_param s) (world s)) as [w' [b|e]]; simpl.
    + destruct (refine_raises w') as (w'' & e & ->). simpl.
      do 2 eexists. split; [reflexivity|split; reflexivity].
    + do 2 eexists. split; [reflexivity|split; reflexivity].
Qed.

Lemma loop_exhausts_budget (max_results : nat) (max_iter : option nat) :
  forall (fuel error_flag turns : nat) (s : state World),
    (error_flag <= 6)%nat ->
    (6 - error_flag < fuel)%nat ->
    below (iteration s) max_iter = true ->
    (results_num s < max_results)%nat ->
    exists s', loop ext set fuel max_results max_iter error_flag turns s
               = (s', Return (turns + (6 - error_flag))%nat)
               /\ iteration s' = iteration s /\ results_num s' = results_num s.
Proof.
  induction fuel as [|fuel IH]; intros error_flag turns s Hle Hfuel Hit Hnum; [lia|].
  cbn [loop]. rewrite Hit. apply Nat.ltb_lt in Hnum as Hnum'. rewrite Hnum'.
  cbn [andb].
  destruct (error_flag <? 6)%nat eqn:Hflag.
  - apply Nat.ltb_lt in Hflag.
    destruct (attempt_raises fuel s) as (s1 & e & -> & Hit1 & Hnum1).
    destruct (IH (S error_flag) (S turns) s1) as (s2 & -> & Hit2 & Hnum2);
      try lia; try congruence.
    exists s2. split; [|split; congruence].
    replace (turns + (6 - error_flag))%nat with (S turns + (6 - S error_flag))%nat by lia.
    reflexivity.
  - apply Nat.ltb_ge in Hflag. exists s. split; [|split; reflexivity].
    replace (turns + (6 - error_flag))%nat with turns by lia.
    reflexivity.
Qed.

(** The sampler's own loop keeps the budget: with an evaluator and a refiner
    that always raise, [run] returns after exactly six turns and reports
    the accepted count it started with, below [max_results]. *)
Lemma run_error_budget (fuel max_results : nat) (max_iter : option nat)
      (s : state World) :
  (6 < fuel)%nat ->
  below (iteration s) max_iter = true ->
  (results_num s < max_results)%nat ->
  exists s', run ext set fuel max_results false max_iter s
             = (s', Return (sampling_res s', sampling_param s', results_num s, 6%nat)).
Proof.
  intros Hfuel Hit Hnum. unfold run, bindM, ret, modify, gets, call. simpl.
  match goal with
  | |- context [loop ext set fuel max_results max_iter 0 0 ?s0] =>
      destruct (@loop_exhausts_budget max_results max_iter fuel 0 0 s0)
        as (s1 & -> & Hit1 & Hnum1); simpl; try lia; try assumption
  end.
  simpl in Hnum1. rewrite <- Hnum1.
  exists (mkState (iteration s1) (results_num s1) (sampling_param s1) (sampling_res s1)
                  (new_param s1) (study_close_simulation ext (world s1))).
  reflexivity.
Qed.

End AlwaysRaising.

Example run_error_budget_broken :
  snd (run Demo.broken Demo.sampler_settings 10 5 true None Demo.sampler_start)
  = Return ([], [], 0%nat, 6%nat).
Proof. reflexivity. Qed.

End RandomLumoptFacts.

(** ** The orchestrator *)

Module SpaceMappingFacts.
Import SpaceMapping.

Section StoreLookup.

Import DataCollection.

Lemma is_sample_from_found (p : list Q) (r_name : string) :
  forall (l : list Sample) (k : nat) (o : option nat),
    is_sample_from k l p r_name = (true, o) ->
    exists j smp, o = Some (k + j)%nat /\ nth_error l j = Some smp.
Proof.
  induction l as [|x l IH]; intros k o H; simpl in H; [discriminate|].
  destruct ((length p =? parameters_size x)%nat && all_eq (parameters x) p
            && String.eqb (result_name x) r_name).
  - injection H as <-. exists O, x. rewrite Nat.add_0_r. split; reflexivity.
  - destruct (IH _ _ H) as (j & smp & -> & Hj).
    exists (S j), smp. split; [f_equal; lia|exact Hj].
Qed.

Lemma is_sample_from_missing (p : list Q) (r_name : string) :
  forall (l : list Sample) (k : nat),
    fst (is_sample_from k l p r_name) = false ->
    is_sample_from k l p r_name = (false, None).
Proof.
  induction l as [|x l IH]; intros k H; simpl in *; [reflexivity|].
  destruct ((length p =? parameters_size x)%nat && all_eq (parameters x) p
            && String.eqb (result_name x) r_name).
  - discriminate.
  - now apply IH.
Qed.


End StoreLookup.

Section Facts.

Variable World : Type.
Variable ext : External World.

Local Abbreviation St := (t World).

(** *** run_study, case by case *)

Lemma run_study_stored (s : St) (p : list Q) (name : string) (i : nat)
      (smp : DataCollection.Sample) :
  DataCollection.is_sample (data s) p (fom_name s) = (true, Some i) ->
  nth_error (data s) i = Some smp ->
  run_study ext (Some p) name false s
  = (if autosave s then saved s else s,
     Return (PyList (DataCollection.result smp), Some i)).
Proof.
  intros Hfound Hnth.
  unfold run_study, bindM, gets, sample_at, lift, PCA.get, ret. simpl.
  rewrite Hfound. simpl. rewrite Hnth. simpl.
  destruct (autosave s); reflexivity.
Qed.

Lemma run_study_evaluates (s : St) (param : option (list Q)) (name : string)
      (force_run : bool) (w : World) (v : value) (used : list Q) :
  negb (fst (match param with
             | None => (false, Some O)
             | Some p => DataCollection.is_sample (data s) p (fom_name s)
             end)) || force_run = true ->
  study_run ext param (world s) = (w, Ok (v, used)) ->
  run_study ext param name force_run s
  = let s1 := count_evaluation (set_world w s) in
    match ne_False v with
    | Ok true =>
        (autosaved v (set_data (data s ++ [DataCollection.Sample_init used name v (fom_name s)]) s1),
         Return (v, Some (length (data s))))
    | Ok false =>
        (autosaved v s1,
         Return (v, snd (match param with
                         | None => (false, Some O)
                         | Some p => DataCollection.is_sample (data s) p (fom_name s)
                         end)))
    | Raise e => (s1, Throw e)
    end.
Proof.
  intros Hrun Heval.
  unfold run_study, bindM, gets, evaluate, add_sample, lift, ret. simpl.
  destruct (match param with
            | None => (false, Some O)
            | Some p => DataCollection.is_sample (data s) p (fom_name s)
            end) as [already idx]. simpl in Hrun. rewrite Hrun.
  rewrite Heval. simpl.
  destruct (ne_False v) as [[|]|e]; simpl; try reflexivity.
  - unfold DataCollection.sample_num. rewrite length_app. simpl.
    replace (length (data s) + 1 - 1)%nat with (length (data s)) by lia.
    unfold autosaved. simpl.
    destruct (autosave s && is_not_False v); reflexivity.
  - unfold autosaved. simpl.
    destruct (autosave s && is_not_False v); reflexivity.
Qed.

Lemma run_study_raises (s : St) (param : option (list Q)) (name : string)
      (force_run : bool) (w : World) (e : exn) :
  negb (fst (match param with
             | None => (false, Some O)
             | Some p => DataCollection.is_sample (data s) p (fom_name s)
             end)) || force_run = true ->
  study_run ext param (world s) = (w, Raise e) ->
  run_study ext param name force_run s = (count_evaluation (set_world w s), Throw e).
Proof.
  intros Hrun Heval.
  unfold run_study, bindM, gets, evaluate, lift. simpl.
  destruct (match param with
            | None => (false, Some O)
            | Some p => DataCollection.is_sample (data s) p (fom_name s)
            end) as [already idx]. simpl in Hrun. rewrite Hrun.
  rewrite Heval. reflexivity.
Qed.

(** The six equations and bounds of [extends], leaving the appended samples. *)
Ltac frame :=
  unfold extends, autosaved, saved; simpl;
  do 6 (split; [first [reflexivity | simpl; lia]|]).

Lemma extends_refl (s : St) : extends s s.
Proof.
  frame. exists []. now rewrite app_nil_r.
Qed.

Lemma extends_trans (s1 s2 s3 : St) : extends s1 s2 -> extends s2 s3 -> extends s1 s3.
Proof.
  unfold extends.
  intros (Hm & Ha & Hf & Hd & Ht & He & a1 & H1) (Hm' & Ha' & Hf' & Hd' & Ht' & He' & a2 & H2).
  repeat split; try congruence; try lia.
  exists (a1 ++ a2). rewrite H2, H1. now rewrite app_assoc.
Qed.

Lemma is_sample_result (d : DataCollection.t) (p : list Q) (r_name : string) :
  (exists i smp, DataCollection.is_sample d p r_name = (true, Some i)
                 /\ nth_error d i = Some smp)
  \/ DataCollection.is_sample d p r_name = (false, None).
Proof.
  unfold DataCollection.is_sample.
  destruct (DataCollection.is_sample_from 0 d p r_name) as [[|] o] eqn:E.
  - left. destruct (is_sample_from_found _ _ _ _ E) as (j & smp & -> & Hj).
    exists j, smp. split; [reflexivity|exact Hj].
  - right. rewrite <- E. apply is_sample_from_missing. now rewrite E.
Qed.

(** Whatever [run_study] does, it only appends to the store and never
    touches the maps. *)
Lemma run_study_extends (s : St) (param : option (list Q)) (name : string)
      (force_run : bool) :
  extends s (fst (run_study ext param name force_run s)).
Proof.
  assert (Hev : negb (fst (match param with
                           | None => (false, Some O)
                           | Some p => DataCollection.is_sample (data s) p (fom_name s)
                           end)) || force_run = true ->
                extends s (fst (run_study ext param name force_run s))).
  { intro Hrun.
    destruct (study_run ext param (world s)) as [w [[v used]|e]] eqn:Heval.
    - rewrite (run_study_evaluates _ _ _ _ Hrun Heval). cbv zeta.
      unfold autosaved, saved.
      destruct (ne_False v) as [[|]|e]; simpl;
        destruct (autosave s && is_not_False v); frame;
        first [ eexists; reflexivity | exists []; now rewrite app_nil_r ].
    - rewrite (run_study_raises _ _ _ _ Hrun Heval).
      frame. exists []. now rewrite app_nil_r. }
  destruct force_run; [apply Hev; apply orb_true_r|].
  destruct param as [p|]; [|apply Hev; reflexivity].
  destruct (is_sample_result (data s) p (fom_name s)) as [(i & smp & Hf & Hn)|Hf].
  - rewrite (run_study_stored _ _ _ Hf Hn).
    destruct (autosave s); frame; exists []; now rewrite app_nil_r.
  - apply Hev. rewrite Hf. reflexivity.
Qed.

(** C10. Which evaluations are stored.  For a point that is not in the
    store, [run_study] appends the sample exactly when the result compares
    unequal to [False]; a scalar result equal to zero is dropped like the
    failure sentinel. *)
Theorem run_study_stores_unless_equal_False (s : St) (p : list Q) (name : string)
        (force_run : bool) (w : World) (v : value) (used : list Q) :
  fst (DataCollection.is_sample (data s) p (fom_name s)) = false ->
  study_run ext (Some p) (world s) = (w, Ok (v, used)) ->
  let s' := fst (run_study ext (Some p) name force_run s) in
  data s' = match ne_False v with
            | Ok true => data s ++ [DataCollection.Sample_init used name v (fom_name s)]
            | _ => data s
            end
  /\ (forall q, v = Atom (ANum q) -> q == 0 -> data s' = data s)
  /\ (v = Atom AFalse -> data s' = data s).
Proof.
  intros Hnew Heval s'.
  assert (Hdata : data s' = match ne_False v with
                            | Ok true => data s ++ [DataCollection.Sample_init used name v (fom_name s)]
                            | _ => data s
                            end).
  { subst s'.
    rewrite (@run_study_evaluates s (Some p) name force_run w v used);
      [|rewrite Hnew; reflexivity|exact Heval].
    cbv zeta. unfold autosaved, saved.
    destruct (ne_False v) as [[|]|e]; simpl;
      try destruct (autosave s && is_not_False v); reflexivity. }
  split; [exact Hdata|]. split.
  - intros q -> Hq. rewrite Hdata. simpl.
    apply Qeq_bool_iff in Hq. rewrite Hq. reflexivity.
  - intros ->. rewrite Hdata. reflexivity.
Qed.


(** *** The sweep *)

Lemma sweep_loop_app (pre rest : list (list Q)) :
  forall (acc : list (option nat)) (s : St),
    sweep_loop ext (pre ++ rest) acc s
    = bindM (sweep_loop ext pre acc) (sweep_loop ext rest) s.
Proof.
  induction pre as [|p pre IH]; intros acc s; [reflexivity|].
  simpl. unfold bindM, lift in *.
  destruct (run_study ext (Some p) "sweeping" false s) as [s' [r|e|]]; try reflexivity.
  destruct (eq_False (fst r)) as [[|]|e]; try reflexivity.
  apply IH.
Qed.

Lemma sweep_loop_extends (grid : list (list Q)) :
  forall (acc : list (option nat)) (s : St),
    extends s (fst (sweep_loop ext grid acc s)).
Proof.
  induction grid as [|p grid IH]; intros acc s; [apply extends_refl|].
  simpl. unfold bindM, lift.
  pose proof (run_study_extends s (Some p) "sweeping" false) as Hext.
  destruct (run_study ext (Some p) "sweeping" false s) as [s' [r|e|]];
    simpl in Hext; try exact Hext.
  destruct (eq_False (fst r)) as [[|]|e]; try exact Hext.
  eapply extends_trans; [exact Hext|apply IH].
Qed.

Lemma subspace_sweep_runs (s : St) (distance : PCA.arg Q) (n_points : PCA.arg Z)
      (boundaries : PCA.bounds_arg) (grid : option PCA.grids) (go : bool)
      (response : string) (g : PCA.grids) :
  go = true \/ response = "y" ->
  match grid with
  | Some g' => Ok g'
  | None => PCA.subspace_mesh (dr s) distance n_points boundaries
  end = Ok g ->
  subspace_sweep ext distance n_points boundaries grid go response s
  = try_except (sweep_body ext g) (fun _ => ret None) s.
Proof.
  intros Hgo Hgrid. unfold subspace_sweep, bindM.
  replace (negb go && negb (response =? "y")%string) with false.
  2:{ destruct Hgo as [->| ->]; [reflexivity|].
      rewrite String.eqb_refl. now rewrite andb_false_r. }
  destruct grid as [g'|].
  - injection Hgrid as ->. reflexivity.
  - unfold lift. rewrite Hgrid. reflexivity.
Qed.

(** C1. All-or-nothing sweep.  Whether the grid is handed in or generated,
    if the points before [p] were swept without failure and the evaluation
    of [p] hands back the sentinel, the sweep returns [None], the maps are
    the ones it started with, and the store is the store as the points
    before [p] left it: the initial store followed by what they inserted. *)
Theorem subspace_sweep_all_or_nothing
        (s s1 : St) (pre post : list (list Q)) (p : list Q)
        (projected : list (list Q)) (normalized : list (list PCA.xq))
        (distance : PCA.arg Q) (n_points : PCA.arg Z) (boundaries : PCA.bounds_arg)
        (grid : option PCA.grids) (go : bool) (response : string)
        (idx : list (option nat)) (w : World) (used : list Q) :
  go = true \/ response = "y" ->
  match grid with
  | Some g' => Ok g'
  | None => PCA.subspace_mesh (dr s) distance n_points boundaries
  end = Ok (pre ++ p :: post, projected, normalized) ->
  sweep_loop ext pre [] s = (s1, Return idx) ->
  fst (DataCollection.is_sample (data s1) p (fom_name s1)) = false ->
  study_run ext (Some p) (world s1) = (w, Ok (Atom AFalse, used)) ->
  exists s2,
    subspace_sweep ext distance n_points boundaries grid go response s
    = (s2, Return None)
    /\ maps s2 = maps s
    /\ data s2 = data s1
    /\ exists added, data s1 = data s ++ added.
Proof.
  intros Hgo Hgrid Hpre Hnew Heval.
  exists (count_evaluation (set_world w s1)).
  pose proof (sweep_loop_extends pre [] s) as Hext. rewrite Hpre in Hext.
  destruct Hext as (Hm & _ & _ & _ & _ & _ & Hadded).
  split; [|split; [exact Hm|split; [reflexivity|exact Hadded]]].
  rewrite (@subspace_sweep_runs s distance n_points boundaries grid go response _ Hgo Hgrid).
  unfold try_except, sweep_body, bindM at 1.
  rewrite sweep_loop_app. unfold bindM at 1. rewrite Hpre.
  simpl. unfold bindM at 1.
  rewrite (@run_study_evaluates s1 (Some p) "sweeping" false w (Atom AFalse) used);
    [|rewrite Hnew; reflexivity|exact Heval].
  simpl. unfold autosaved. simpl. rewrite andb_false_r. reflexivity.
Qed.

(** C6. What a successful sweep returns.  With autosave switched off, a
    sweep whose evaluations all succeed appends its map and returns [None]:
    the [return] of the index sits inside the [if self.set.autosave]. *)
Theorem subspace_sweep_without_autosave
        (s s1 : St) (points projected : list (list Q)) (normalized : list (list PCA.xq))
        (distance : PCA.arg Q) (n_points : PCA.arg Z) (boundaries : PCA.bounds_arg)
        (grid : option PCA.grids) (go : bool) (response : string)
        (idx : list (option nat)) :
  go = true \/ response = "y" ->
  match grid with
  | Some g' => Ok g'
  | None => PCA.subspace_mesh (dr s) distance n_points boundaries
  end = Ok (points, projected, normalized) ->
  autosave s = false ->
  sweep_loop ext points [] s = (s1, Return idx) ->
  subspace_sweep ext distance n_points boundaries grid go response s
  = (set_maps (maps s ++ [mkMap SelfDr (dr_training_index s) projected normalized idx]) s1,
     Return None).
Proof.
  intros Hgo Hgrid Hauto Hloop.
  pose proof (sweep_loop_extends points [] s) as Hext. rewrite Hloop in Hext.
  destruct Hext as (Hm & Ha & _ & _ & Ht & _ & _). simpl in Hm, Ha, Ht.
  rewrite (@subspace_sweep_runs s distance n_points boundaries grid go response _ Hgo Hgrid).
  unfold try_except, sweep_body, bindM at 1. rewrite Hloop.
  unfold bindM, gets, modify. simpl.
  rewrite Ha, Hauto, Hm, Ht. reflexivity.
Qed.

(** *** run_sampling *)

Section FailingSampler.

Hypothesis sampler_fails :
  forall w, exists w' rs ps good, sampler_run ext w = (w', (rs, ps, good, true)).

Lemma sampling_loop_stuck (max_results : nat) (max_iter : option nat) :
  forall (fuel error_num : nat) (s : St),
    (error_num <= 1)%nat ->
    below (sampler_iteration s) max_iter = true ->
    (sampler_results_num s < max_results)%nat ->
    snd (sampling_loop ext fuel max_results max_iter error_num s) = Diverge.
Proof.
  induction fuel as [|fuel IH]; intros error_num s Hle Hit Hnum; [reflexivity|].
  cbn [sampling_loop]. rewrite Hit.
  apply Nat.ltb_lt in Hnum as Hnum'. rewrite Hnum'.
  replace (error_num <? 6)%nat with true by (symmetry; apply Nat.ltb_lt; lia).
  cbn [andb].
  destruct (sampler_fails (world s)) as (w' & rs & ps & good & ->).
  unfold bindM, ret, gets. simpl.
  destruct (autosave s); simpl; apply IH; simpl; auto.
Qed.

(** C3. The error budget of [run_sampling].  Against a sampler whose every
    run reports an error, the loop of [run_sampling] is still running after
    any number of turns: line 198 sets the counter to one instead of adding
    one to it, so it never reaches six. *)
Theorem run_sampling_never_exhausts_budget
        (fuel max_results : nat) (max_iter : option nat) (s : St) :
  below (sampler_iteration s) max_iter = true ->
  (sampler_results_num s < max_results)%nat ->
  snd (run_sampling ext fuel max_results false max_iter s) = Diverge.
Proof.
  intros Hit Hnum. unfold run_sampling, bindM, ret. simpl.
  pose proof (@sampling_loop_stuck max_results max_iter fuel 0 s
                (Nat.le_0_l 1) Hit Hnum) as H.
  destruct (sampling_loop ext fuel max_results max_iter 0 s) as [s' o].
  simpl in H. rewrite H. reflexivity.
Qed.

End FailingSampler.

End Facts.

(** *** The theorems at work on the demonstration evaluator *)

Lemma run_study_stores_unless_equal_False_witness :
  let s' := fst (run_study Demo.evaluator (Some [0]) "default" false (Demo.start true)) in
  data s' = []
  /\ (forall q, Atom (ANum 0) = Atom (ANum q) -> q == 0 -> data s' = [])
  /\ (Atom (ANum 0) = Atom AFalse -> data s' = []).
Proof.
  apply (@run_study_stores_unless_equal_False unit Demo.evaluator (Demo.start true)
           [0] "default" false tt (Atom (ANum 0)) [0]); reflexivity.
Defined.


Lemma subspace_sweep_all_or_nothing_witness :
  exists s2,
    subspace_sweep Demo.evaluator PCA.ArgNone PCA.ArgNone PCA.BndNone
                   (Some Demo.grid_with_failure) true "" (Demo.start true)
    = (s2, Return None)
    /\ maps s2 = []
    /\ data s2 = [DataCollection.mkSample [1] "sweeping" [ANum 1] "fom"]
    /\ exists added, [DataCollection.mkSample [1] "sweeping" [ANum 1] "fom"] = [] ++ added.
Proof.
  apply (@subspace_sweep_all_or_nothing unit Demo.evaluator (Demo.start true)
           (fst (sweep_loop Demo.evaluator [[1]] [] (Demo.start true)))
           [[1]] [[3]] [-1] [[0.5]; [-0.5]; [1.5]]
           [[PCA.Finite 1]; [PCA.Finite (-1)]; [PCA.Finite 3]]
           PCA.ArgNone PCA.ArgNone PCA.BndNone (Some Demo.grid_with_failure)
           true "" [Some 0%nat] tt [-1]);
    [left; reflexivity|reflexivity|reflexivity|reflexivity|reflexivity].
Defined.

Lemma subspace_sweep_without_autosave_witness :
  subspace_sweep Demo.evaluator PCA.ArgNone PCA.ArgNone PCA.BndNone
                 (Some Demo.grid_of_two) true "" (Demo.start false)
  = (set_maps [mkMap SelfDr [] [[0.5]; [1.5]] [[PCA.Finite 1]; [PCA.Finite 3]]
                     [Some 0%nat; Some 1%nat]]
              (fst (sweep_loop Demo.evaluator [[1]; [3]] [] (Demo.start false))),
     Return None).
Proof.
  apply (@subspace_sweep_without_autosave unit Demo.evaluator (Demo.start false)
           (fst (sweep_loop Demo.evaluator [[1]; [3]] [] (Demo.start false)))
           [[1]; [3]] [[0.5]; [1.5]] [[PCA.Finite 1]; [PCA.Finite 3]]
           PCA.ArgNone PCA.ArgNone PCA.BndNone (Some Demo.grid_of_two)
           true "" [Some 0%nat; Some 1%nat]);
    [left; reflexivity|reflexivity|reflexivity|reflexivity].
Defined.

(** With autosave switched on the same sweep returns the index of its map,
    and so does a sweep over a generated mesh. *)
Example subspace_sweep_with_autosave :
  snd (subspace_sweep Demo.evaluator PCA.ArgNone PCA.ArgNone PCA.BndNone
                      (Some Demo.grid_of_two) true "" (Demo.start true))
  = Return (Some 0%nat).
Proof. reflexivity. Qed.

Example subspace_sweep_generated_mesh :
  let r := subspace_sweep Demo.evaluator (PCA.ArgScalar 1) PCA.ArgNone
                          (PCA.BndList [1] [2]) None true "" (Demo.start true) in
  snd r = Return (Some 0%nat)
  /\ map sim_idx (maps (fst r)) = [[Some 0; Some 1; Some 2]%nat]
  /\ length (data (fst r)) = 3%nat.
Proof. vm_compute. repeat split. Qed.

Lemma run_sampling_never_exhausts_budget_witness :
  snd (run_sampling Demo.evaluator 100 10 false None (Demo.start true)) = Diverge.
Proof.
  apply (@run_sampling_never_exhausts_budget unit Demo.evaluator).
  - intros []. exists tt, [], [], false. reflexivity.
  - reflexivity.
  - simpl. lia.
Defined.

End SpaceMappingFacts.

(** ** More on the sample store *)

Module StoreFacts.
Import DataCollection StoreSpec.

(** X1. Insertion and lookup.  [add_sample] returns the previous size of
    the store; the new sample is found at that index and every earlier
    index still holds the sample it held. *)
Theorem add_sample_lookup (dc : t) (p : list Q) (stage : string) (r : value)
        (r_name : string) :
  let '(dc', i) := add_sample dc p stage r r_name in
  i = sample_num dc
  /\ sample_num dc' = S (sample_num dc)
  /\ nth_error dc' i = Some (Sample_init p stage r r_name)
  /\ forall j, (j < sample_num dc)%nat -> nth_error dc' j = nth_error dc j.
Proof.
  unfold add_sample, sample_num. rewrite length_app. simpl.
  replace (length dc + 1 - 1)%nat with (length dc) by lia.
  repeat split.
  - lia.
  - rewrite nth_error_app2 by lia. now rewrite Nat.sub_diag.
  - intros j Hj. now rewrite nth_error_app1.
Qed.

Lemma all_eq_Forall2 (xs ys : list Q) :
  length ys = length xs -> (all_eq xs ys = true <-> Forall2 Qeq xs ys).
Proof.
  revert ys. induction xs as [|x xs IH]; intros [|y ys] Hlen; simpl in *; try discriminate.
  - split; [constructor|reflexivity].
  - rewrite andb_true_iff, Qeq_bool_iff, IH by lia.
    split.
    + intros [H1 H2]. now constructor.
    + intro H. inversion H; subst. now split.
Qed.

Lemma test_same_point (p : list Q) (r_name : Identity.str) (e : Identity.entry) :
  (length p =? parameters_size (fst e))%nat && all_eq (parameters (fst e)) p
  && Identity.is_ (Identity.name_object e) r_name = true
  <-> Identity.same_point p r_name e.
Proof.
  unfold Identity.same_point, Identity.is_, Identity.name_object, parameters_size.
  cbn [Identity.ident].
  rewrite !andb_true_iff, !Nat.eqb_eq.
  split.
  - intros [[Hl Ha] Hn]. repeat split; try assumption.
    now apply all_eq_Forall2.
  - intros (Hl & Ha & Hn). repeat split; try assumption.
    now apply all_eq_Forall2.
Qed.

Lemma is_sample_from_spec (p : list Q) (r_name : Identity.str) :
  forall (l : Identity.t) (k : nat),
    (exists j e,
        Identity.is_sample_from k l p r_name = (true, Some (k + j)%nat)
        /\ nth_error l j = Some e
        /\ Identity.same_point p r_name e
        /\ forall j' e', (j' < j)%nat -> nth_error l j' = Some e' ->
                         ~ Identity.same_point p r_name e')
    \/ (Identity.is_sample_from k l p r_name = (false, None)
        /\ forall e, In e l -> ~ Identity.same_point p r_name e).
Proof.
  induction l as [|x l IH]; intro k.
  - right. split; [reflexivity|]. intros e [].
  - cbn [Identity.is_sample_from].
    destruct ((length p =? parameters_size (fst x))%nat && all_eq (parameters (fst x)) p
              && Identity.is_ (Identity.name_object x) r_name) eqn:E.
    + left. exists O, x. rewrite Nat.add_0_r.
      split; [reflexivity|]. split; [reflexivity|].
      split; [now apply test_same_point|].
      intros j' e' Hj. lia.
    + assert (Hx : ~ Identity.same_point p r_name x).
      { intro H. apply test_same_point in H. congruence. }
      destruct (IH (S k)) as [(j & e & Hf & Hn & Hs & Hfirst)|[Hf Hnone]].
      * left. exists (S j), e. rewrite Hf.
        split; [do 2 f_equal; lia|]. split; [exact Hn|]. split; [exact Hs|].
        intros [|j'] e' Hj Hn'; simpl in Hn'.
        -- injection Hn' as <-. exact Hx.
        -- apply (Hfirst j'); [lia|exact Hn'].
      * right. split; [exact Hf|]. intros e [<-|Hin]; [exact Hx|now apply Hnone].
Qed.

(** When equal names are one object, the lookup by identity is the lookup
    by characters of [DataCollection.is_sample]. *)
Lemma is_sample_interned (p : list Q) (r_name : Identity.str) :
  forall (dc : Identity.t) (k : nat),
    Identity.interned dc r_name ->
    Identity.is_sample_from k dc p r_name
    = is_sample_from k (Identity.contents dc) p (Identity.chars r_name).
Proof.
  induction dc as [|e dc IH]; intros k Hint; [reflexivity|].
  cbn [Identity.is_sample_from Identity.contents map is_sample_from].
  assert (He : Identity.is_ (Identity.name_object e) r_name
               = String.eqb (result_name (fst e)) (Identity.chars r_name)).
  { unfold Identity.is_, Identity.name_object. cbn [Identity.ident].
    destruct (Hint e (or_introl eq_refl)) as [H1 H2].
    destruct (String.eqb_spec (result_name (fst e)) (Identity.chars r_name)) as [Heq|Hne].
    - apply Nat.eqb_eq. now apply H1.
    - apply Nat.eqb_neq. intro H. apply Hne. now apply H2. }
  rewrite He. fold (Identity.contents dc). rewrite IH; [reflexivity|].
  intros e' Hin. apply Hint. now right.
Qed.

(** X2. What a hit of [is_sample] means.  The index returned is that of
    the first sample with as many parameters, all equal to the ones asked
    for, whose result name is the very object asked for.  Earlier samples
    with the same parameters and a result name of the same characters, but
    another object, are passed over. *)
Theorem is_sample_first_match (dc : Identity.t) (p : list Q) (r_name : Identity.str)
        (i : option nat) :
  Identity.is_sample dc p r_name = (true, i) ->
  exists j e,
    i = Some j
    /\ nth_error dc j = Some e
    /\ Identity.same_point p r_name e
    /\ forall j' e', (j' < j)%nat -> nth_error dc j' = Some e' ->
                     ~ Identity.same_point p r_name e'.
Proof.
  unfold Identity.is_sample. intro H.
  destruct (is_sample_from_spec p r_name dc 0)
    as [(j & e & Hf & Hn & Hs & Hfirst)|[Hf _]]; [|congruence].
  rewrite Hf in H. injection H as <-. exists j, e. auto.
Qed.

Lemma is_sample_first_match_witness :
  exists j e,
    Some 1%nat = Some j
    /\ nth_error Samples.two_objects j = Some e
    /\ Identity.same_point [1] (Identity.mkStr "fom" 7) e
    /\ forall j' e', (j' < j)%nat -> nth_error Samples.two_objects j' = Some e' ->
                     ~ Identity.same_point [1] (Identity.mkStr "fom" 7) e'.
Proof.
  apply (@is_sample_first_match Samples.two_objects [1] (Identity.mkStr "fom" 7)
           (Some 1%nat)).
  reflexivity.
Defined.

(** X3. What a miss of [is_sample] means.  The lookup fails exactly when no
    sample of the store has these parameters and the very object asked for
    as its result name, whatever the characters of the names; the index is
    then [None]. *)
Theorem is_sample_miss (dc : Identity.t) (p : list Q) (r_name : Identity.str) :
  (fst (Identity.is_sample dc p r_name) = false
   <-> (forall e, In e dc -> ~ Identity.same_point p r_name e))
  /\ (fst (Identity.is_sample dc p r_name) = false ->
      snd (Identity.is_sample dc p r_name) = None).
Proof.
  unfold Identity.is_sample.
  destruct (is_sample_from_spec p r_name dc 0)
    as [(j & e & Hf & Hn & Hs & _)|[Hf Hnone]]; rewrite Hf; simpl.
  - split; [|discriminate]. split; [discriminate|]. intro H. exfalso.
    apply (H e); [now apply nth_error_In in Hn|exact Hs].
  - split; [|reflexivity]. split; [intros _; exact Hnone|reflexivity].
Qed.

(** A name of the same characters that is another object is not found,
    although the store holds the point under these characters. *)
Example is_sample_other_object :
  Identity.is_sample Samples.two_objects [1] (Identity.mkStr "fom" 9) = (false, None)
  /\ is_sample (Identity.contents Samples.two_objects) [1] "fom" = (true, Some 0%nat).
Proof. split; reflexivity. Qed.

(** X4. Insert, then look up.  A point just added is found when it is
    looked up with the object it was stored under: at the new index, or at
    an earlier index that already held the same point under that object,
    and at the first such index. *)
Theorem add_sample_then_is_sample (dc : Identity.t) (p : list Q) (stage : string)
        (r : value) (r_name : Identity.str) :
  exists j e,
    Identity.is_sample (fst (Identity.add_sample dc p stage r r_name)) p r_name
    = (true, Some j)
    /\ (j <= Identity.sample_num dc)%nat
    /\ nth_error (fst (Identity.add_sample dc p stage r r_name)) j = Some e
    /\ Identity.same_point p r_name e
    /\ ((j < Identity.sample_num dc)%nat -> nth_error dc j = Some e)
    /\ forall j' e', (j' < j)%nat -> nth_error dc j' = Some e' ->
                     ~ Identity.same_point p r_name e'.
Proof.
  unfold Identity.is_sample, Identity.add_sample, Identity.sample_num. cbn [fst].
  set (new := (Sample_init p stage r (Identity.chars r_name), Identity.ident r_name)).
  assert (Hnew : Identity.same_point p r_name new).
  { unfold Identity.same_point, parameters_size. simpl.
    split; [reflexivity|]. split; [|reflexivity].
    clear. induction p; constructor; [reflexivity|assumption]. }
  destruct (is_sample_from_spec p r_name (dc ++ [new]) 0)
    as [(j & e & Hf & Hn & Hs & Hfirst)|[_ Hnone]].
  - assert (Hle : (j <= length dc)%nat).
    { destruct (Nat.le_gt_cases j (length dc)) as [Hle|Hgt]; [exact Hle|].
      exfalso. apply (Hfirst (length dc) new Hgt); [|exact Hnew].
      rewrite nth_error_app2 by lia. now rewrite Nat.sub_diag. }
    exists j, e. split; [exact Hf|]. split; [exact Hle|].
    split; [exact Hn|]. split; [exact Hs|]. split.
    + intro Hlt. now rewrite nth_error_app1 in Hn.
    + intros j' e' Hj Hn'. apply (Hfirst j' e' Hj).
      rewrite nth_error_app1; [exact Hn'|]. lia.
  - exfalso. apply (Hnone new); [|exact Hnew].
    apply in_or_app. right. now left.
Qed.

(** *** filter_simulation *)

Lemma index_of_nat {A : Type} (l : list A) (k : nat) :
  Py.index l (Z.of_nat k)
  = match nth_error l k with
    | Some x => Ok x
    | None => Raise IndexError
    end.
Proof.
  unfold Py.index.
  replace (Z.of_nat k <? 0)%Z with false by (symmetry; apply Z.ltb_ge; lia).
  rewrite Nat2Z.id.
  destruct (nth_error l k) as [x|] eqn:E.
  - assert (k < length l)%nat by (apply nth_error_Some; congruence).
    replace ((0 <=? Z.of_nat k) && (Z.of_nat k <? Z.of_nat (length l)))%Z with true;
      [reflexivity|].
    symmetry. apply andb_true_iff. split; [apply Z.leb_le|apply Z.ltb_lt]; lia.
  - now destruct ((0 <=? Z.of_nat k) && (Z.of_nat k <? Z.of_nat (length l)))%Z.
Qed.

(** The three lists a selection of numbered samples stands for. *)
Lemma filter_from_selection (dc : t) (r_name : string) (r_index : index_arg)
      (sel : stage_arg) (lb ub : bound_arg) :
  forall (l : list Sample) (i : nat) (kept : list (nat * Sample)) (out : filtered),
    (forall j s, nth_error l j = Some s -> nth_error dc (i + j) = Some s) ->
    Forall (fun x => nth_error dc (fst x) = Some (snd x)
                     /\ (fst x < i)%nat
                     /\ result_name (snd x) = r_name
                     /\ stage_ok sel (simulation_name (snd x)) = true) kept ->
    Sorted.StronglySorted lt (map fst kept) ->
    filter_from r_name r_index sel lb ub i l
                (map (fun x => parameters (snd x)) kept,
                 map (fun x => result (snd x)) kept, map fst kept) = Ok out ->
    exists kept',
      out = (map (fun x => parameters (snd x)) kept',
             map (fun x => result (snd x)) kept', map fst kept')
      /\ Forall (fun x => nth_error dc (fst x) = Some (snd x)
                          /\ result_name (snd x) = r_name
                          /\ stage_ok sel (simulation_name (snd x)) = true) kept'
      /\ Sorted.StronglySorted lt (map fst kept').
Proof.
  induction l as [|s l IH]; intros i kept out Hdc Hkept Hsorted H; simpl in H.
  - injection H as <-. exists kept. split; [reflexivity|]. split; [|exact Hsorted].
    eapply Forall_impl; [|exact Hkept]. intros x (H1 & _ & H3 & H4). auto.
  - destruct (filter_step r_name r_index sel lb ub i s
                (map (fun x => parameters (snd x)) kept,
                 map (fun x => result (snd x)) kept, map fst kept)) as [acc|e] eqn:E;
      simpl in H; [|discriminate].
    assert (Hnext : forall j s', nth_error l j = Some s' -> nth_error dc (S i + j) = Some s').
    { intros j s' Hj. replace (S i + j)%nat with (i + S j)%nat by lia. now apply Hdc. }
    assert (Hweak : Forall (fun x => nth_error dc (fst x) = Some (snd x)
                                     /\ (fst x < S i)%nat
                                     /\ result_name (snd x) = r_name
                                     /\ stage_ok sel (simulation_name (snd x)) = true) kept).
    { eapply Forall_impl; [|exact Hkept]. intros x (H1 & H2 & H3 & H4).
      repeat split; try assumption. lia. }
    unfold filter_step in E.
    destruct (String.eqb (result_name s) r_name && stage_ok sel (simulation_name s)) eqn:Em.
    2:{ injection E as <-. eapply IH; eauto. }
    apply andb_true_iff in Em. destruct Em as [Hn Hs]. apply String.eqb_eq in Hn.
    destruct r_index as [k|ks]; [|discriminate].
    destruct (Py.index (result s) k) as [a|]; simpl in E; [|discriminate].
    destruct (side_ok Qgtb a lb) as [[|]|]; simpl in E; try discriminate.
    2:{ injection E as <-. eapply IH; eauto. }
    destruct (side_ok Qltb a ub) as [[|]|]; simpl in E; try discriminate.
    2:{ injection E as <-. eapply IH; eauto. }
    injection E as <-.
    apply (IH (S i) (kept ++ [(i, s)]) out Hnext).
    + apply Forall_app. split; [exact Hweak|].
      constructor; [|constructor]. simpl. repeat split; try assumption; try lia.
      specialize (Hdc O s eq_refl). now rewrite Nat.add_0_r in Hdc.
    + rewrite map_app. simpl. clear - Hsorted Hkept.
      induction kept as [|x kept IHk]; simpl.
      * constructor; constructor.
      * inversion Hsorted; subst. inversion Hkept; subst.
        constructor; [now apply IHk|].
        apply Forall_app. split; [assumption|].
        constructor; [|constructor]. tauto.
    + rewrite !map_app. exact H.
Qed.

(** X5. What [filter_simulation] returns.  When it returns, its three lists
    are the parameters, the results and the indices of a selection of
    samples of the store, in increasing order of index, each with the
    requested result name and an allowed stage. *)
Theorem filter_simulation_sound (dc : t) (r_name : string) (r_index : index_arg)
        (sel : stage_arg) (lb ub : bound_arg) (out : filtered) :
  filter_simulation dc r_name r_index sel lb ub = Ok out ->
  exists kept : list (nat * Sample),
    out = (map (fun x => parameters (snd x)) kept,
           map (fun x => result (snd x)) kept, map fst kept)
    /\ Forall (fun x => nth_error dc (fst x) = Some (snd x)
                        /\ result_name (snd x) = r_name
                        /\ stage_ok sel (simulation_name (snd x)) = true) kept
    /\ Sorted.StronglySorted lt (map fst kept).
Proof.
  unfold filter_simulation. intro H.
  apply (@filter_from_selection dc r_name r_index sel lb ub dc 0 [] out);
    try assumption; try constructor.
  intros j s Hj. exact Hj.
Qed.

Lemma filter_simulation_sound_witness :
  exists kept : list (nat * Sample),
    ([[2]], [[ANum 0.8]], [1%nat])
    = (map (fun x => parameters (snd x)) kept,
       map (fun x => result (snd x)) kept, map fst kept)
    /\ Forall (fun x => nth_error Demo.scenario_store (fst x) = Some (snd x)
                        /\ result_name (snd x) = "fom"
                        /\ stage_ok (StageList ["sampling"]) (simulation_name (snd x)) = true)
              kept
    /\ Sorted.StronglySorted lt (map fst kept).
Proof.
  apply (@filter_simulation_sound Demo.scenario_store "fom" (IdxInt 0)
           (StageList ["sampling"]) (BoundList [Some 0.5]) BoundNone).
  reflexivity.
Defined.

Lemma side_ok_scalar (cmp : Q -> Q -> bool) (q : Q) (o : option Q) :
  side_ok cmp (ANum q) (scalar_bound o)
  = Ok (match o with Some b => cmp q b | None => true end).
Proof.
  destruct o as [b|]; unfold side_ok; simpl; [|reflexivity].
  now rewrite andb_true_r.
Qed.

Lemma filter_from_scalar (r_name : string) (k : nat) (sel : stage_arg) (lb ub : option Q) :
  forall (l : list Sample) (i : nat) (ps : list (list Q)) (rs : list (list atom))
         (ids : list nat),
    Forall (fun s => String.eqb (result_name s) r_name
                     && stage_ok sel (simulation_name s) = true ->
                     component k s <> None) l ->
    filter_from r_name (IdxInt (Z.of_nat k)) sel (scalar_bound lb) (scalar_bound ub)
                i l (ps, rs, ids)
    = let kept := filter (fun x => selected r_name k sel lb ub (snd x)) (numbered i l) in
      Ok (ps ++ map (fun x => parameters (snd x)) kept,
          rs ++ map (fun x => result (snd x)) kept,
          ids ++ map fst kept).
Proof.
  induction l as [|s l IH]; intros i ps rs ids Hall; cbv zeta.
  - simpl. now rewrite !app_nil_r.
  - inversion Hall as [|? ? Hs Hl]; subst.
    unfold numbered. cbn [filter_from length seq combine filter snd].
    unfold filter_step.
    destruct (String.eqb (result_name s) r_name && stage_ok sel (simulation_name s)) eqn:Em.
    + specialize (Hs eq_refl). rewrite index_of_nat.
      assert (Hsel : selected r_name k sel lb ub s
                     = match component k s with
                       | Some q => strictly_within lb ub q
                       | None => false
                       end) by (unfold selected; now rewrite Em).
      rewrite Hsel. clear Hsel. unfold component in *.
      destruct (nth_error (result s) k) as [[|q|a]|]; try congruence.
      cbn [bind]. rewrite !side_ok_scalar. cbn [bind].
      unfold strictly_within.
      destruct (match lb with Some b => Qgtb q b | None => true end); cbn [bind andb].
      * destruct (match ub with Some b => Qltb q b | None => true end); cbn [bind].
        -- rewrite (IH (S i)) by exact Hl. cbv zeta. unfold numbered.
           cbn [map fst snd]. now rewrite <- !app_assoc.
        -- rewrite (IH (S i)) by exact Hl. reflexivity.
      * rewrite (IH (S i)) by exact Hl. reflexivity.
    + assert (Hsel : selected r_name k sel lb ub s = false)
        by (unfold selected; now rewrite Em).
      rewrite Hsel. cbn [bind]. rewrite (IH (S i)) by exact Hl. reflexivity.
Qed.

(** X6. Filtering on one component with scalar bounds is a plain filter.
    If every sample with the requested name and an allowed stage has a
    float at component [k], the call returns exactly the samples whose
    name matches, whose stage is allowed and whose component lies strictly
    between the bounds given, in store order, with their indices. *)
Theorem filter_simulation_scalar_bounds (dc : t) (r_name : string) (k : nat)
        (sel : stage_arg) (lb ub : option Q) :
  Forall (fun s => String.eqb (result_name s) r_name
                   && stage_ok sel (simulation_name s) = true ->
                   component k s <> None) dc ->
  filter_simulation dc r_name (IdxInt (Z.of_nat k)) sel (scalar_bound lb) (scalar_bound ub)
  = let kept := filter (fun x => selected r_name k sel lb ub (snd x)) (numbered 0 dc) in
    Ok (map (fun x => parameters (snd x)) kept,
        map (fun x => result (snd x)) kept,
        map fst kept).
Proof.
  intro H. unfold filter_simulation. now rewrite filter_from_scalar.
Qed.

Lemma filter_simulation_scalar_bounds_witness :
  filter_simulation Demo.scenario_store "fom" (IdxInt 0) (StageList ["sampling"])
                    (BoundScalar 0.2) (BoundScalar 0.8)
  = Ok ([], [], []).
Proof.
  apply (@filter_simulation_scalar_bounds Demo.scenario_store "fom" 0
           (StageList ["sampling"]) (Some 0.2) (Some 0.8)).
  repeat constructor; discriminate.
Defined.

Lemma filter_from_missing_component (r_name : string) (k : nat) (sel : stage_arg)
      (lb ub : option Q) :
  forall (l : list Sample) (i : nat) (acc : filtered),
    Exists (fun s => String.eqb (result_name s) r_name
                     && stage_ok sel (simulation_name s) = true
                     /\ nth_error (result s) k = None) l ->
    filter_from r_name (IdxInt (Z.of_nat k)) sel (scalar_bound lb) (scalar_bound ub)
                i l acc = Raise IndexError.
Proof.
  induction l as [|s l IH]; intros i acc Hex; [inversion Hex|].
  cbn [filter_from]. unfold filter_step.
  destruct (String.eqb (result_name s) r_name && stage_ok sel (simulation_name s)) eqn:Em.
  - rewrite index_of_nat.
    destruct (nth_error (result s) k) as [a|] eqn:Ek; [|reflexivity].
    assert (Hl : Exists (fun s => String.eqb (result_name s) r_name
                                  && stage_ok sel (simulation_name s) = true
                                  /\ nth_error (result s) k = None) l).
    { inversion Hex as [? ? [_ H]|]; subst; [congruence|assumption]. }
    cbn [bind].
    assert (Hside : forall cmp o, exists b, side_ok cmp a (scalar_bound o) = Ok b).
    { intros cmp [b|]; unfold side_ok; simpl; eauto. }
    destruct (Hside Qgtb lb) as [[|] ->]; cbn [bind].
    + destruct (Hside Qltb ub) as [[|] ->]; cbn [bind].
      * destruct acc as [[ps rs] ids]. cbn [bind]. now apply IH.
      * now apply IH.
    + now apply IH.
  - cbn [bind]. apply IH.
    inversion Hex as [? ? [H _]|]; subst; [congruence|assumption].
Qed.

(** X7. A result that is too short.  With scalar bounds, if some sample
    with the requested name and an allowed stage has no component [k], the
    whole call raises IndexError, whatever the other samples hold. *)
Theorem filter_simulation_missing_component (dc : t) (r_name : string) (k : nat)
        (sel : stage_arg) (lb ub : option Q) :
  Exists (fun s => String.eqb (result_name s) r_name
                   && stage_ok sel (simulation_name s) = true
                   /\ nth_error (result s) k = None) dc ->
  filter_simulation dc r_name (IdxInt (Z.of_nat k)) sel (scalar_bound lb) (scalar_bound ub)
  = Raise IndexError.
Proof.
  intro H. unfold filter_simulation. now apply filter_from_missing_component.
Qed.

Lemma filter_simulation_missing_component_witness :
  filter_simulation Demo.scenario_store "fom" (IdxInt 1) StageNone BoundNone (BoundScalar 1)
  = Raise IndexError.
Proof.
  apply (@filter_simulation_missing_component Demo.scenario_store "fom" 1
           StageNone None (Some 1)).
  constructor. split; reflexivity.
Defined.

Lemma strictly_within_spec (a b q : Q) :
  strictly_within (Some a) (Some b) q = true <-> a < q /\ q < b.
Proof.
  unfold strictly_within, Qgtb, Qltb.
  rewrite andb_true_iff, !negb_true_iff.
  split.
  - intros [H1 H2]. split; apply Qnot_le_lt; intro H;
      apply Qle_bool_iff in H; congruence.
  - intros [H1 H2]. split; apply not_true_is_false; intro H;
      apply Qle_bool_iff in H.
    + exact (Qlt_not_le _ _ H1 H).
    + exact (Qlt_not_le _ _ H2 H).
Qed.

(** *** Tabular export and import *)

Section CsvRoundTrip.

Variable float_repr : Q -> string.
Variable float_parse : string -> option Q.
Variable array_str : list Q -> string.
Variable repr_body : string -> string.

Local Abbreviation load := (load_from_csv float_parse repr_body).
Local Abbreviation export := (export_to_csv float_repr array_str).

Lemma float64_printed (qs : list Q) :
  Forall (fun q => float_parse (float_repr q) = Some q) qs ->
  float64 float_parse (map float_repr qs) = Ok qs.
Proof.
  induction 1 as [|q qs Hq _ IH]; simpl; [reflexivity|].
  rewrite Hq, IH. reflexivity.
Qed.

Lemma cells_of_floats (l : list atom) :
  Forall (fun a => exists q, a = ANum q /\ float_parse (float_repr q) = Some q) l ->
  map (cell_of_atom float_repr array_str) l = map float_repr (floats l)
  /\ Forall (fun q => float_parse (float_repr q) = Some q) (floats l).
Proof.
  induction 1 as [|a l (q & -> & Hq) _ [IH1 IH2]]; simpl.
  - split; constructor.
  - rewrite IH1. split; [reflexivity|now constructor].
Qed.

Lemma load_row_exported (dc : t) (n : nat) (s : Sample) :
  portable float_repr float_parse repr_body n s ->
  load_row float_parse repr_body dc (export_row float_repr array_str s) n
  = Ok (dc ++ [reimported s]).
Proof.
  intros (Hn & Hp & Hr & Hstage & Hname).
  destruct (cells_of_floats Hr) as [Hcells Hfloats].
  unfold load_row, export_row, parameters_size in *.
  rewrite Hcells. cbn [firstn skipn tag_of].
  rewrite Hstage, Hname.
  assert (Hlen : length (map float_repr (parameters s)) = n) by now rewrite length_map.
  rewrite firstn_app, Hlen, Nat.sub_diag, firstn_O, app_nil_r.
  rewrite firstn_all2 by lia.
  rewrite float64_printed by exact Hp. cbn [bind].
  replace (n + 2)%nat with (S (S n)) by lia. cbn [skipn].
  rewrite skipn_app, Hlen, Nat.sub_diag, skipn_all2 by lia. cbn [skipn app].
  rewrite float64_printed by exact Hfloats. reflexivity.
Qed.

(** X8. What the round trip does keep.  For samples with [n] parameters and
    float results, whose numbers are read back as printed and whose tags
    [repr] leaves alone, importing the exported file appends, in order, a
    sample with the same stage, result name and parameters, whose result
    is the one array of the exported result values. *)
Theorem csv_round_trip_portable (dc0 dc : t) (n : nat) :
  Forall (portable float_repr float_parse repr_body n) dc ->
  load dc0 (export dc) n = (dc0 ++ map reimported dc, None).
Proof.
  intro H. revert dc0. induction H as [|s dc Hs _ IH]; intro dc0; simpl.
  - now rewrite app_nil_r.
  - rewrite (load_row_exported dc0 Hs). rewrite IH. now rewrite <- app_assoc.
Qed.

Lemma load_from_csv_app (rows1 rows2 : list (list string)) (n : nat) :
  forall dc : t,
    load dc (rows1 ++ rows2) n
    = match load dc rows1 n with
      | (dc1, None) => load dc1 rows2 n
      | (dc1, Some e) => (dc1, Some e)
      end.
Proof.
  induction rows1 as [|row rows1 IH]; intro dc; simpl; [reflexivity|].
  destruct (load_row float_parse repr_body dc row n); [apply IH|reflexivity].
Qed.

Lemma load_from_csv_counts (rows : list (list string)) (n : nat) :
  forall dc dc' : t,
    load dc rows n = (dc', None) -> length dc' = (length dc + length rows)%nat.
Proof.
  induction rows as [|row rows IH]; intros dc dc' H; simpl in H.
  - injection H as <-. simpl. lia.
  - destruct (load_row float_parse repr_body dc row n) as [dc1|e] eqn:E; [|discriminate].
    apply IH in H. rewrite H.
    unfold load_row in E.
    destruct (float64 float_parse (firstn n (skipn 2 row))); simpl in E; [|discriminate].
    destruct (float64 float_parse (skipn (n + 2) row)); simpl in E; [|discriminate].
    injection E as <-. rewrite length_app. simpl. lia.
Qed.

(** X9. A row that does not parse.  The import adds one sample per row
    until it meets a row it cannot read; there it raises, the samples of
    the rows before stay in the store and the rows after are not read. *)
Theorem load_from_csv_stops_at_bad_row (dc dc1 : t) (good rest : list (list string))
        (bad : list string) (n : nat) (e : exn) :
  load dc good n = (dc1, None) ->
  load_row float_parse repr_body dc1 bad n = Raise e ->
  load dc (good ++ bad :: rest) n = (dc1, Some e)
  /\ length dc1 = (length dc + length good)%nat.
Proof.
  intros Hgood Hbad. split.
  - rewrite load_from_csv_app, Hgood. simpl. now rewrite Hbad.
  - exact (load_from_csv_counts good n dc Hgood).
Qed.

End CsvRoundTrip.

Lemma csv_round_trip_portable_witness :
  load_from_csv Demo.frac_parse (fun s => s) []
    (export_to_csv Demo.frac_repr Demo.array_str Demo.two_component_store) 1
  = ([] ++ map reimported Demo.two_component_store, None).
Proof.
  apply (@csv_round_trip_portable Demo.frac_repr Demo.frac_parse Demo.array_str
           (fun s => s) [] Demo.two_component_store 1).
  constructor; [|constructor].
  split; [reflexivity|]. split; [repeat constructor|].
  split; [|split; reflexivity].
  constructor; [exists 0.5; split; reflexivity|].
  constructor; [exists 0.5; split; reflexivity|constructor].
Defined.

Lemma load_from_csv_stops_at_bad_row_witness :
  load_from_csv Demo.frac_parse (fun s => s) []
    ([["sampling"; "fom"; "1/1"; "1/2"]] ++ ["sampling"; "fom"; "one"; "1/2"]
       :: [["sweeping"; "fom"; "3/1"; "1/4"]]) 1
  = ([mkSample [1] "sampling" [AArr [1 # 2]] "fom"], Some ValueError)
  /\ length [mkSample [1] "sampling" [AArr [1 # 2]] "fom"] = (length (@nil Sample) + 1)%nat.
Proof.
  apply (@load_from_csv_stops_at_bad_row Demo.frac_parse (fun s => s) []
           [mkSample [1] "sampling" [AArr [1 # 2]] "fom"]); reflexivity.
Defined.

End StoreFacts.

(** ** More on the mesh *)

Module MeshFacts.
Import PCA.

Lemma mesh_axis_untrained (self : t) (m : mode) (lower upper : list Float64.float)
      (i : nat) :
  fitted self = None ->
  exists e, mesh_axis self m lower upper i = Raise e.
Proof.
  intro Hf. unfold mesh_axis, invert_model. rewrite Hf.
  destruct (get lower i); simpl; eauto.
Qed.

(** X10. No mesh without training.  On a model that has not been trained
    [subspace_mesh] raises, whatever distance, point counts and boundaries
    it is given. *)
Theorem subspace_mesh_untrained (self : t) (distance : arg Q) (n_points : arg Z)
        (boundaries : bounds_arg) :
  fitted self = None ->
  exists e, subspace_mesh self distance n_points boundaries = Raise e.
Proof.
  intro Hf. unfold subspace_mesh.
  destruct (mesh_mode self distance n_points) as [m|e]; simpl; [|eauto].
  destruct (mesh_bounds self boundaries) as [[lo hi]|e]; simpl; [|eauto].
  destruct (n_components self) as [|n] eqn:Hn.
  - simpl. unfold invert_grid. rewrite Hf. simpl. eauto.
  - destruct (@PCAFacts.mesh_axes_raises self m lo hi 0
                (mesh_axis_untrained self m lo hi 0 Hf) (seq 0 (S n))) as [e ->].
    + now left.
    + simpl. eauto.
Qed.

Lemma subspace_mesh_untrained_witness :
  exists e, subspace_mesh (mkPCA 2 2 None) (ArgScalar 0.5) ArgNone (BndList [-1; -1] [1; 1])
            = Raise e.
Proof.
  apply (@subspace_mesh_untrained (mkPCA 2 2 None)). reflexivity.
Defined.

Lemma product_width {A : Type} (lists : list (list A)) :
  Forall (fun p => length p = length lists) (product lists).
Proof.
  induction lists as [|l lists IH]; simpl.
  - constructor; [reflexivity|constructor].
  - apply Forall_forall. intros p Hp.
    apply in_flat_map in Hp. destruct Hp as (x & _ & Hp).
    apply in_map_iff in Hp. destruct Hp as (q & <- & Hq).
    simpl. f_equal. rewrite Forall_forall in IH. now apply IH.
Qed.

Lemma finite_point_length :
  forall (p : list Float64.float) (q : list Q),
    finite_point p = Some q -> length q = length p.
Proof.
  induction p as [|x p IH]; intros q H; simpl in H.
  - injection H as <-. reflexivity.
  - destruct (Float64.to_Q x); [|discriminate].
    destruct (finite_point p) as [qs|]; [|discriminate].
    injection H as <-. simpl. now rewrite (IH qs).
Qed.

Lemma finite_grid_width (n : nat) :
  forall (g : list (list Float64.float)) (pts : list (list Q)),
    finite_grid g = Some pts ->
    Forall (fun p => length p = n) g ->
    Forall (fun p => length p = n) pts.
Proof.
  induction g as [|p g IH]; intros pts H Hw; simpl in H.
  - injection H as <-. constructor.
  - destruct (finite_point p) as [q|] eqn:Ep; [|discriminate].
    destruct (finite_grid g) as [qs|]; [|discriminate].
    injection H as <-. inversion Hw as [|? ? Hp Hg]. subst.
    constructor; [now rewrite (finite_point_length _ Ep)|now apply IH].
Qed.

Lemma mesh_axes_counts (self : t) (nv : list Z) (lower upper : list Float64.float) :
  forall (len start : nat) (axes : list axis),
    mesh_axes self (FindDist nv) lower upper (seq start len) = Ok axes ->
    map count axes = firstn len (skipn start nv)
    /\ Forall (fun ax => Z.of_nat (length (samp ax)) = count ax
                         /\ length (normalized ax) = length (samp ax)) axes.
Proof.
  induction len as [|len IH]; intros start axes H; simpl in H.
  - injection H as <-. split; [reflexivity|constructor].
  - PCAFacts.step_res H a Ea. PCAFacts.step_res H rest Er. injection H as <-.
    destruct (IH _ _ Er) as [IHc IHl].
    destruct (PCAFacts.mesh_axis_inv _ _ _ _ _ Ea)
      as (lo & hi & _ & _ & _ & _ & _ & _ & _ & Hlin & Hnorm & k & Hk & Hc & _).
    split.
    + simpl. rewrite IHc, Hc.
      clear - Hk. revert nv Hk. induction start as [|start IHs]; intros [|z nv] Hk;
        simpl in *; try discriminate.
      * now injection Hk as ->.
      * now apply IHs.
    + constructor; [|exact IHl]. split.
      * exact (PCAFacts.linspace_length _ _ _ Hlin).
      * rewrite Hnorm. destruct (samp a) as [|s0 [|s1 s]];
          [reflexivity|reflexivity|now rewrite length_map].
Qed.

(** X11. The shape of the mesh in point-count mode.  A mesh that is
    returned has as many points as the product of the point counts of the
    reduced axes; the full, reduced and normalized grids list the same
    number of points, and every reduced and normalized point has one
    coordinate per reduced axis. *)
Theorem subspace_mesh_shape (self : t) (distance : arg Q) (n_points : arg Z)
        (boundaries : bounds_arg) (nv : list Z)
        (grid projected : list (list Q)) (normalized_grid : list (list xq)) :
  mesh_mode self distance n_points = Ok (FindDist nv) ->
  subspace_mesh self distance n_points boundaries = Ok (grid, projected, normalized_grid) ->
  Z.of_nat (length projected)
  = fold_right Z.mul 1%Z (firstn (n_components self) nv)
  /\ length grid = length projected
  /\ length normalized_grid = length projected
  /\ Forall (fun p => length p = n_components self) projected
  /\ Forall (fun p => length p = n_components self) normalized_grid.
Proof.
  intros Hm H. apply PCAFacts.subspace_mesh_axes in H. cbn [fst snd] in H.
  destruct H as (m & lower & upper & axes & f & Hm' & _ & Eaxes & _ & Hproj & Hgrid & _ & Hnorm).
  rewrite Hm in Hm'. injection Hm' as <-.
  destruct (PCAFacts.mesh_axes_nth _ _ _ _ _ _ Eaxes) as [Hlen _].
  destruct (mesh_axes_counts _ _ _ _ _ _ Eaxes) as [Hc Hl]. simpl in Hc.
  assert (Hsizes : map (fun l : list Float64.float => Z.of_nat (length l)) (map normalized axes)
                   = map (fun l : list Float64.float => Z.of_nat (length l)) (map samp axes)).
  { rewrite !map_map. clear - Hl. induction Hl as [|ax axes [_ H] _ IH]; simpl;
      [reflexivity|now rewrite H, IH]. }
  pose proof (PCAFacts.finite_grid_length _ Hproj) as Hpl.
  split; [|split; [|split; [|split]]].
  - rewrite Hpl, PCAFacts.product_length, map_map, <- Hc. clear - Hl.
    induction Hl as [|ax axes [H _] _ IH]; simpl; [reflexivity|].
    now rewrite IH, H.
  - rewrite Hgrid. now rewrite length_map.
  - rewrite Hnorm, length_map, Hpl. apply Nat2Z.inj.
    now rewrite !PCAFacts.product_length, Hsizes.
  - apply (finite_grid_width Hproj).
    pose proof (product_width (map samp axes)) as Hw.
    rewrite length_map, Hlen in Hw. exact Hw.
  - rewrite Hnorm. apply Forall_map.
    pose proof (product_width (map normalized axes)) as Hw.
    rewrite length_map, Hlen in Hw.
    eapply Forall_impl; [|exact Hw]. intros p Hp. now rewrite length_map.
Qed.

Lemma subspace_mesh_shape_witness :
  Z.of_nat (length (snd (fst Samples.plane_mesh)))
  = fold_right Z.mul 1%Z (firstn (n_components Demo.plane) [2; 3]%Z)
  /\ length (fst (fst Samples.plane_mesh)) = length (snd (fst Samples.plane_mesh))
  /\ length (snd Samples.plane_mesh) = length (snd (fst Samples.plane_mesh))
  /\ Forall (fun p => length p = n_components Demo.plane) (snd (fst Samples.plane_mesh))
  /\ Forall (fun p => length p = n_components Demo.plane) (snd Samples.plane_mesh).
Proof.
  apply (@subspace_mesh_shape Demo.plane ArgNone (ArgList [2; 3]%Z)
           (BndList [-1; -1] [1; 1]) [2; 3]%Z); vm_compute; reflexivity.
Defined.

Lemma arg_vector_single {A : Type} (n : nat) (x : A) :
  arg_vector n (ArgList [x]) = Ok (repeat x n)
  /\ arg_vector n (ArgArray [x]) = Ok (repeat x n).
Proof.
  assert (H : broadcast n [x] = Ok (repeat x n)).
  { unfold broadcast. simpl. destruct n as [|[|n]]; reflexivity. }
  split; simpl; exact H.
Qed.

(** X14. A vector with one entry is a scalar.  Passing a distance or a
    point count as a one-element list or array gives the same outcome as
    passing the number itself, for any number of axes. *)
Theorem subspace_mesh_single_entry (self : t) (boundaries : bounds_arg) :
  (forall (x : Q) (n_points : arg Z),
      subspace_mesh self (ArgList [x]) n_points boundaries
      = subspace_mesh self (ArgScalar x) n_points boundaries
      /\ subspace_mesh self (ArgArray [x]) n_points boundaries
         = subspace_mesh self (ArgScalar x) n_points boundaries)
  /\ (forall (k : Z) (distance : arg Q),
         subspace_mesh self distance (ArgList [k]) boundaries
         = subspace_mesh self distance (ArgScalar k) boundaries
         /\ subspace_mesh self distance (ArgArray [k]) boundaries
            = subspace_mesh self distance (ArgScalar k) boundaries).
Proof.
  split.
  - intros x n_points.
    destruct (arg_vector_single (n_components self) x) as [Hl Ha].
    unfold subspace_mesh, mesh_mode.
    destruct (arg_is_None n_points) as [[|]|]; cbn [bind]; try (split; reflexivity).
    cbn [arg_is_None map array_truth bind]. rewrite Hl, Ha. split; reflexivity.
  - intros k distance.
    destruct (arg_vector_single (n_components self) k) as [Hl Ha].
    unfold subspace_mesh, mesh_mode.
    cbn [arg_is_None map array_truth bind]. rewrite Hl, Ha. split; reflexivity.
Qed.

(** X15. A list of the wrong length.  With more than one reduced axis, a
    point-count list whose length is neither one nor the number of axes
    cannot be broadcast: [subspace_mesh] raises ValueError. *)
Theorem subspace_mesh_wrong_length (self : t) (distance : arg Q) (l : list Z)
        (boundaries : bounds_arg) :
  n_components self <> 1%nat ->
  length l <> n_components self ->
  length l <> 1%nat ->
  subspace_mesh self distance (ArgList l) boundaries = Raise ValueError.
Proof.
  intros Hn Hl H1. unfold subspace_mesh, mesh_mode. simpl. unfold broadcast.
  replace (length l =? n_components self)%nat with false
    by (symmetry; now apply Nat.eqb_neq).
  replace (n_components self =? 1)%nat with false
    by (symmetry; now apply Nat.eqb_neq).
  destruct l as [|x [|y l]]; simpl in *; try reflexivity. congruence.
Qed.

Lemma subspace_mesh_wrong_length_witness :
  subspace_mesh Demo.plane ArgNone (ArgList [2; 3; 4]%Z) (BndList [-1; -1] [1; 1])
  = Raise ValueError.
Proof.
  apply (@subspace_mesh_wrong_length Demo.plane ArgNone [2; 3; 4]%Z);
    simpl; discriminate.
Defined.

Lemma product_empty {A : Type} :
  forall lists : list (list A), In [] lists -> product lists = [].
Proof.
  induction lists as [|l lists IH]; intro Hin; [destruct Hin|].
  cbn [product]. destruct Hin as [->|Hin]; [reflexivity|].
  rewrite (IH Hin). clear. induction l as [|x l IHl]; [reflexivity|exact IHl].
Qed.

(** X31. A point count of zero on an axis: [subspace_mesh] does not
    return.  The axis gets no sample, the product of the axes is empty,
    and the inversion of an empty list of points raises. *)
Theorem subspace_mesh_zero_points_raises (self : t) (distance : arg Q) (n_points : arg Z)
        (boundaries : bounds_arg) (nv : list Z) (i : nat) :
  mesh_mode self distance n_points = Ok (FindDist nv) ->
  (i < n_components self)%nat ->
  nth_error nv i = Some 0%Z ->
  exists e, subspace_mesh self distance n_points boundaries = Raise e.
Proof.
  intros Hm Hi Hnv.
  destruct (subspace_mesh self distance n_points boundaries) as [g|e] eqn:H; [|eauto].
  exfalso. apply PCAFacts.subspace_mesh_axes in H.
  destruct H as (m & lower & upper & axes & f & Hm' & _ & Eaxes & _ & Hproj & _ & Hne & _).
  rewrite Hm in Hm'. injection Hm' as <-.
  destruct (PCAFacts.mesh_axes_nth _ _ _ _ _ _ Eaxes) as [Hlen Hnth].
  destruct (nth_error axes i) as [ax|] eqn:Hax.
  2:{ apply nth_error_None in Hax. lia. }
  pose proof (Hnth i ax Hax) as Hmesh. cbn [Nat.add] in Hmesh.
  destruct (PCAFacts.mesh_axis_inv _ _ _ _ _ Hmesh)
    as (lo & hi & _ & _ & _ & _ & _ & _ & _ & Hlin & _ & k & Hk & Hc & _).
  rewrite Hnv in Hk. injection Hk as <-.
  apply PCAFacts.linspace_length in Hlin. rewrite Hc in Hlin.
  assert (Hs : samp ax = []) by (destruct (samp ax); [reflexivity|discriminate Hlin]).
  rewrite product_empty in Hproj.
  - injection Hproj as Hp. congruence.
  - rewrite <- Hs. apply in_map. eapply nth_error_In. exact Hax.
Qed.

Lemma subspace_mesh_zero_points_raises_witness :
  subspace_mesh Demo.plane ArgNone (ArgList [3; 0]%Z) (BndList [-1; -1] [1; 1])
  = Raise ValueError
  /\ exists e, subspace_mesh Demo.plane ArgNone (ArgList [3; 0]%Z) (BndList [-1; -1] [1; 1])
               = Raise e.
Proof.
  split; [vm_compute; reflexivity|].
  apply (@subspace_mesh_zero_points_raises Demo.plane ArgNone (ArgList [3; 0]%Z)
           (BndList [-1; -1] [1; 1]) [3; 0]%Z 1%nat); [reflexivity|simpl; lia|reflexivity].
Defined.

End MeshFacts.

(** ** More on the sampler's loop *)

Module SamplerFacts.
Import RandomLumopt SamplerInit.

Section Loop.

Variable World : Type.
Variable ext : External World.
Variable set : settings.

Local Abbreviation St := (state World).

Lemma draw_keeps_records (fuel : nat) :
  forall s : St, same_records s (fst (draw ext set fuel s)).
Proof.
  induction fuel as [|fuel IH]; intro s; [repeat split|].
  cbn [draw]. unfold bindM, call, set_new_param, modify, lift.
  destruct (global_sample_function ext (world s)) as [w [p|e]]; simpl; [|repeat split].
  destruct (within_bounds set p) as [[|]|e]; simpl; [repeat split| |repeat split].
  match goal with |- same_records _ (fst (draw _ _ _ ?s1)) =>
    destruct (IH s1) as (H1 & H2 & H3 & H4) end.
  simpl in *. repeat split; assumption.
Qed.

(** What one turn does to the sampler: it records as many parameter sets as
    results, accepts at most one result, and counts an iteration exactly
    when it ends without exception. *)
Lemma attempt_effects (fuel : nat) (s s' : St) (o : outcome unit) :
  attempt ext set fuel s = (s', o) ->
  exists ps rs,
    sampling_param s' = sampling_param s ++ ps
    /\ sampling_res s' = sampling_res s ++ rs
    /\ length ps = length rs
    /\ (results_num s <= results_num s' <= S (results_num s))%nat
    /\ iteration s' = match o with
                      | Return _ => S (iteration s)
                      | _ => iteration s
                      end.
Proof.
  intro H.
  unfold attempt, bindM, call, record, count_result, count_iteration, holds,
    lift, gets, ret, modify in H.
  destruct (global_result_constraint set) as [g|];
    [destruct (study_run ext (new_param s) (world s)) as [w [[v used]|e]]; simpl in H;
     [destruct (g v) as [[|]|e]; simpl in H|]
    |destruct (study_update_geometry ext (new_param s) (world s)) as [w [b|e]];
     simpl in H];
    try match type of H with
      | context [inverse_design_run ext ?w] =>
          destruct (inverse_design_run ext w) as [w' [[v' used']|e']]; simpl in H;
          [destruct (local_result_constraint set) as [l|];
           [destruct (l v') as [[|]|e']; simpl in H|]|]
      end;
    try match type of H with
      | context [draw ext set fuel ?s1] =>
          pose proof (draw_keeps_records fuel s1) as (D1 & D2 & D3 & D4);
          destruct (draw ext set fuel s1) as [s2 [[]|e2|]]; simpl in *
      end;
    injection H as <- <-; simpl;
    rewrite ?D1, ?D2, ?D3, ?D4, <- ?app_assoc;
    do 2 eexists;
    (split; [first [reflexivity | symmetry; apply app_nil_r]|]);
    (split; [first [reflexivity | symmetry; apply app_nil_r]|]);
    (split; [reflexivity|]); (split; [lia|reflexivity]).
Qed.

Lemma loop_returns (max_results : nat) (max_iter : option nat) :
  forall (fuel error_flag turns : nat) (s s' : St) (t : nat),
    loop ext set fuel max_results max_iter error_flag turns s = (s', Return t) ->
    exists ps rs,
      sampling_param s' = sampling_param s ++ ps
      /\ sampling_res s' = sampling_res s ++ rs
      /\ length ps = length rs
      /\ (results_num s' <= Nat.max max_results (results_num s))%nat
      /\ ((results_num s' < max_results)%nat -> below (iteration s') max_iter = true ->
          (turns + (6 - error_flag) <= t)%nat).
Proof.
  induction fuel as [|fuel IH]; intros error_flag turns s s' t H; [discriminate|].
  cbn [loop] in H.
  destruct (below (iteration s) max_iter && (results_num s <? max_results)%nat
            && (error_flag <? 6)%nat) eqn:Hc.
  - apply andb_true_iff in Hc. destruct Hc as [Hc Hflag].
    apply andb_true_iff in Hc. destruct Hc as [_ Hnum].
    apply Nat.ltb_lt in Hflag. apply Nat.ltb_lt in Hnum.
    destruct (attempt ext set fuel s) as [s1 o1] eqn:Ea.
    destruct (attempt_effects _ _ Ea) as (ps1 & rs1 & Hp1 & Hr1 & Hl1 & Hn1 & _).
    assert (Hrec : exists ef, (ef <= S error_flag)%nat
                              /\ loop ext set fuel max_results max_iter ef (S turns) s1
                                 = (s', Return t)).
    { destruct o1 as [[]|e|]; [exists 0%nat|exists (S error_flag)|discriminate];
        (split; [lia|exact H]). }
    destruct Hrec as (ef & Hef & Hloop).
    destruct (IH _ _ _ _ _ Hloop) as (ps & rs & Hp & Hr & Hl & Hn & Ht).
    exists (ps1 ++ ps), (rs1 ++ rs).
    rewrite Hp, Hp1, Hr, Hr1, !app_assoc, !length_app.
    repeat split; try lia.
    intros Hlt Hbelow. specialize (Ht Hlt Hbelow). lia.
  - injection H as <- <-. exists [], []. rewrite !app_nil_r.
    repeat split; try lia.
    intros Hlt Hbelow. rewrite Hbelow in Hc. apply Nat.ltb_lt in Hlt. rewrite Hlt in Hc.
    simpl in Hc. apply Nat.ltb_ge in Hc. lia.
Qed.

(** X16. What [run] hands back.  Whenever [run] returns, the list of
    results and the list of parameter sets have the same length (given
    they had before, or were reset), the accepted count does not exceed
    [max_results] (or the count it started with), and if it stopped short
    of [max_results] with iterations to spare, at least six turns were
    made. *)
Theorem run_returns (fuel max_results : nat) (reset_counter : bool)
        (max_iter : option nat) (s s' : St)
        (rs : list value) (ps : list (list Q)) (num turns : nat) :
  run ext set fuel max_results reset_counter max_iter s = (s', Return (rs, ps, num, turns)) ->
  reset_counter = true \/ length (sampling_param s) = length (sampling_res s) ->
  length rs = length ps
  /\ (num <= Nat.max max_results (if reset_counter then 0 else results_num s))%nat
  /\ ((num < max_results)%nat -> below (iteration s') max_iter = true -> (6 <= turns)%nat).
Proof.
  intros H Hpaired.
  unfold run, bindM, ret, modify, gets, call, lift in H.
  destruct reset_counter; simpl in H.
  - match type of H with context [loop ext set fuel max_results max_iter 0 0 ?s0] =>
      destruct (loop ext set fuel max_results max_iter 0 0 s0) as [s1 [t| |]] eqn:El;
        simpl in H; try discriminate;
        destruct (loop_returns _ _ _ _ _ _ El) as (ps' & rs' & Hp & Hr & Hl & Hn & Ht)
    end.
    injection H as <- <- <- <- <-. simpl in *.
    rewrite Hp, Hr. simpl. repeat split; try lia. exact Ht.
  - match type of H with context [loop ext set fuel max_results max_iter 0 0 ?s0] =>
      destruct (loop ext set fuel max_results max_iter 0 0 s0) as [s1 [t| |]] eqn:El;
        simpl in H; try discriminate;
        destruct (loop_returns _ _ _ _ _ _ El) as (ps' & rs' & Hp & Hr & Hl & Hn & Ht)
    end.
    injection H as <- <- <- <- <-. simpl in *.
    destruct Hpaired as [|Hpaired]; [discriminate|].
    rewrite Hp, Hr, !length_app. repeat split; try lia. exact Ht.
Qed.

(** *** The default bounds *)

Section ListBounds.

Variable l : list (Q * Q).
Hypothesis list_bounds : global_parameters_bounds set = BoundsList l.

Lemma draw_list_bounds (fuel : nat) (s : St) :
  exists s' e, draw ext set (S fuel) s = (s', Throw e).
Proof.
  cbn [draw]. unfold bindM, call, set_new_param, modify, lift, within_bounds.
  rewrite list_bounds.
  destruct (global_sample_function ext (world s)) as [w [p|e]]; simpl; eauto.
Qed.

Lemma attempt_list_bounds (fuel : nat) (s : St) :
  exists s' e, attempt ext set (S fuel) s = (s', Throw e).
Proof.
  remember (S fuel) as f eqn:Hf.
  unfold attempt, bindM, call, record, count_result, count_iteration, holds,
    lift, gets, ret, modify.
  destruct (global_result_constraint set) as [g|];
    [destruct (study_run ext (new_param s) (world s)) as [w [[v used]|e]]; simpl;
     [destruct (g v) as [[|]|e]; simpl|]
    |destruct (study_update_geometry ext (new_param s) (world s)) as [w [b|e]];
     simpl];
    try match goal with
      | |- context [inverse_design_run ext ?w] =>
          destruct (inverse_design_run ext w) as [w' [[v' used']|e']]; simpl;
          [destruct (local_result_constraint set) as [c|];
           [destruct (c v') as [[|]|e']; simpl|]|]
      end;
    try match goal with
      | |- context [draw ext set f ?s1] =>
          rewrite Hf; destruct (draw_list_bounds fuel s1) as (s2 & e2 & ->)
      end;
    simpl; eauto.
Qed.

Lemma loop_list_bounds (max_results : nat) (max_iter : option nat) :
  forall (fuel error_flag turns : nat) (s : St),
    (error_flag <= 6)%nat ->
    (7 - error_flag < fuel)%nat ->
    exists s' t,
      loop ext set fuel max_results max_iter error_flag turns s = (s', Return t)
      /\ (t <= turns + (6 - error_flag))%nat
      /\ iteration s' = iteration s.
Proof.
  induction fuel as [|fuel IH]; intros error_flag turns s Hle Hfuel; [lia|].
  cbn [loop].
  destruct (below (iteration s) max_iter && (results_num s <? max_results)%nat
            && (error_flag <? 6)%nat) eqn:Hc.
  - apply andb_true_iff in Hc. destruct Hc as [_ Hflag]. apply Nat.ltb_lt in Hflag.
    destruct fuel as [|fuel']; [lia|].
    destruct (attempt_list_bounds fuel' s) as (s1 & e & Ea). rewrite Ea.
    destruct (attempt_effects _ _ Ea) as (_ & _ & _ & _ & _ & _ & Hi).
    destruct (IH (S error_flag) (S turns) s1) as (s' & t & -> & Ht & Hi'); try lia.
    exists s', t. repeat split; [lia|congruence].
  - exists s, turns. repeat split. lia.
Qed.

End ListBounds.

(** X17. The sampler without configured bounds.  When neither a sampling
    function nor bounds are configured, the constructor keeps the bounds
    as a Python list, every turn ends in an exception (the list cannot be
    sliced by column), and [run] returns after at most six turns without
    having completed one iteration. *)
Theorem run_default_bounds (parameters_size fuel max_results : nat)
        (reset_counter : bool) (max_iter : option nat) (s : St) :
  global_parameters_bounds set = init_bounds false None parameters_size ->
  (7 < fuel)%nat ->
  exists s' rs ps num turns,
    run ext set fuel max_results reset_counter max_iter s
    = (s', Return (rs, ps, num, turns))
    /\ (turns <= 6)%nat
    /\ iteration s' = if reset_counter then 0%nat else iteration s.
Proof.
  intros Hb Hfuel. unfold init_bounds in Hb.
  unfold run, bindM, ret, modify, gets, call, lift.
  destruct reset_counter; simpl.
  - match goal with |- context [loop ext set fuel max_results max_iter 0 0 ?s0] =>
      destruct (@loop_list_bounds _ Hb max_results max_iter fuel 0 0 s0)
        as (s1 & t & -> & Ht & Hi); try lia
    end.
    simpl. do 5 eexists. split; [reflexivity|]. simpl in *. split; [lia|exact Hi].
  - match goal with |- context [loop ext set fuel max_results max_iter 0 0 ?s0] =>
      destruct (@loop_list_bounds _ Hb max_results max_iter fuel 0 0 s0)
        as (s1 & t & -> & Ht & Hi); try lia
    end.
    simpl. do 5 eexists. split; [reflexivity|]. simpl in *. split; [lia|exact Hi].
Qed.

End Loop.

Lemma run_returns_witness :
  length (@nil value) = length (@nil (list Q))
  /\ (0 <= Nat.max 5 0)%nat
  /\ ((0 < 5)%nat ->
      below (iteration (fst (run Demo.broken Demo.sampler_settings 10 5 true None
                                 Demo.sampler_start))) None = true ->
      (6 <= 6)%nat).
Proof.
  apply (@run_returns unit Demo.broken Demo.sampler_settings 10 5 true None
           Demo.sampler_start
           (fst (run Demo.broken Demo.sampler_settings 10 5 true None Demo.sampler_start))
           [] [] 0%nat 6%nat).
  - reflexivity.
  - left. reflexivity.
Defined.

Lemma run_default_bounds_witness :
  exists s' rs ps num turns,
    run Demo.evaluator (mkSettings (init_bounds false None 1) None None) 10 5 true None
        Demo.sampler_start
    = (s', Return (rs, ps, num, turns))
    /\ (turns <= 6)%nat
    /\ iteration s' = 0%nat.
Proof.
  apply (@run_default_bounds unit Demo.evaluator
           (mkSettings (init_bounds false None 1) None None) 1 10 5 true None
           Demo.sampler_start).
  - reflexivity.
  - lia.
Defined.

End SamplerFacts.

(** ** More on the orchestrator *)

Module MappingFacts.
Import SpaceMapping.

Section More.

Variable World : Type.
Variable ext : External World.

Local Abbreviation St := (t World).

(** X18. Declining the prompt.  When [go] is false and the answer is not
    [y], the sweep returns [None] and leaves the orchestrator exactly as it
    was: no point is evaluated, nothing is stored, no map is added. *)
Theorem subspace_sweep_declined (s : St) (distance : PCA.arg Q) (n_points : PCA.arg Z)
        (boundaries : PCA.bounds_arg) (grid : option PCA.grids) (response : string)
        (g : PCA.grids) :
  match grid with
  | Some g' => Ok g'
  | None => PCA.subspace_mesh (dr s) distance n_points boundaries
  end = Ok g ->
  response <> "y" ->
  subspace_sweep ext distance n_points boundaries grid false response s
  = (s, Return None).
Proof.
  intros Hgrid Hresp. unfold subspace_sweep, bindM.
  assert (Hg : match grid with
               | Some g0 => ret g0
               | None => fun s0 : St =>
                           lift (PCA.subspace_mesh (dr s0) distance n_points boundaries) s0
               end s = (s, Return g)).
  { destruct grid as [g'|]; [now injection Hgrid as ->|].
    unfold lift. now rewrite Hgrid. }
  rewrite Hg. apply String.eqb_neq in Hresp. rewrite Hresp. reflexivity.
Qed.

(** A mesh that cannot be built.  When no grid is handed in and
    [subspace_mesh] raises, the exception leaves [subspace_sweep] (the mesh
    is built before the [try]) and the orchestrator is unchanged. *)
Theorem subspace_sweep_mesh_error (s : St) (distance : PCA.arg Q) (n_points : PCA.arg Z)
        (boundaries : PCA.bounds_arg) (go : bool) (response : string) (e : exn) :
  PCA.subspace_mesh (dr s) distance n_points boundaries = Raise e ->
  subspace_sweep ext distance n_points boundaries None go response s = (s, Throw e).
Proof.
  intro H. unfold subspace_sweep, bindM, lift. now rewrite H.
Qed.

(** *** Sweeping points that are already stored *)



(** X20. A figure of merit of zero.  If the points before [p] were swept
    without failure and the evaluation of [p] returns the float zero, the
    sweep is abandoned exactly as for the failure sentinel: it returns
    [None], no map is added and the zero result is not stored. *)
Theorem subspace_sweep_zero_result
        (s s1 : St) (pre post : list (list Q)) (p : list Q)
        (projected : list (list Q)) (normalized : list (list PCA.xq))
        (distance : PCA.arg Q) (n_points : PCA.arg Z) (boundaries : PCA.bounds_arg)
        (grid : option PCA.grids) (go : bool) (response : string)
        (idx : list (option nat)) (w : World) (q : Q) (used : list Q) :
  go = true \/ response = "y" ->
  match grid with
  | Some g' => Ok g'
  | None => PCA.subspace_mesh (dr s) distance n_points boundaries
  end = Ok (pre ++ p :: post, projected, normalized) ->
  sweep_loop ext pre [] s = (s1, Return idx) ->
  fst (DataCollection.is_sample (data s1) p (fom_name s1)) = false ->
  study_run ext (Some p) (world s1) = (w, Ok (Atom (ANum q), used)) ->
  q == 0 ->
  exists s2,
    subspace_sweep ext distance n_points boundaries grid go response s
    = (s2, Return None)
    /\ maps s2 = maps s
    /\ data s2 = data s1.
Proof.
  intros Hgo Hgrid Hpre Hnew Heval Hq.
  apply Qeq_bool_iff in Hq.
  pose proof (SpaceMappingFacts.sweep_loop_extends ext pre [] s) as Hext.
  rewrite Hpre in Hext. destruct Hext as (Hm & _). simpl in Hm.
  rewrite (@SpaceMappingFacts.subspace_sweep_runs World ext s distance n_points boundaries
             grid go response _ Hgo Hgrid).
  unfold try_except, sweep_body, bindM at 1.
  rewrite SpaceMappingFacts.sweep_loop_app. unfold bindM at 1. rewrite Hpre.
  cbn [sweep_loop]. unfold bindM at 1.
  rewrite (@SpaceMappingFacts.run_study_evaluates World ext s1 (Some p) "sweeping" false
             w (Atom (ANum q)) used); [|rewrite Hnew; reflexivity|exact Heval].
  cbv zeta. cbn [ne_False]. rewrite Hq. cbn [negb].
  unfold bindM, lift. cbn [fst eq_False]. rewrite Hq.
  eexists. split; [reflexivity|].
  unfold autosaved, saved. destruct (autosave _ && _); simpl; auto.
Qed.

(** *** The index a sweep returns *)

Lemma maps_view_length (s : St) :
  forall (ms : list Map) (views : list MapView),
    maps_view s ms = Ok views -> length views = length ms.
Proof.
  induction ms as [|m ms IH]; intros views H; simpl in H.
  - now injection H as <-.
  - destruct (view_of s m); simpl in H; [|discriminate].
    destruct (maps_view s ms) as [rest|]; simpl in H; [|discriminate].
    injection H as <-. simpl. f_equal. now apply IH.
Qed.

Lemma maps_view_data (s s' : St) (ms : list Map) :
  data s' = data s -> dr s' = dr s -> maps_view s' ms = maps_view s ms.
Proof.
  intros Hd Hdr. induction ms as [|m ms IH]; simpl; [reflexivity|].
  unfold view_of. now rewrite Hd, Hdr, IH.
Qed.

(** X21. With autosave on.  A sweep whose evaluations all succeed, and
    whose maps can be read back from the store, returns the number of maps
    there were before: the index of the map it appends. *)
Theorem subspace_sweep_returns_index
        (s s1 : St) (points projected : list (list Q)) (normalized : list (list PCA.xq))
        (distance : PCA.arg Q) (n_points : PCA.arg Z) (boundaries : PCA.bounds_arg)
        (grid : option PCA.grids) (go : bool) (response : string)
        (idx : list (option nat)) (views : list MapView) :
  go = true \/ response = "y" ->
  match grid with
  | Some g' => Ok g'
  | None => PCA.subspace_mesh (dr s) distance n_points boundaries
  end = Ok (points, projected, normalized) ->
  autosave s = true ->
  sweep_loop ext points [] s = (s1, Return idx) ->
  maps_view s1 (maps s ++ [mkMap SelfDr (dr_training_index s) projected normalized idx])
  = Ok views ->
  exists s2,
    subspace_sweep ext distance n_points boundaries grid go response s
    = (s2, Return (Some (length (maps s))))
    /\ nth_error (maps s2) (length (maps s))
       = Some (mkMap SelfDr (dr_training_index s) projected normalized idx)
    /\ saves s2 = S (saves s1).
Proof.
  intros Hgo Hgrid Hauto Hloop Hviews.
  pose proof (SpaceMappingFacts.sweep_loop_extends ext points [] s) as Hext.
  rewrite Hloop in Hext.
  destruct Hext as (Hm & Ha & _ & _ & Ht & _ & _). simpl in Hm, Ha, Ht.
  rewrite (@SpaceMappingFacts.subspace_sweep_runs World ext s distance n_points boundaries
             grid go response _ Hgo Hgrid).
  unfold try_except, sweep_body, bindM at 1. rewrite Hloop.
  unfold bindM, gets, modify, save_data, lift, ret. simpl.
  rewrite Ha, Hauto, Hm, Ht. simpl.
  match goal with |- context [maps_view ?s2 ?ms] =>
    rewrite (@maps_view_data s1 s2 ms eq_refl eq_refl) end.
  rewrite Hviews. simpl.
  rewrite (maps_view_length _ _ Hviews), length_app. simpl.
  replace (length (maps s) + 1 - 1)%nat with (length (maps s)) by lia.
  eexists. split; [reflexivity|]. simpl.
  split; [|reflexivity].
  rewrite nth_error_app2 by lia. now rewrite Nat.sub_diag.
Qed.

Lemma maps_view_untrained (s : St) (m : Map) (ms : list Map) :
  PCA.fitted (dr s) = None ->
  exists e, maps_view s (ms ++ [m]) = Raise e.
Proof.
  intro Hf.
  assert (Hv : exists e, view_of s m = Raise e).
  { unfold view_of. rewrite Hf.
    destruct (lookup_all DataCollection.parameters (data s) (map Some (training_data_idx m)));
      simpl; eauto. }
  destruct Hv as [e Hv].
  induction ms as [|m' ms IH]; simpl.
  - rewrite Hv. simpl. eauto.
  - destruct (view_of s m'); simpl; [|eauto].
    destruct IH as [e' ->]. simpl. eauto.
Qed.

(** X22. A sweep before any training.  With autosave on and a model that
    was never trained, a sweep over a grid that is handed in evaluates
    every point, appends its map and saves, but then returns [None]:
    reading the maps back needs the model's projected training data, and
    the exception is swallowed by the [except] of the sweep. *)
Theorem subspace_sweep_untrained_returns_None
        (s s1 : St) (points projected : list (list Q)) (normalized : list (list PCA.xq))
        (distance : PCA.arg Q) (n_points : PCA.arg Z) (boundaries : PCA.bounds_arg)
        (go : bool) (response : string) (idx : list (option nat)) :
  go = true \/ response = "y" ->
  autosave s = true ->
  PCA.fitted (dr s) = None ->
  sweep_loop ext points [] s = (s1, Return idx) ->
  exists s2,
    subspace_sweep ext distance n_points boundaries
                   (Some (points, projected, normalized)) go response s
    = (s2, Return None)
    /\ maps s2 = maps s ++ [mkMap SelfDr (dr_training_index s) projected normalized idx]
    /\ data s2 = data s1
    /\ saves s2 = S (saves s1).
Proof.
  intros Hgo Hauto Hf Hloop.
  pose proof (SpaceMappingFacts.sweep_loop_extends ext points [] s) as Hext.
  rewrite Hloop in Hext.
  destruct Hext as (Hm & Ha & _ & Hdr & Ht & _ & _). simpl in Hm, Ha, Ht, Hdr.
  rewrite (@SpaceMappingFacts.subspace_sweep_runs World ext s distance n_points boundaries
             (Some (points, projected, normalized)) go response _ Hgo eq_refl).
  unfold try_except, sweep_body, bindM at 1. rewrite Hloop.
  unfold bindM, gets, modify, save_data, lift, ret. simpl.
  rewrite Ha, Hauto, Hm, Ht. simpl.
  match goal with |- context [maps_view ?s2 (?ms ++ [?m])] =>
    destruct (@maps_view_untrained s2 m ms) as [e ->]; [simpl; congruence|]
  end.
  simpl. eexists. split; [reflexivity|]. simpl. auto.
Qed.

(** *** Forcing an evaluation *)



(** *** run_sampling with a sampler that reports no error *)

Lemma store_results_ok (rs : list value) (ps : list (list Q)) :
  forall (i : nat) (s : St),
    (i + length rs <= length ps)%nat ->
    exists added,
      store_results i rs ps s = (set_data (data s ++ added) s, Return tt)
      /\ length added = length rs
      /\ Forall (fun smp => DataCollection.simulation_name smp = "sampling"
                            /\ DataCollection.result_name smp = fom_name s) added.
Proof.
  induction rs as [|r rs IH]; intros i s Hlen; simpl in Hlen.
  - exists []. simpl. rewrite app_nil_r. destruct s. repeat split. constructor.
  - cbn [store_results]. unfold bindM at 1, lift, PCA.get.
    destruct (nth_error ps i) as [p|] eqn:Ep.
    2:{ apply nth_error_None in Ep. lia. }
    unfold bindM at 1, add_sample. cbn [DataCollection.add_sample fst snd].
    match goal with |- context [store_results (S i) rs ps ?s1] =>
      destruct (IH (S i) s1) as (added & -> & Hl & Hall); [lia|] end.
    eexists (_ :: added). cbn [data set_data fom_name] in *.
    rewrite <- app_assoc. cbn [app].
    split; [reflexivity|]. split; [simpl; lia|].
    constructor; [split; reflexivity|exact Hall].
Qed.

Section ReliableSampler.

Hypothesis no_error :
  forall w, exists w' rs ps good,
      sampler_run ext w = (w', (rs, ps, good, false)) /\ (length rs <= length ps)%nat.

(** One turn of the loop with such a sampler. *)
Lemma sampling_turn (s : St) :
  exists w' rs ps good added,
    sampler_run ext (world s) = (w', (rs, ps, good, false))
    /\ store_results 0 rs ps
         (set_counters (S (sampler_iteration s)) (sampler_results_num s) (set_world w' s))
       = (set_data (data s ++ added)
            (set_counters (S (sampler_iteration s)) (sampler_results_num s) (set_world w' s)),
          Return tt)
    /\ Forall (fun smp => DataCollection.simulation_name smp = "sampling"
                          /\ DataCollection.result_name smp = fom_name s) added.
Proof.
  destruct (no_error (world s)) as (w' & rs & ps & good & Hrun & Hlen).
  destruct (@store_results_ok rs ps 0
              (set_counters (S (sampler_iteration s)) (sampler_results_num s) (set_world w' s)))
    as (added & Hstore & _ & Hall); [simpl; lia|].
  exists w', rs, ps, good, added. auto.
Qed.

Lemma sampling_loop_terminates (max_results m : nat) :
  forall (fuel error_num : nat) (s : St),
    (error_num < 6)%nat ->
    (m - sampler_iteration s < fuel)%nat ->
    exists s',
      sampling_loop ext fuel max_results (Some m) error_num s = (s', Return tt)
      /\ ((sampler_results_num s' < max_results)%nat -> (m <= sampler_iteration s')%nat)
      /\ maps s' = maps s
      /\ exists added,
          data s' = data s ++ added
          /\ Forall (fun smp => DataCollection.simulation_name smp = "sampling"
                                /\ DataCollection.result_name smp = fom_name s) added.
Proof.
  induction fuel as [|fuel IH]; intros error_num s Herr Hfuel; [lia|].
  cbn [sampling_loop below].
  destruct ((sampler_iteration s <? m)%nat && (sampler_results_num s <? max_results)%nat
            && (error_num <? 6)%nat) eqn:Hc.
  - apply andb_true_iff in Hc. destruct Hc as [Hc _].
    apply andb_true_iff in Hc. destruct Hc as [Hit _]. apply Nat.ltb_lt in Hit.
    destruct (sampling_turn s) as (w' & rs & ps & good & added & -> & Hstore & Hall).
    unfold bindM at 1. unfold bindM at 1. unfold bindM at 1. unfold modify at 1.
    unfold bindM at 1. cbn [set_counters set_world sampler_iteration sampler_results_num
                            autosave data fom_name dr maps dr_training_index world
                            evaluations saves] in Hstore |- *.
    rewrite Hstore.
    destruct good; unfold bindM, modify, gets, ret, save_data;
      cbn [set_data set_counters set_world autosave sampler_iteration
           sampler_results_num data fom_name dr maps dr_training_index world
           evaluations saves];
      destruct (autosave s) eqn:Ha; unfold modify; cbv beta iota zeta;
      match goal with |- context [sampling_loop ext fuel max_results (Some m) 0 ?s1] =>
        destruct (IH 0%nat s1) as (s' & -> & Hexit & Hm & added' & Hd & Hall');
          [lia|simpl; lia|]
      end;
      simpl in Hd, Hall', Hm;
      (exists s'; split; [reflexivity|]; split; [exact Hexit|]; split; [exact Hm|];
       exists (added ++ added'); split; [now rewrite Hd, app_assoc|];
       apply Forall_app; split; assumption).
  - exists s. split; [reflexivity|]. split.
    + intro Hlt. apply Nat.ltb_lt in Hlt. rewrite Hlt in Hc.
      apply Nat.ltb_lt in Herr. rewrite Herr in Hc.
      rewrite !andb_true_r in Hc. apply Nat.ltb_ge in Hc. exact Hc.
    + split; [reflexivity|]. exists []. rewrite app_nil_r. split; [reflexivity|constructor].
Qed.

(** X24. [run_sampling] with a sampler that reports no error.  With a
    finite [max_iter] the call returns; it answers [True] exactly when the
    accepted count has reached [max_results], and an answer of [False]
    means [max_iter] iterations were used up.  Everything it stores has the
    stage 'sampling' and the active result name, and no map is touched. *)
Theorem run_sampling_terminates (fuel max_results m : nat) (reset : bool) (s : St) :
  (m - (if reset then 0 else sampler_iteration s) < fuel)%nat ->
  exists s' b,
    run_sampling ext fuel max_results reset (Some m) s = (s', Return b)
    /\ (b = true <-> (max_results <= sampler_results_num s')%nat)
    /\ (b = false -> (m <= sampler_iteration s')%nat)
    /\ maps s' = maps s
    /\ exists added,
        data s' = data s ++ added
        /\ Forall (fun smp => DataCollection.simulation_name smp = "sampling"
                              /\ DataCollection.result_name smp = fom_name s) added.
Proof.
  intro Hfuel. unfold run_sampling, bindM at 1.
  set (s0 := fst ((if reset then modify (set_counters 0 0) else ret tt) s)).
  assert (Hs0 : (if reset then modify (set_counters 0 0) else ret tt) s = (s0, Return tt)).
  { subst s0. destruct reset; reflexivity. }
  rewrite Hs0.
  assert (Hframe : sampler_iteration s0 = (if reset then 0%nat else sampler_iteration s)
                   /\ maps s0 = maps s /\ data s0 = data s /\ fom_name s0 = fom_name s).
  { subst s0. destruct reset; simpl; auto. }
  destruct Hframe as (Hi & Hm & Hd & Hn).
  destruct (@sampling_loop_terminates max_results m fuel 0 s0)
    as (s' & Hloop & Hexit & Hm' & added & Hd' & Hall); [lia|lia|].
  unfold bindM, gets, ret. rewrite Hloop.
  exists s', (negb (sampler_results_num s' <? max_results)%nat).
  split; [reflexivity|]. split.
  { rewrite negb_true_iff, Nat.ltb_ge. reflexivity. }
  split.
  { rewrite negb_false_iff, Nat.ltb_lt. exact Hexit. }
  split; [congruence|].
  exists added. rewrite Hd', Hd. split; [reflexivity|]. now rewrite <- Hn.
Qed.

End ReliableSampler.

Section GoodSampler.

Hypothesis always_good :
  forall w, exists w' rs ps,
      sampler_run ext w = (w', (rs, ps, true, false)) /\ (length rs <= length ps)%nat.

Lemma sampling_loop_succeeds (max_results : nat) :
  forall (fuel error_num : nat) (s : St),
    (max_results - sampler_results_num s < fuel)%nat ->
    exists s',
      sampling_loop ext fuel max_results None error_num s = (s', Return tt)
      /\ (sampler_results_num s' = Nat.max max_results (sampler_results_num s)
          \/ (6 <= error_num)%nat)
      /\ (sampler_iteration s' + sampler_results_num s
          = sampler_iteration s + sampler_results_num s')%nat.
Proof.
  induction fuel as [|fuel IH]; intros error_num s Hfuel; [lia|].
  cbn [sampling_loop below].
  destruct (true && (sampler_results_num s <? max_results)%nat
            && (error_num <? 6)%nat) eqn:Hc.
  - apply andb_true_iff in Hc. destruct Hc as [Hnum _].
    apply Nat.ltb_lt in Hnum.
    destruct (always_good (world s)) as (w' & rs & ps & -> & Hlen).
    destruct (@store_results_ok rs ps 0
                (set_counters (S (sampler_iteration s)) (sampler_results_num s)
                              (set_world w' s)))
      as (added & Hstore & _ & _); [simpl; lia|].
    unfold bindM at 1. unfold bindM at 1. unfold bindM at 1. unfold modify at 1.
    unfold bindM at 1. cbn [set_counters set_world sampler_iteration sampler_results_num
                            autosave data fom_name dr maps dr_training_index world
                            evaluations saves] in Hstore |- *.
    rewrite Hstore.
    unfold bindM, modify, gets, ret, save_data;
      cbn [set_data set_counters set_world autosave sampler_iteration
           sampler_results_num data fom_name dr maps dr_training_index world
           evaluations saves];
      destruct (autosave s) eqn:Ha; unfold modify; cbv beta iota zeta;
      match goal with |- context [sampling_loop ext fuel max_results None 0 ?s1] =>
        destruct (IH 0%nat s1) as (s' & -> & Hres & Hit); [simpl; lia|]
      end;
      simpl in Hres, Hit;
      (exists s'; split; [reflexivity|]; split; [left|]; lia).
  - exists s. split; [reflexivity|]. split; [|lia].
    simpl in Hc. apply andb_false_iff in Hc. destruct Hc as [Hc|Hc].
    + apply Nat.ltb_ge in Hc. left. lia.
    + apply Nat.ltb_ge in Hc. right. exact Hc.
Qed.

(** X25. [run_sampling] with a sampler whose runs are all accepted.  With
    the default [max_iter] and the counters reset, the call returns [True]
    after exactly [max_results] iterations, with [max_results] accepted
    results. *)
Theorem run_sampling_succeeds (fuel max_results : nat) (s : St) :
  (max_results < fuel)%nat ->
  exists s',
    run_sampling ext fuel max_results true None s = (s', Return true)
    /\ sampler_results_num s' = max_results
    /\ sampler_iteration s' = max_results.
Proof.
  intro Hfuel. unfold run_sampling, bindM at 1, modify.
  destruct (@sampling_loop_succeeds max_results fuel 0 (set_counters 0 0 s))
    as (s' & Hloop & Hres & Hit); [simpl; lia|].
  simpl in Hres, Hit.
  assert (Hnum : sampler_results_num s' = max_results) by lia.
  unfold bindM, gets, ret. rewrite Hloop. exists s'.
  rewrite Hnum, Nat.ltb_irrefl. repeat split; lia.
Qed.

End GoodSampler.

(** *** Training *)

Section Training.

Variable train_model : PCA.t -> list (list Q) -> PCA.t * res unit.

Lemma numbered_nth (l : list DataCollection.Sample) :
  forall (i k : nat) (smp : DataCollection.Sample),
    In (k, smp) (StoreSpec.numbered i l) ->
    (i <= k)%nat /\ nth_error l (k - i) = Some smp.
Proof.
  unfold StoreSpec.numbered.
  induction l as [|x l IH]; intros i k smp Hin; simpl in Hin; [destruct Hin|].
  destruct Hin as [Heq|Hin].
  - injection Heq as <- <-. rewrite Nat.sub_diag. split; [lia|reflexivity].
  - destruct (IH (S i) k smp Hin) as [Hle Hn]. split; [lia|].
    replace (k - i)%nat with (S (k - S i)) by lia. exact Hn.
Qed.

(** X26. What the reduction is trained on.  With scalar bounds on
    component [k], [dimensionality_reduction] trains the model on the
    parameters of exactly the samples that carry the result name (the
    active one by default), whose stage is contained in the string
    'sampling', and whose component lies strictly within the bounds; it
    records their indices, and none of them is a sample of a sweep. *)
Theorem dimensionality_reduction_training_set
        (s : St) (result_name : option string) (k : nat) (lb ub : option Q) :
  let name := match result_name with Some n => n | None => fom_name s end in
  let kept := filter (fun x => StoreSpec.selected name k
                                 (DataCollection.StageStr "sampling") lb ub (snd x))
                     (StoreSpec.numbered 0 (data s)) in
  Forall (fun smp => String.eqb (DataCollection.result_name smp) name
                     && DataCollection.stage_ok (DataCollection.StageStr "sampling")
                          (DataCollection.simulation_name smp) = true ->
                     StoreSpec.component k smp <> None) (data s) ->
  let s' := fst (Reduction.dimensionality_reduction train_model result_name
                   (DataCollection.IdxInt (Z.of_nat k))
                   (StoreSpec.scalar_bound lb) (StoreSpec.scalar_bound ub) s) in
  dr_training_index s' = map fst kept
  /\ dr s' = fst (train_model (dr s) (map (fun x => DataCollection.parameters (snd x)) kept))
  /\ data s' = data s
  /\ Forall (fun i => exists smp, nth_error (data s') i = Some smp
                                  /\ DataCollection.result_name smp = name
                                  /\ DataCollection.simulation_name smp <> "sweeping")
            (dr_training_index s').
Proof.
  intros name kept Hall s'.
  assert (Hs' : dr_training_index s' = map fst kept
                /\ dr s' = fst (train_model (dr s)
                                  (map (fun x => DataCollection.parameters (snd x)) kept))
                /\ data s' = data s).
  { subst s'. unfold Reduction.dimensionality_reduction. fold name.
    unfold DataCollection.filter_simulation.
    rewrite (@StoreFacts.filter_from_scalar name k (DataCollection.StageStr "sampling")
               lb ub (data s) 0 [] [] [] Hall).
    cbv zeta. cbn [app]. fold kept.
    destruct (train_model (dr s) (map (fun x => DataCollection.parameters (snd x)) kept))
      as [m [[]|e]]; simpl; auto. }
  destruct Hs' as (Hidx & Hdr & Hd).
  repeat split; try assumption.
  rewrite Hidx, Hd. apply Forall_forall. intros i Hi.
  apply in_map_iff in Hi. destruct Hi as ([i' smp] & <- & Hin).
  subst kept. apply filter_In in Hin. destruct Hin as [Hin Hsel].
  destruct (numbered_nth _ _ _ _ Hin) as [_ Hn]. rewrite Nat.sub_0_r in Hn.
  exists smp. simpl in *. split; [exact Hn|].
  unfold StoreSpec.selected in Hsel.
  apply andb_true_iff in Hsel. destruct Hsel as [Hsel _].
  apply andb_true_iff in Hsel. destruct Hsel as [Hname Hstage].
  apply String.eqb_eq in Hname. split; [exact Hname|].
  intro Hsweep. rewrite Hsweep in Hstage. discriminate.
Qed.

End Training.

End More.

(** *** The properties at work *)

Ltac run := vm_compute; reflexivity.

Lemma subspace_sweep_declined_witness :
  subspace_sweep Demo.evaluator PCA.ArgNone PCA.ArgNone PCA.BndNone
                 (Some Demo.grid_of_two) false "n" (Demo.start true)
  = (Demo.start true, Return None).
Proof.
  apply (@subspace_sweep_declined unit Demo.evaluator (Demo.start true)
           PCA.ArgNone PCA.ArgNone PCA.BndNone (Some Demo.grid_of_two) "n"
           Demo.grid_of_two); [reflexivity|discriminate].
Defined.

Lemma subspace_sweep_mesh_error_witness :
  subspace_sweep Demo.evaluator PCA.ArgNone PCA.ArgNone PCA.BndNone None true ""
                 (Demo.start true)
  = (Demo.start true, Throw ValueError).
Proof.
  apply (@subspace_sweep_mesh_error unit Demo.evaluator (Demo.start true)
           PCA.ArgNone PCA.ArgNone PCA.BndNone true "" ValueError).
  reflexivity.
Defined.


Lemma subspace_sweep_zero_result_witness :
  exists s2,
    subspace_sweep Demo.evaluator PCA.ArgNone PCA.ArgNone PCA.BndNone
                   (Some Samples.grid_with_zero) true "" (Demo.start true)
    = (s2, Return None)
    /\ maps s2 = maps (Demo.start true)
    /\ data s2 = data (fst (sweep_loop Demo.evaluator [[1]] [] (Demo.start true))).
Proof.
  apply (@subspace_sweep_zero_result unit Demo.evaluator (Demo.start true)
           (fst (sweep_loop Demo.evaluator [[1]] [] (Demo.start true)))
           [[1]] [[3]] [0] [[0.5]; [0]; [1.5]]
           [[PCA.Finite 1]; [PCA.Finite 0]; [PCA.Finite 3]]
           PCA.ArgNone PCA.ArgNone PCA.BndNone (Some Samples.grid_with_zero)
           true "" [Some 0%nat] tt 0 [0]);
    [left; reflexivity|run|run|run|run|run].
Defined.

Lemma subspace_sweep_returns_index_witness :
  exists s2,
    subspace_sweep Demo.evaluator PCA.ArgNone PCA.ArgNone PCA.BndNone
                   (Some Demo.grid_of_two) true "" (Demo.start true)
    = (s2, Return (Some (length (maps (Demo.start true)))))
    /\ nth_error (maps s2) (length (maps (Demo.start true)))
       = Some (mkMap SelfDr (dr_training_index (Demo.start true))
                     [[0.5]; [1.5]] [[PCA.Finite 1]; [PCA.Finite 3]]
                     [Some 0%nat; Some 1%nat])
    /\ saves s2 = S (saves (fst (sweep_loop Demo.evaluator [[1]; [3]] []
                                             (Demo.start true)))).
Proof.
  apply (@subspace_sweep_returns_index unit Demo.evaluator (Demo.start true)
           (fst (sweep_loop Demo.evaluator [[1]; [3]] [] (Demo.start true)))
           [[1]; [3]] [[0.5]; [1.5]] [[PCA.Finite 1]; [PCA.Finite 3]]
           PCA.ArgNone PCA.ArgNone PCA.BndNone (Some Demo.grid_of_two) true ""
           [Some 0%nat; Some 1%nat]
           [mkMapView [] [[1]; [3]] [[ANum 1]; [ANum 3]]]);
    [left; reflexivity|run|run|run|run].
Defined.

Lemma subspace_sweep_untrained_returns_None_witness :
  exists s2,
    subspace_sweep Demo.evaluator PCA.ArgNone PCA.ArgNone PCA.BndNone
                   (Some ([[1]; [3]], [[0.5]; [1.5]], [[PCA.Finite 1]; [PCA.Finite 3]]))
                   true "" Samples.untrained_start
    = (s2, Return None)
    /\ maps s2 = maps Samples.untrained_start
                  ++ [mkMap SelfDr (dr_training_index Samples.untrained_start)
                            [[0.5]; [1.5]] [[PCA.Finite 1]; [PCA.Finite 3]]
                            [Some 0%nat; Some 1%nat]]
    /\ data s2 = data (fst (sweep_loop Demo.evaluator [[1]; [3]] []
                                        Samples.untrained_start))
    /\ saves s2 = S (saves (fst (sweep_loop Demo.evaluator [[1]; [3]] []
                                             Samples.untrained_start))).
Proof.
  apply (@subspace_sweep_untrained_returns_None unit Demo.evaluator
           Samples.untrained_start
           (fst (sweep_loop Demo.evaluator [[1]; [3]] [] Samples.untrained_start))
           [[1]; [3]] [[0.5]; [1.5]] [[PCA.Finite 1]; [PCA.Finite 3]]
           PCA.ArgNone PCA.ArgNone PCA.BndNone true "" [Some 0%nat; Some 1%nat]);
    [left; reflexivity|run|run|run].
Defined.


Lemma run_sampling_terminates_witness :
  exists s' b,
    run_sampling Samples.reliable 10 5 true (Some 3%nat) (Demo.start false)
    = (s', Return b)
    /\ (b = true <-> (5 <= sampler_results_num s')%nat)
    /\ (b = false -> (3 <= sampler_iteration s')%nat)
    /\ maps s' = maps (Demo.start false)
    /\ exists added,
        data s' = data (Demo.start false) ++ added
        /\ Forall (fun smp => DataCollection.simulation_name smp = "sampling"
                              /\ DataCollection.result_name smp
                                 = fom_name (Demo.start false)) added.
Proof.
  apply (@run_sampling_terminates unit Samples.reliable).
  - intros []. exists tt, [Atom (ANum 1)], [[1]], true. split; [reflexivity|simpl; lia].
  - simpl. lia.
Defined.

Lemma run_sampling_succeeds_witness :
  exists s',
    run_sampling Samples.reliable 10 5 true None (Demo.start false) = (s', Return true)
    /\ sampler_results_num s' = 5%nat
    /\ sampler_iteration s' = 5%nat.
Proof.
  apply (@run_sampling_succeeds unit Samples.reliable).
  - intros []. exists tt, [Atom (ANum 1)], [[1]]. split; [reflexivity|simpl; lia].
  - lia.
Defined.

Lemma dimensionality_reduction_training_set_witness :
  let s' := fst (Reduction.dimensionality_reduction Samples.train None
                   (DataCollection.IdxInt 0)
                   (DataCollection.BoundScalar 0.5) DataCollection.BoundNone
                   Samples.sampled) in
  dr_training_index s' = [1%nat]
  /\ dr s' = fst (Samples.train (dr Samples.sampled) [[2]])
  /\ data s' = data Samples.sampled
  /\ Forall (fun i => exists smp, nth_error (data s') i = Some smp
                                  /\ DataCollection.result_name smp = "fom"
                                  /\ DataCollection.simulation_name smp <> "sweeping")
            (dr_training_index s').
Proof.
  apply (@dimensionality_reduction_training_set unit Samples.train Samples.sampled
           None 0 (Some 0.5) None).
  repeat constructor; discriminate.
Defined.

End MappingFacts.

(** ** Where the project is saved *)

Module PersistenceFacts.
Import Persistence.

Lemma string_length_append (a b : string) :
  String.length (a ++ b) = (String.length a + String.length b)%nat.
Proof. induction a as [|c a IH]; simpl; [reflexivity|now rewrite IH]. Qed.

Lemma append_cancel_l (a b c : string) : (a ++ b = a ++ c)%string -> b = c.
Proof.
  induction a as [|x a IH]; simpl; intro H; [exact H|].
  injection H as H. now apply IH.
Qed.

Lemma append_cancel_r (e : string) :
  forall a b : string, (a ++ e = b ++ e)%string -> a = b.
Proof.
  induction a as [|x a IH]; intros [|y b] H; simpl in H.
  - reflexivity.
  - exfalso. apply (f_equal String.length) in H. simpl in H.
    rewrite string_length_append in H. lia.
  - exfalso. apply (f_equal String.length) in H. simpl in H.
    rewrite string_length_append in H. lia.
  - injection H as -> H. f_equal. now apply IH.
Qed.

Lemma str_inj (a b : nat) : str a = str b -> a = b.
Proof.
  unfold str. intro H.
  assert (Hnil : forall n, Nat.to_uint n <> Decimal.Nil).
  { intros n E. pose proof (DecimalNat.Unsigned.of_to n) as Hn.
    rewrite E in Hn. simpl in Hn. subst n. discriminate E. }
  apply (f_equal DecimalString.NilZero.uint_of_string) in H.
  rewrite !DecimalString.NilZero.usu in H by apply Hnil.
  injection H as H. now apply DecimalNat.Unsigned.to_uint_inj.
Qed.

Lemma candidate_inj (sv : service) (csv : bool) (a b : nat) :
  (current_folder sv ++ numbered_name sv a ++ extension csv
   = current_folder sv ++ numbered_name sv b ++ extension csv)%string ->
  a = b.
Proof.
  unfold numbered_name. intro H.
  apply append_cancel_l, append_cancel_r, append_cancel_l, append_cancel_l in H.
  now apply str_inj.
Qed.

Lemma isfile_In (files : list string) (path : string) :
  isfile files path = true <-> In path files.
Proof.
  unfold isfile. rewrite existsb_exists. split.
  - intros (x & Hin & Heq). apply String.eqb_eq in Heq. now subst.
  - intro Hin. exists path. split; [exact Hin|apply String.eqb_refl].
Qed.

(** What the search returns is free, and it is the candidate it was entered
    with or a numbered one. *)
Lemma search_free (files : list string) (sv : service) (csv : bool) :
  forall (fuel n : nat) (file_name : string) (n' : nat) (file_name' : string),
    search fuel files sv csv n file_name = Some (n', file_name') ->
    isfile files (current_folder sv ++ file_name')%string = false
    /\ ((n' = n /\ file_name' = file_name)
        \/ ((n < n')%nat /\ file_name' = (numbered_name sv n' ++ extension csv)%string)).
Proof.
  induction fuel as [|fuel IH]; intros n file_name n' file_name' H; [discriminate|].
  cbn [search] in H.
  destruct (isfile files (current_folder sv ++ file_name)%string) eqn:E.
  - apply IH in H. destruct H as [Hfree [[-> ->]|[Hlt ->]]].
    + split; [exact Hfree|]. right. split; [lia|reflexivity].
    + split; [exact Hfree|]. right. split; [lia|reflexivity].
  - injection H as <- <-. split; [exact E|]. now left.
Qed.

(** A search that runs out of fuel has met that many different files. *)
Lemma search_exhausted (files : list string) (sv : service) (csv : bool) :
  forall (fuel n : nat) (file_name : string),
    search fuel files sv csv n file_name = None ->
    forall j, (1 <= j < fuel)%nat ->
              In (current_folder sv ++ numbered_name sv (n + j) ++ extension csv)%string files.
Proof.
  induction fuel as [|fuel IH]; intros n file_name H j Hj; [lia|].
  cbn [search] in H.
  destruct (isfile files (current_folder sv ++ file_name)%string) eqn:E; [|discriminate].
  destruct (Nat.eq_dec j 1) as [->|Hne].
  - destruct fuel as [|fuel']; [lia|]. cbn [search] in H.
    destruct (isfile files (current_folder sv ++ numbered_name sv (S n) ++ extension csv)%string)
      eqn:E1; [|discriminate].
    apply isfile_In in E1. now replace (n + 1)%nat with (S n) by lia.
  - replace (n + j)%nat with (S n + (j - 1))%nat by lia.
    apply (@IH _ _ H). lia.
Qed.

Lemma search_terminates (files : list string) (sv : service) (csv : bool)
      (fuel n : nat) (file_name : string) :
  (S (length files) < fuel)%nat ->
  exists n' file_name', search fuel files sv csv n file_name = Some (n', file_name').
Proof.
  intro Hfuel.
  destruct (search fuel files sv csv n file_name) as [[n' f']|] eqn:E; [eauto|].
  exfalso.
  pose proof (@search_exhausted files sv csv fuel n file_name E) as Hall.
  set (names := map (fun j => (current_folder sv ++ numbered_name sv (n + j)
                               ++ extension csv)%string) (seq 1 (fuel - 1))).
  assert (Hnodup : NoDup names).
  { subst names. generalize (seq_NoDup (fuel - 1) 1).
    generalize (seq 1 (fuel - 1)). intros l Hl.
    induction Hl as [|x l Hx _ IH]; simpl; constructor; [|exact IH].
    rewrite in_map_iff. intros (y & Heq & Hy). apply candidate_inj in Heq.
    assert (y = x) by lia. now subst. }
  assert (Hincl : incl names files).
  { subst names. intros p Hp. apply in_map_iff in Hp. destruct Hp as (j & <- & Hj).
    apply in_seq in Hj. apply Hall. lia. }
  pose proof (NoDup_incl_length Hnodup Hincl) as Hlen.
  subst names. rewrite length_map, length_seq in Hlen. lia.
Qed.

(** Every numbered name below the one the search settles on is taken. *)
Lemma search_first (files : list string) (sv : service) (csv : bool) :
  forall (fuel n : nat) (file_name : string) (n' : nat) (file_name' : string),
    search fuel files sv csv n file_name = Some (n', file_name') ->
    forall j, (n < j < n')%nat ->
              In (current_folder sv ++ numbered_name sv j ++ extension csv)%string files.
Proof.
  induction fuel as [|fuel IH]; intros n file_name n' file_name' H j Hj; [discriminate|].
  cbn [search] in H.
  destruct (isfile files (current_folder sv ++ file_name)%string) eqn:E.
  - destruct (Nat.eq_dec j (S n)) as [->|Hne].
    + destruct fuel as [|fuel']; [discriminate|]. cbn [search] in H.
      destruct (isfile files (current_folder sv ++ numbered_name sv (S n)
                              ++ extension csv)%string) eqn:E1.
      * now apply isfile_In.
      * injection H as <- <-. lia.
    + apply (@IH _ _ _ _ H). lia.
  - injection H as <- <-. lia.
Qed.

(** X27. A save never overwrites on its own account.  When no file name is
    given and the run has not chosen a name yet (or [override] is off),
    [save_data] returns, and its target is not an existing file: the
    current name if that is free, otherwise the suffix with the first
    number from 1 on whose file does not exist.  The name chosen is
    remembered as the current file name. *)
Theorem save_data_fresh_name (fuel : nat) (override csv : bool) (response : string)
        (sv : service) (files : list string) :
  override = false \/ new_name_generated sv = false ->
  (S (length files) < fuel)%nat ->
  exists d,
    save_data fuel None override csv response sv files = Return d
    /\ ~ In (target d) files
    /\ flag_write d = true
    /\ target d = (current_folder sv ++ current_file_name (service_after d)
                   ++ extension csv)%string
    /\ new_name_generated (service_after d) = true
    /\ if isfile files (current_folder sv ++ current_file_name sv ++ extension csv)%string
       then exists n,
           (1 <= n)%nat
           /\ current_file_name (service_after d) = numbered_name sv n
           /\ forall j, (1 <= j < n)%nat ->
                        In (current_folder sv ++ numbered_name sv j ++ extension csv)%string
                           files
       else current_file_name (service_after d) = current_file_name sv.
Proof.
  intros Hnew Hfuel. unfold save_data.
  assert (Hcond : negb override || negb (new_name_generated sv) = true).
  { destruct Hnew as [-> | ->]; [reflexivity|apply orb_true_r]. }
  rewrite Hcond, andb_true_r.
  destruct (isfile files (current_folder sv ++ current_file_name sv ++ extension csv)%string)
    eqn:E.
  - destruct (search_terminates files sv csv 0 (current_file_name sv ++ extension csv)%string
                Hfuel) as (n & f & Hs).
    rewrite Hs. pose proof (@search_first _ _ _ _ _ _ _ _ Hs) as Hfirst.
    destruct (@search_free _ _ _ _ _ _ _ _ Hs) as [Hfree [[_ ->]|[Hpos ->]]].
    + congruence.
    + eexists. split; [reflexivity|]. cbn [target flag_write service_after
        current_file_name new_name_generated].
      split; [intro Hin; apply isfile_In in Hin; congruence|].
      do 3 (split; [reflexivity|]).
      exists n. split; [lia|]. split; [reflexivity|].
      intros j Hj. apply Hfirst. lia.
  - eexists. split; [reflexivity|]. cbn [target flag_write service_after
      current_file_name new_name_generated].
    split; [intro Hin; apply isfile_In in Hin; congruence|].
    do 3 (split; [reflexivity|]). reflexivity.
Qed.

Lemma save_data_fresh_name_witness :
  exists d,
    save_data 5 None true false "n" (mkService "run" "run" false "/tmp/")
              ["/tmp/run.pkl"; "/tmp/run_1.pkl"]
    = Return d
    /\ ~ In (target d) ["/tmp/run.pkl"; "/tmp/run_1.pkl"]
    /\ flag_write d = true
    /\ target d = ("/tmp/" ++ current_file_name (service_after d) ++ ".pkl")%string
    /\ new_name_generated (service_after d) = true
    /\ exists n,
        (1 <= n)%nat
        /\ current_file_name (service_after d)
           = numbered_name (mkService "run" "run" false "/tmp/") n
        /\ forall j, (1 <= j < n)%nat ->
                     In ("/tmp/" ++ numbered_name (mkService "run" "run" false "/tmp/") j
                         ++ ".pkl")%string
                        ["/tmp/run.pkl"; "/tmp/run_1.pkl"].
Proof.
  apply (@save_data_fresh_name 5 true false "n" (mkService "run" "run" false "/tmp/")
           ["/tmp/run.pkl"; "/tmp/run_1.pkl"]).
  - right. reflexivity.
  - simpl. lia.
Defined.

(** X28. Later autosaves overwrite the file of the first.  After a save
    without file name, a further save without file name and with
    [override] on goes to the file name the first save settled on, with
    the extension of its own [csv] flag, whatever files exist by then, and
    changes nothing in the service variables.  With the same [csv] flag
    that is the path the first save wrote to. *)
Theorem save_data_autosave_again (fuel fuel' : nat) (override csv csv' : bool)
        (response response' : string) (sv : service) (files files' : list string)
        (d : decision) :
  save_data fuel None override csv response sv files = Return d ->
  save_data fuel' None true csv' response' (service_after d) files'
  = Return (mkDecision (service_after d)
                       (current_folder (service_after d)
                        ++ current_file_name (service_after d)
                        ++ extension csv')%string
                       true)
  /\ target d = (current_folder (service_after d)
                 ++ current_file_name (service_after d)
                 ++ extension csv)%string.
Proof.
  unfold save_data. intro H.
  assert (Hd : new_name_generated (service_after d) = true
               /\ target d = (current_folder (service_after d)
                              ++ current_file_name (service_after d)
                              ++ extension csv)%string
               /\ service_after d
                  = mkService (suffix (service_after d)) (current_file_name (service_after d))
                              true (current_folder (service_after d))).
  { destruct (isfile files (current_folder sv ++ current_file_name sv ++ extension csv)%string
              && (negb override || negb (new_name_generated sv))) eqn:E.
    - destruct (search fuel files sv csv 0 (current_file_name sv ++ extension csv)%string)
        as [[n f]|] eqn:Hs; [|discriminate].
      injection H as <-. simpl.
      destruct (@search_free _ _ _ _ _ _ _ _ Hs) as [_ [[-> ->]|[_ ->]]]; auto.
      apply andb_true_iff in E. destruct E as [E _].
      destruct (@search_free _ _ _ _ _ _ _ _ Hs) as [Hfree _]. congruence.
    - injection H as <-. simpl. auto. }
  destruct Hd as (Hg & Ht & Hsv).
  split; [|exact Ht].
  rewrite Hg. cbn [negb orb]. rewrite andb_false_r.
  rewrite <- Hsv. reflexivity.
Qed.

Lemma save_data_autosave_again_witness :
  save_data 5 None true true "n"
            (mkService "run" "run_2" true "/tmp/")
            ["/tmp/run_2.pkl"; "/tmp/run.pkl"; "/tmp/run_1.pkl"]
  = Return (mkDecision (mkService "run" "run_2" true "/tmp/") "/tmp/run_2.csv" true)
  /\ "/tmp/run_2.pkl" = "/tmp/run_2.pkl".
Proof.
  apply (@save_data_autosave_again 5 5 true false true "n" "n"
           (mkService "run" "run" false "/tmp/")
           ["/tmp/run.pkl"; "/tmp/run_1.pkl"]
           ["/tmp/run_2.pkl"; "/tmp/run.pkl"; "/tmp/run_1.pkl"]
           (mkDecision (mkService "run" "run_2" true "/tmp/") "/tmp/run_2.pkl" true)).
  vm_compute. reflexivity.
Defined.

End PersistenceFacts.

(** ** The simulator session of the study *)

Module StudyFacts.
Import Study.

Section Sessions.

Variable World : Type.
Variable sim : Simulator World.

Local Abbreviation St := (t World).

(** What a run that returns has done: it opened a session if none was
    open, closed it if the study restarts the simulator, and reports the
    parameters the geometry holds afterwards. *)
Lemma run_effects (param : option (list Q)) (s s' : St) (v : value)
      (used : option (list Q)) :
  run sim param s = (s', Return (v, used)) ->
  exists added,
    calls s' = calls s ++ added
    /\ length (filter is_Initialize added) = (if sim_initialized s then 0 else 1)%nat
    /\ length (filter is_Close added) = (if simulator_restart s then 1 else 0)%nat
    /\ sim_initialized s' = negb (simulator_restart s)
    /\ simulator_restart s' = simulator_restart s
    /\ used = parameters s'
    /\ parameters s' = match param with Some p => Some p | None => parameters s end.
Proof.
  intro H.
  unfold run, _initialize_simulation, geometry_initialize, geometry_update,
    close_simulation, invoke, bindM, gets, modify, ret in H.
  destruct s as [w ini restart ps cs]. cbn in H.
  repeat (first
    [ discriminate H
    | match type of H with
      | context [sim_initialize sim ?x] =>
          destruct (sim_initialize sim x) as [? [[]|?]]
      | context [sim_execute_geometry sim ?p ?x] =>
          destruct (sim_execute_geometry sim p x) as [? [[]|?]]
      | context [sim_run sim ?x] => destruct (sim_run sim x) as [? [[]|?]]
      | context [sim_execute_fom sim ?x] => destruct (sim_execute_fom sim x) as [? [?|?]]
      | context [sim_close sim ?x] => destruct (sim_close sim x) as [? [[]|?]]
      | context [if ?b then _ else _] => destruct b
      | context [match ?x with Some _ => _ | None => _ end] => destruct x
      end; cbn in H ]).
  all: injection H as <- <- <-; cbn.
  all: eexists; split; [rewrite <- ?app_assoc; reflexivity|].
  all: cbn; repeat split.
Qed.

Lemma bindM_returns (S A B : Type) (m : M S A) (k : A -> M S B) (s s' : S) (b : B) :
  bindM m k s = (s', Return b) ->
  exists s1 a, m s = (s1, Return a) /\ k a s1 = (s', Return b).
Proof.
  unfold bindM. destruct (m s) as [s1 [a|e|]]; intro H; try discriminate H.
  exists s1, a. split; [reflexivity|exact H].
Qed.

(** A series of runs that all return. *)
Lemma runs_effects :
  forall (params : list (option (list Q))) (s s' : St)
         (rs : list (value * option (list Q))),
    runs sim params s = (s', Return rs) ->
    exists added,
      calls s' = calls s ++ added
      /\ length rs = length params
      /\ simulator_restart s' = simulator_restart s
      /\ sim_initialized s' = match params with
                              | [] => sim_initialized s
                              | _ :: _ => negb (simulator_restart s)
                              end
      /\ length (filter is_Initialize added)
         = match params with
           | [] => 0
           | _ :: rest => (if sim_initialized s then 0 else 1)
                          + (if simulator_restart s then length rest else 0)
           end%nat
      /\ length (filter is_Close added)
         = (if simulator_restart s then length params else 0)%nat.
Proof.
  induction params as [|p rest IH]; intros s s' rs H.
  - cbn in H. injection H as <- <-. exists []. rewrite app_nil_r.
    destruct (simulator_restart s); repeat split.
  - cbn [runs] in H.
    apply bindM_returns in H. destruct H as (s1 & [v used] & Hrun & H).
    apply bindM_returns in H. destruct H as (s2 & rs' & Hrest & H).
    injection H as <- <-.
    apply run_effects in Hrun.
    destruct Hrun as (a1 & Hc1 & Hi1 & Hx1 & Hf1 & Hr1 & _).
    apply IH in Hrest.
    destruct Hrest as (a2 & Hc2 & Hl2 & Hr2 & Hf2 & Hi2 & Hx2).
    exists (a1 ++ a2).
    rewrite Hc2, Hc1, <- app_assoc, !filter_app, !length_app, Hi1, Hx1, Hi2, Hx2.
    rewrite Hr2, Hr1, Hf1 in *. cbn [length]. rewrite Hl2.
    repeat split.
    + destruct rest; exact Hf2.
    + destruct rest as [|q rest']; destruct (simulator_restart s);
        destruct (sim_initialized s); cbn; lia.
    + destruct (simulator_restart s); lia.
Qed.

(** X29. Sessions of a series of runs.  When a series of runs that starts
    without a session returns, a study that restarts the simulator has
    opened and closed one session per run; a study that does not has opened
    one session for the whole series and closed none.  The session is left
    open exactly in the second case. *)
Theorem runs_sessions (params : list (option (list Q))) (s s' : St)
        (rs : list (value * option (list Q))) :
  runs sim params s = (s', Return rs) ->
  sim_initialized s = false ->
  params <> [] ->
  exists added,
    calls s' = calls s ++ added
    /\ length rs = length params
    /\ length (filter is_Initialize added)
       = (if simulator_restart s then length params else 1)%nat
    /\ length (filter is_Close added)
       = (if simulator_restart s then length params else 0)%nat
    /\ sim_initialized s' = negb (simulator_restart s).
Proof.
  intros H Hini Hne. apply runs_effects in H.
  destruct H as (added & Hc & Hl & _ & Hf & Hi & Hx).
  exists added. destruct params as [|p rest]; [congruence|].
  rewrite Hini in Hi. split; [exact Hc|]. split; [exact Hl|].
  split; [|split; [exact Hx|exact Hf]].
  rewrite Hi. destruct (simulator_restart s); cbn [length]; lia.
Qed.

(** X30. Parameters that were stored but not sent.  [update_geometry]
    stores the new parameters without touching the simulator.  A [run]
    without parameters that follows it reports them as the parameters
    used; they reach the simulator only if that run has to open a
    session.  With a session already open the run makes no geometry call:
    the simulation is that of the geometry sent before. *)
Theorem update_geometry_then_run (p : list Q) (s s' : St) (v : value)
        (used : option (list Q)) :
  (update_geometry sim (Some p) ;;; run sim None) s = (s', Return (v, used)) ->
  used = Some p
  /\ calls s' = calls s
                ++ (if sim_initialized s then [] else [Initialize; Geometry (Some p)])
                ++ [Run; Fom]
                ++ (if simulator_restart s then [Close] else []).
Proof.
  intro H.
  unfold update_geometry, run, _initialize_simulation, geometry_initialize,
    geometry_update, close_simulation, invoke, bindM, gets, modify, ret in H.
  destruct s as [w ini restart ps cs]. cbn in H.
  repeat (first
    [ discriminate H
    | match type of H with
      | context [sim_initialize sim ?x] =>
          destruct (sim_initialize sim x) as [? [[]|?]]
      | context [sim_execute_geometry sim ?q ?x] =>
          destruct (sim_execute_geometry sim q x) as [? [[]|?]]
      | context [sim_run sim ?x] => destruct (sim_run sim x) as [? [[]|?]]
      | context [sim_execute_fom sim ?x] => destruct (sim_execute_fom sim x) as [? [?|?]]
      | context [sim_close sim ?x] => destruct (sim_close sim x) as [? [[]|?]]
      | context [if ?b then _ else _] => destruct b
      end; cbn in H ]).
  all: injection H as <- <- <-; cbn.
  all: split; [reflexivity|rewrite <- ?app_assoc; reflexivity].
Qed.

End Sessions.

Lemma runs_sessions_witness :
  exists added,
    calls (fst (runs Samples.bench [Some [2]; None] (Samples.bench_study true)))
    = calls (Samples.bench_study true) ++ added
    /\ length [(Atom (ANum 1), Some [2]); (Atom (ANum 2), Some [2])] = 2%nat
    /\ length (filter is_Initialize added) = 2%nat
    /\ length (filter is_Close added) = 2%nat
    /\ sim_initialized (fst (runs Samples.bench [Some [2]; None] (Samples.bench_study true)))
       = false.
Proof.
  apply (@runs_sessions nat Samples.bench [Some [2]; None] (Samples.bench_study true)
           (fst (runs Samples.bench [Some [2]; None] (Samples.bench_study true)))
           [(Atom (ANum 1), Some [2]); (Atom (ANum 2), Some [2])]).
  - vm_compute. reflexivity.
  - reflexivity.
  - discriminate.
Defined.

Lemma update_geometry_then_run_witness :
  Some [2] = Some [2]
  /\ calls (fst ((update_geometry Samples.bench (Some [2]) ;;; run Samples.bench None)
                   (set_initialized true (Samples.bench_study false))))
     = calls (set_initialized true (Samples.bench_study false))
       ++ [] ++ [Run; Fom] ++ [].
Proof.
  apply (@update_geometry_then_run nat Samples.bench [2]
           (set_initialized true (Samples.bench_study false))
           (fst ((update_geometry Samples.bench (Some [2]) ;;; run Samples.bench None)
                   (set_initialized true (Samples.bench_study false))))
           (Atom (ANum 1)) (Some [2])).
  vm_compute. reflexivity.
Defined.

End StudyFacts.
